(** * Benchmark orchestration of [performance_test.py]

    A shallow embedding of the [PerformanceTest] class: the worker pool
    ([start_worker], [stop_worker]), the trial runner ([run_simulation]),
    the two sweep drivers ([fixed_particles_test], [fixed_cycles_test]),
    the result writer ([save_results]) and the top-level [run_all_tests].

    The script talks to the operating system all the time (child processes,
    sleeps, files).  Those calls are modelled by an environment [Env] that
    answers every external call, indexed by a global call counter, and by
    a state that records spawned processes, an event trace, the files and
    the fields of [self].  Python exceptions are explicit outcomes; an
    error or a keyboard interrupt is delivered as the answer of an
    external call (a sleep, a launch, a wait), never between two
    statements.  The [while] loops of the sweeps take fuel, and enough
    fuel is shown to exist whenever the increment is positive. *)

From Stdlib Require Import ZArith QArith List String Ascii Bool Lia Arith.
From Stdlib Require Import DecimalString Sorting.Sorted.
Import ListNotations.

Local Open Scope string_scope.
Local Open Scope list_scope.
Local Open Scope Z_scope.

Set Implicit Arguments.

(* ================================================================= *)
(** ** Python strings *)

Module PyStr.

(** [str.isspace] on one character (code points below 256). *)
Definition is_space (c : ascii) : bool :=
  let n := nat_of_ascii c in
  ((9 <=? n) && (n <=? 13) || (28 <=? n) && (n <=? 32)
   || (n =? 133) || (n =? 160))%nat.

(** [sep in s] *)
Fixpoint contains (sep s : string) : bool :=
  if String.prefix sep s then true
  else match s with
       | EmptyString => false
       | String _ s' => contains sep s'
       end.

(** [s.split(sep)] for a non-empty separator: [skip] counts the
    characters of a matched separator still to be dropped, [cur] is the
    field being built. *)
Fixpoint split_aux (sep s : string) (skip : nat) (cur : string)
  : list string :=
  match s with
  | EmptyString => [cur]
  | String c s' =>
      match skip with
      | S k => split_aux sep s' k cur
      | O =>
          if String.prefix sep s
          then cur :: split_aux sep s' (String.length sep - 1) ""
          else split_aux sep s' 0 (cur ++ String c "")%string
      end
  end.

Definition split (sep s : string) : list string := split_aux sep s 0 "".

Fixpoint lstrip (s : string) : string :=
  match s with
  | String c s' => if is_space c then lstrip s' else s
  | EmptyString => EmptyString
  end.

Fixpoint rev_string (s acc : string) : string :=
  match s with
  | EmptyString => acc
  | String c s' => rev_string s' (String c acc)
  end.

Definition rstrip (s : string) : string :=
  rev_string (lstrip (rev_string s "")) "".

(** [s.strip()] *)
Definition strip (s : string) : string := rstrip (lstrip s).

(** [s.split()]: the maximal runs of non-space characters. *)
Fixpoint split_ws_aux (s : string) (cur : string) : list string :=
  match s with
  | EmptyString => if String.eqb cur "" then [] else [cur]
  | String c s' =>
      if is_space c
      then (if String.eqb cur "" then split_ws_aux s' ""
            else cur :: split_ws_aux s' "")
      else split_ws_aux s' (cur ++ String c "")%string
  end.

Definition split_ws (s : string) : list string := split_ws_aux s "".

(** [str(n)] for an integer. *)
Definition str (n : Z) : string := NilZero.string_of_int (Z.to_int n).

Definition newline : string := String (ascii_of_nat 10) "".

End PyStr.

(* ================================================================= *)
(** ** Exceptions *)

Inductive exn : Type :=
| KeyboardInterrupt
| SystemExit (code : Z)
| TimeoutExpired
| ValueError
| IndexError
| AttributeError
| OSError (what : string).

(** [isinstance(e, Exception)]: everything but the two [BaseException]s. *)
Definition is_Exception (e : exn) : bool :=
  match e with
  | KeyboardInterrupt | SystemExit _ => false
  | _ => true
  end.

Definition is_TimeoutExpired (e : exn) : bool :=
  match e with TimeoutExpired => true | _ => false end.

(* ================================================================= *)
(** ** Floating-point builtins

    [float(...)], [statistics.mean], [statistics.stdev] and the comparison
    of a float with an integer belong to Python, not to the script.  The
    embedding is parametric in them; [float_of_str] answers [None] where
    [float] raises [ValueError].  [statistics.stdev] can raise: on fewer
    than two data points, and (depending on the version of the library)
    on data that hold an infinity or a NaN, which [float] accepts;
    [statistics.mean] of a non-empty list of floats returns. *)

Class PyFloat : Type := {
  float : Type;
  float_of_str : string -> option float;
  statistics_mean : list float -> float;
  statistics_stdev : list float -> exn + float;
  float_gt_int : float -> Z -> bool
}.

(* ================================================================= *)
(** ** Data *)

(** A number held in a result: [std_dev] is the integer [0] when a single
    repetition succeeded and a float otherwise. *)
Inductive num {PF : PyFloat} : Type :=
| NFloat (f : float)
| NInt (z : Z).

(** One entry of [self.results] (a dict with exactly these keys). *)
Record result {PF : PyFloat} : Type := mk_result {
  test_type : string;
  mode : string;
  particles : Z;
  cycles : Z;
  run_times : list float;
  average_time : float;
  std_dev : num
}.

(** A field handed to [csv.writer.writerow]; [CNone] is Python's [None],
    which the writer renders as an empty field. *)
Inductive cell {PF : PyFloat} : Type :=
| CStr (s : string)
| CInt (z : Z)
| CFloat (f : float)
| CNone.

Definition row {PF : PyFloat} : Type := list cell.

(** Console output, kept structured.  The banner lines that only
    decorate the console carry no information and are left out. *)
Inductive message {PF : PyFloat} : Type :=
| MsgTesting (particles cycles : Z)
| MsgFailedRun (n : Z)
| MsgAvg (avg_time : float) (std_dev : num)
| MsgStopping (mode : string) (max_runtime : Z)
| MsgAllFailedStopping
| MsgAllFailed
| MsgWorkerFailed (n : Z)
| MsgFailedToStartWorkers
| MsgErrorRunning (mode : string) (stderr : string)
| MsgNoElapsedTime (mode : string)
| MsgTimeout (mode : string) (particles cycles : Z)
| MsgException (mode : string) (e : exn)
| MsgSaved (path : string) (records : Z)
| MsgText (s : string).

(** What the script does to the outside world, in order. *)
Inductive event {PF : PyFloat} : Type :=
| EvPkill
| EvPopen (h : nat) (cmd : list string)
| EvRun (cmd : list string) (timeout : Z)
| EvTerminate (h : nat)
| EvWait (h : nat) (timeout : Z)
| EvKill (h : nat)
| EvPrint (m : message).

(** The answers of the operating system.  Every external call draws the
    answer stored at the current value of the call counter. *)
Record Env : Type := {
  (** [os.chdir(PROJECT_DIR)] *)
  on_chdir : option exn;
  (** [os.path.exists(JAR_FILE)] *)
  jar_exists : bool;
  (** [subprocess.run(["pkill", ...])]: [Some e] when the call raises *)
  on_pkill : nat -> option exn;
  (** [time.sleep]: [Some e] when interrupted *)
  on_sleep : nat -> option exn;
  (** [subprocess.Popen] of a worker: [Some e] when the launch raises *)
  on_popen : nat -> option exn;
  (** [worker.poll()] on a worker not yet known to have exited:
      [true] when it is still running *)
  on_poll : nat -> bool;
  (** [worker.communicate()] on an exited worker *)
  on_communicate : nat -> string * string;
  (** [subprocess.run(cmd, timeout=300)] of the driver: an exception
      ([TimeoutExpired], a launch error, an interrupt) or the completed
      process [(returncode, stdout, stderr)] *)
  on_run : nat -> exn + (Z * string * string);
  (** [worker.wait(timeout=5)] on a running worker: [None] when it
      exits in time *)
  on_wait : nat -> option exn;
  (** [open(path, 'a')]: [Some e] when the file cannot be opened *)
  on_open : nat -> option exn
}.

(** The fields of [self] and the part of the world the script touches.
    [worker_processes = None] stands for the attribute not being set
    ([__init__] sets only [worker_process], which is never read).
    [procs] holds one flag per process the tester spawned, in the order
    of the [Popen] calls: whether the process is still running as far as
    the tester knows (its [Popen] object has no return code yet).  An
    exit is recorded when [poll], [wait] or [kill] reports or causes
    it. *)
Record State {PF : PyFloat} : Type := mk_state {
  tick : nat;
  procs : list bool;
  trace : list event;
  files : string -> list row;
  worker_processes : option (list nat);
  results : list result
}.

Inductive outcome (A : Type) : Type :=
| Ret (a : A)
| Raise (e : exn)
| OutOfFuel.
Arguments Raise {A} e.
Arguments OutOfFuel {A}.

(* ================================================================= *)
(** ** Configuration *)

Definition JAVA_HOME : string := "/opt/homebrew/opt/openjdk@21".
Definition JAVA_PATH : string := (JAVA_HOME ++ "/bin/java")%string.
Definition PROJECT_DIR : string :=
  "/Users/gregorantonaz/Desktop/programiranje_3_projekt/ChargedParticles".
Definition JAR_FILE : string :=
  (PROJECT_DIR ++ "/target/ChargedParticles-1.0-SNAPSHOT.jar")%string.
Definition CLASSPATH : string := JAR_FILE.
Definition MAIN_CLASS : string :=
  "com.example.chargedparticles.SimulationRunner".

(** The dimension a test sweeps; the other one is held fixed. *)
Inductive dimension : Type := Cycles | Particles.

(** The two configuration dicts share one shape.  For
    [FIXED_PARTICLES_TEST] the keys are [particles], [starting_cycles],
    [cycle_increment], [max_cycles]; for [FIXED_CYCLES_TEST] they are
    [cycles], [starting_particles], [particle_increment],
    [max_particles]. *)
Record config : Type := mk_config {
  test_name : string;
  swept : dimension;
  fixed_value : Z;
  starting : Z;
  increment : Z;
  max_value : Z;
  runs_per_config : Z;
  max_runtime_seconds : Z
}.

Definition FIXED_PARTICLES_TEST : config :=
  {| test_name := "Fixed_Particles"; swept := Cycles;
     fixed_value := 3000; starting := 500; increment := 500;
     max_value := 10000; runs_per_config := 3;
     max_runtime_seconds := 180 |}.

Definition FIXED_CYCLES_TEST : config :=
  {| test_name := "Fixed_Cycles"; swept := Particles;
     fixed_value := 10000; starting := 500; increment := 500;
     max_value := 5000; runs_per_config := 3;
     max_runtime_seconds := 180 |}.

(** [range(n)] *)
Definition range (n : Z) : list Z := map Z.of_nat (seq 0 (Z.to_nat n)).

(* ================================================================= *)
(** ** The state-and-exception monad of the script *)

Section Model.

Context {PF : PyFloat}.
Variable env : Env.

Definition M (A : Type) : Type := State -> outcome A * State.

Definition ret {A : Type} (a : A) : M A := fun s => (Ret a, s).

Definition raise {A : Type} (e : exn) : M A := fun s => (Raise e, s).

Definition out_of_fuel {A : Type} : M A := fun s => (OutOfFuel, s).

Definition bind {A B : Type} (m : M A) (f : A -> M B) : M B :=
  fun s =>
    match m s with
    | (Ret a, s') => f a s'
    | (Raise e, s') => (Raise e, s')
    | (OutOfFuel, s') => (OutOfFuel, s')
    end.

(** [try: m  except ...:]  where [handler e] is the body of the first
    clause that matches [e], if any. *)
Definition try_except {A : Type} (m : M A) (handler : exn -> option (M A))
  : M A :=
  fun s =>
    match m s with
    | (Raise e, s') =>
        match handler e with
        | Some h => h s'
        | None => (Raise e, s')
        end
    | r => r
    end.

(** [try: m  finally: fin] *)
Definition try_finally {A : Type} (m : M A) (fin : M unit) : M A :=
  fun s =>
    match m s with
    | (OutOfFuel, s') => (OutOfFuel, s')
    | (o, s') =>
        match fin s' with
        | (Ret _, s'') => (o, s'')
        | (Raise e, s'') => (Raise e, s'')
        | (OutOfFuel, s'') => (OutOfFuel, s'')
        end
    end.

Notation "x <- m ;; k" := (bind m (fun x => k))
  (at level 100, m at next level, right associativity).
Notation "m ;; k" := (bind m (fun _ => k))
  (at level 100, right associativity).

(** *** Primitive steps *)

Definition set_tick (n : nat) (s : State) : State :=
  mk_state n (procs s) (trace s) (files s) (worker_processes s) (results s).
Definition set_procs (p : list bool) (s : State) : State :=
  mk_state (tick s) p (trace s) (files s) (worker_processes s) (results s).
Definition set_trace (t : list event) (s : State) : State :=
  mk_state (tick s) (procs s) t (files s) (worker_processes s) (results s).
Definition set_files (f : string -> list row) (s : State) : State :=
  mk_state (tick s) (procs s) (trace s) f (worker_processes s) (results s).
Definition set_worker_processes (w : option (list nat)) (s : State) : State :=
  mk_state (tick s) (procs s) (trace s) (files s) w (results s).
Definition set_results (r : list result) (s : State) : State :=
  mk_state (tick s) (procs s) (trace s) (files s) (worker_processes s) r.

(** The number of the next external call. *)
Definition next_call : M nat :=
  fun s => (Ret (tick s), set_tick (S (tick s)) s).

Definition emit (e : event) : M unit :=
  fun s => (Ret tt, set_trace (trace s ++ [e]) s).

Definition print (m : message) : M unit := emit (EvPrint m).

Definition answer (a : option exn) : M unit :=
  match a with
  | Some e => raise e
  | None => ret tt
  end.

(** [time.sleep(seconds)] *)
Definition time_sleep (seconds : Q) : M unit :=
  t <- next_call ;; answer (on_sleep env t).

(** [subprocess.run(["pkill", "-f", "role worker"], capture_output=True)].
    The call is recorded in the trace.  The tester learns nothing from
    it about the processes it ended: the flags in [procs] change only
    when the tester polls, waits for or kills a worker. *)
Definition pkill_workers : M unit :=
  emit EvPkill ;;
  t <- next_call ;; answer (on_pkill env t).

(** [subprocess.Popen(cmd, ...)]: a fresh handle, running. *)
Definition Popen (cmd : list string) : M nat :=
  t <- next_call ;;
  answer (on_popen env t) ;;
  fun s =>
    let h := List.length (procs s) in
    (Ret h, set_trace (trace s ++ [EvPopen h cmd])
              (set_procs (procs s ++ [true]) s)).

Definition running (h : nat) (s : State) : bool := nth h (procs s) false.

Fixpoint mark_exited (h : nat) (p : list bool) : list bool :=
  match p, h with
  | [], _ => []
  | _ :: p', O => false :: p'
  | b :: p', S h' => b :: mark_exited h' p'
  end.

Definition set_exited (h : nat) : M unit :=
  fun s => (Ret tt, set_procs (mark_exited h (procs s)) s).

(** [worker.poll() is not None] *)
Definition poll_exited (h : nat) : M bool :=
  fun s =>
    if running h s then
      (t <- next_call ;;
       if on_poll env t then ret false
       else (set_exited h ;; ret true)) s
    else (Ret true, s).

(** [worker.communicate()] *)
Definition communicate (h : nat) : M (string * string) :=
  t <- next_call ;; ret (on_communicate env t).

(** [worker.terminate()] *)
Definition terminate (h : nat) : M unit := emit (EvTerminate h).

(** [worker.wait(timeout=...)]: returns at once on an exited worker. *)
Definition wait (h : nat) (timeout : Z) : M unit :=
  emit (EvWait h timeout) ;;
  fun s =>
    if running h s then
      (t <- next_call ;; answer (on_wait env t) ;; set_exited h) s
    else (Ret tt, s).

(** [worker.kill()] *)
Definition kill (h : nat) : M unit :=
  emit (EvKill h) ;; set_exited h.

(** [subprocess.run(cmd, capture_output=True, text=True, timeout=...)] *)
Definition subprocess_run (cmd : list string) (timeout : Z)
  : M (Z * string * string) :=
  emit (EvRun cmd timeout) ;;
  t <- next_call ;;
  match on_run env t with
  | inl e => raise e
  | inr r => ret r
  end.

Definition get_worker_processes : M (option (list nat)) :=
  fun s => (Ret (worker_processes s), s).

Definition put_worker_processes (w : list nat) : M unit :=
  fun s => (Ret tt, set_worker_processes (Some w) s).

(** [self.worker_processes.append(worker)] *)
Definition append_worker (h : nat) : M unit :=
  fun s =>
    (Ret tt,
     set_worker_processes
       (Some (match worker_processes s with
              | Some l => l ++ [h]
              | None => [h]
              end)) s).

(** [self.results.append(result)] *)
Definition append_result (r : result) : M unit :=
  fun s => (Ret tt, set_results (results s ++ [r]) s).

(* =============================================================== *)
(** ** Worker pool *)

Definition worker_cmd : list string :=
  [JAVA_PATH; "-cp"; CLASSPATH; MAIN_CLASS; "--role"; "worker"].

(** The body of [for i in range(4)] in [start_worker], and what
    follows the loop. *)
Fixpoint start_worker_loop (indices : list Z) : M bool :=
  match indices with
  | [] =>
      print (MsgText "All 4 workers started, waiting for initialization...") ;;
      time_sleep 4 ;;
      ret true
  | i :: rest =>
      worker <- Popen worker_cmd ;;
      append_worker worker ;;
      time_sleep (1 # 2) ;;
      exited <- poll_exited worker ;;
      if exited then
        out <- communicate worker ;;
        print (MsgWorkerFailed (i + 1)) ;;
        print (MsgText ("STDOUT: " ++ fst out)%string) ;;
        print (MsgText ("STDERR: " ++ snd out)%string) ;;
        ret false
      else start_worker_loop rest
  end.

Definition start_worker : M bool :=
  pkill_workers ;;
  time_sleep 1 ;;
  print (MsgText "Starting 4 worker nodes...") ;;
  put_worker_processes [] ;;
  start_worker_loop (range 4).

(** The body of [for worker in self.worker_processes] in
    [stop_worker]. *)
Fixpoint stop_worker_loop (ws : list nat) : M unit :=
  match ws with
  | [] => ret tt
  | worker :: rest =>
      terminate worker ;;
      try_except (wait worker 5)
        (fun e => if is_TimeoutExpired e then Some (kill worker) else None) ;;
      stop_worker_loop rest
  end.

(** [not hasattr(self, 'worker_processes') or not self.worker_processes] *)
Definition no_workers (w : option (list nat)) : bool :=
  match w with
  | Some (_ :: _) => false
  | _ => true
  end.

Definition stop_worker : M unit :=
  w <- get_worker_processes ;;
  (match w with
   | Some ((_ :: _) as ws) =>
       print (MsgText "Stopping all 4 worker nodes...") ;;
       stop_worker_loop ws ;;
       put_worker_processes []
   | _ => ret tt
   end) ;;
  pkill_workers.

(* =============================================================== *)
(** ** Trial runner *)

Definition marker : string := "Elapsed time:".

(** The [for line in result.stdout.split('\n')] loop of
    [run_simulation]: the first line holding the marker decides.
    [inl e] is the exception raised by the indexing or by [float]. *)
Fixpoint extract_elapsed (lines : list string) : exn + option float :=
  match lines with
  | [] => inr None
  | line :: rest =>
      if PyStr.contains marker line then
        match nth_error (PyStr.split marker line) 1 with
        | None => inl IndexError
        | Some after =>
            match nth_error (PyStr.split_ws (PyStr.strip after)) 0 with
            | None => inl IndexError
            | Some time_str =>
                match float_of_str time_str with
                | Some t => inr (Some t)
                | None => inl ValueError
                end
            end
        end
      else extract_elapsed rest
  end.

Definition is_distributed (mode : string) : bool :=
  String.eqb mode "distributed".

Definition driver_cmd (mode : string) (particles cycles : Z) : list string :=
  if is_distributed mode then
    [JAVA_PATH; "-cp"; CLASSPATH; MAIN_CLASS;
     "--mode"; "distributed"; "--role"; "master"; "--workers"; "4";
     "--particles"; PyStr.str particles; "--cycles"; PyStr.str cycles;
     "--ui"; "false"]
  else
    [JAVA_PATH; "-cp"; CLASSPATH; MAIN_CLASS;
     "--mode"; mode; "--particles"; PyStr.str particles;
     "--cycles"; PyStr.str cycles; "--ui"; "false"].

Definition print_stdout_if_distributed (mode stdout : string) : M unit :=
  if is_distributed mode
  then print (MsgText ("STDOUT: " ++ stdout)%string)
  else ret tt.

(** The [try] statement of [run_simulation]. *)
Definition run_driver (mode : string) (particles cycles : Z)
  : M (option float) :=
  try_except
    (r <- subprocess_run (driver_cmd mode particles cycles) 300 ;;
     let '(returncode, stdout, stderr) := r in
     if negb (returncode =? 0) then
       print (MsgErrorRunning mode stderr) ;;
       print_stdout_if_distributed mode stdout ;;
       ret None
     else
       match extract_elapsed (PyStr.split PyStr.newline stdout) with
       | inl e => raise e
       | inr (Some t) => ret (Some t)
       | inr None =>
           print (MsgNoElapsedTime mode) ;;
           print_stdout_if_distributed mode stdout ;;
           ret None
       end)
    (fun e =>
       if is_TimeoutExpired e
       then Some (print (MsgTimeout mode particles cycles) ;; ret None)
       else if is_Exception e
            then Some (print (MsgException mode e) ;; ret None)
            else None).

Definition run_simulation (mode : string) (particles cycles : Z)
  : M (option float) :=
  if is_distributed mode then
    w <- get_worker_processes ;;
    if no_workers w then
      started <- start_worker ;;
      if started then run_driver mode particles cycles
      else (print MsgFailedToStartWorkers ;; ret None)
    else run_driver mode particles cycles
  else run_driver mode particles cycles.

(* =============================================================== *)
(** ** Sweep drivers *)

(** [for run in range(runs)]: the successful times, in order. *)
Fixpoint run_repetitions (mode : string) (particles cycles : Z)
  (rs : list Z) (times : list float) : M (list float) :=
  match rs with
  | [] => ret times
  | run :: rest =>
      runtime <- run_simulation mode particles cycles ;;
      match runtime with
      | Some t => run_repetitions mode particles cycles rest (times ++ [t])
      | None =>
          print (MsgFailedRun (run + 1)) ;;
          run_repetitions mode particles cycles rest times
      end
  end.

Definition len {A : Type} (l : list A) : Z := Z.of_nat (List.length l).

(** [statistics.stdev(times) if len(times) > 1 else 0]: the deviation,
    or the exception [statistics.stdev] raises. *)
Definition std_dev_of (times : list float) : exn + num :=
  if 1 <? len times then
    match statistics_stdev times with
    | inl e => inl e
    | inr f => inr (NFloat f)
    end
  else inr (NInt 0).

(** The dict appended to [self.results]. *)
Definition summary (test_name mode : string) (particles cycles : Z)
  (times : list float) (avg_time : float) (std_dev : num) : result :=
  {| test_type := test_name; mode := mode;
     particles := particles; cycles := cycles;
     run_times := times;
     average_time := avg_time;
     std_dev := std_dev |}.

(** The (particles, cycles) pair of a sweep point. *)
Definition point (cfg : config) (v : Z) : Z * Z :=
  match swept cfg with
  | Cycles => (fixed_value cfg, v)
  | Particles => (v, fixed_value cfg)
  end.

(** The [while] loop of [fixed_particles_test] and
    [fixed_cycles_test], from the control value [v] on. *)
Fixpoint sweep_loop (fuel : nat) (cfg : config) (mode : string) (v : Z)
  : M unit :=
  if v <=? max_value cfg then
    match fuel with
    | O => out_of_fuel
    | S fuel' =>
        let '(particles, cycles) := point cfg v in
        print (MsgTesting particles cycles) ;;
        times <- run_repetitions mode particles cycles
                   (range (runs_per_config cfg)) [] ;;
        if 0 <? len times then
          let avg_time := statistics_mean times in
          match std_dev_of times with
          | inl e => raise e
          | inr std_dev =>
              print (MsgAvg avg_time std_dev) ;;
              append_result
                (summary (test_name cfg) mode particles cycles times
                   avg_time std_dev) ;;
              if float_gt_int avg_time (max_runtime_seconds cfg) then
                print (MsgStopping mode (max_runtime_seconds cfg))
              else sweep_loop fuel' cfg mode (v + increment cfg)
          end
        else print MsgAllFailedStopping
    end
  else ret tt.

(** [for mode in modes]: one sweep per mode, then the teardown of the
    pool when the mode is the distributed one. *)
Fixpoint sweep_modes (fuel : nat) (cfg : config) (modes : list string)
  : M unit :=
  match modes with
  | [] => ret tt
  | mode :: rest =>
      sweep_loop fuel cfg mode (starting cfg) ;;
      (if is_distributed mode then (stop_worker ;; time_sleep 2)
       else ret tt) ;;
      sweep_modes fuel cfg rest
  end.

Definition fixed_particles_test (fuel : nat) : M unit :=
  sweep_modes fuel FIXED_PARTICLES_TEST ["distributed"].

Definition fixed_cycles_test (fuel : nat) : M unit :=
  sweep_modes fuel FIXED_CYCLES_TEST ["distributed"].

(** [run_test_series]: the inner body for one (particles, cycles). *)
Definition run_test_point (test_name mode : string) (runs_per_config : Z)
  (particles cycles : Z) : M unit :=
  print (MsgTesting particles cycles) ;;
  times <- run_repetitions mode particles cycles (range runs_per_config) [] ;;
  if 0 <? len times then
    let avg_time := statistics_mean times in
    match std_dev_of times with
    | inl e => raise e
    | inr std_dev =>
        print (MsgAvg avg_time std_dev) ;;
        append_result
          (summary test_name mode particles cycles times avg_time std_dev)
    end
  else print MsgAllFailed.

Fixpoint for_each {A : Type} (l : list A) (body : A -> M unit) : M unit :=
  match l with
  | [] => ret tt
  | x :: rest => body x ;; for_each rest body
  end.

Definition run_test_series (test_name mode : string)
  (particles_list cycles_list : list Z) (runs_per_config : Z) : M unit :=
  for_each particles_list (fun particles =>
    for_each cycles_list (fun cycles =>
      run_test_point test_name mode runs_per_config particles cycles)).

(* =============================================================== *)
(** ** Result files *)

Definition cell_of_num (n : num) : cell :=
  match n with
  | NFloat f => CFloat f
  | NInt z => CInt z
  end.

(** [result['run_times'] + [None] * (3 - len(result['run_times']))] *)
Definition padded_times (r : result) : list cell :=
  map CFloat (run_times r)
  ++ repeat CNone (Z.to_nat (3 - len (run_times r))).

(** The list given to [writer.writerow].  The padded list has at least
    three entries (lemma [padded_times_length]), so the three indexings
    never leave it. *)
Definition csv_row (r : result) : row :=
  let times := padded_times r in
  [CStr (mode r); CInt (particles r); CInt (cycles r);
   nth 0 times CNone; nth 1 times CNone; nth 2 times CNone;
   CFloat (average_time r); cell_of_num (std_dev r)].

(** [open(path, mode, newline='')]: mode ["w"] truncates, mode ["a"]
    leaves the content alone and writes go to its end. *)
Definition open_file (path mode : string) : M unit :=
  t <- next_call ;;
  answer (on_open env t) ;;
  fun s =>
    (Ret tt,
     if String.eqb mode "w"
     then set_files (fun p => if String.eqb p path then [] else files s p) s
     else s).

Definition writerow (path : string) (r : row) : M unit :=
  fun s =>
    (Ret tt,
     set_files (fun p => if String.eqb p path then files s p ++ [r]
                         else files s p) s).

(** [if rs: with open(path, 'a', newline='') as f: ...] *)
Definition append_csv (path : string) (rs : list result) : M unit :=
  match rs with
  | [] => ret tt
  | _ :: _ =>
      open_file path "a" ;;
      for_each rs (fun r => writerow path (csv_row r))
  end.

Definition of_type (name : string) (rs : list result) : list result :=
  filter (fun r => String.eqb (test_type r) name) rs.

Definition save_results : M unit :=
  rs <- (fun s => (Ret (results s), s)) ;;
  append_csv "fixed_particles_results.csv" (of_type "Fixed_Particles" rs) ;;
  append_csv "fixed_cycles_results.csv" (of_type "Fixed_Cycles" rs) ;;
  print (MsgText "New distributed results appended to:") ;;
  print (MsgSaved "fixed_particles_results.csv"
           (len (of_type "Fixed_Particles" rs))) ;;
  print (MsgSaved "fixed_cycles_results.csv"
           (len (of_type "Fixed_Cycles" rs))).

(* =============================================================== *)
(** ** Top level *)

Definition setup_environment : M unit :=
  answer (on_chdir env) ;;
  if jar_exists env then ret tt
  else
    print (MsgText ("ERROR: JAR file not found: " ++ JAR_FILE)%string) ;;
    print (MsgText
             "Please run 'mvn clean package' first to build the project.") ;;
    raise (SystemExit 1).

Definition cleanup : M unit := stop_worker.

(** The [try] body of [run_all_tests] with its two [except] clauses. *)
Definition run_all_tests_guarded (fuel : nat) : M unit :=
  try_except
    (setup_environment ;;
     fixed_particles_test fuel ;;
     fixed_cycles_test fuel ;;
     save_results ;;
     print (MsgText "Performance testing completed successfully!"))
    (fun e =>
       match e with
       | KeyboardInterrupt =>
           Some (print (MsgText "Testing interrupted by user"))
       | _ =>
           if is_Exception e
           then Some (print (MsgText "Error during testing"))
           else None
       end).

Definition run_all_tests (fuel : nat) : M unit :=
  try_finally (run_all_tests_guarded fuel) cleanup.

(** [PerformanceTest()] in a world where nothing was spawned yet. *)
Definition initial (fs : string -> list row) : State :=
  mk_state 0 [] [] fs None [].

End Model.

Arguments ret {PF A} a _.
Arguments raise {PF A} e _.

(* ================================================================= *)
(** ** A computable reading of the float builtins

    Used to run the model on concrete inputs.  A finite float carries the
    exact rational it denotes (no rounding, no overflow); the square root
    of [stdev] is exact on rationals that have a rational root and is
    rounded down otherwise.  [parse] covers the decimal literals of
    [float]: sign, digits, fraction, exponent, [inf]/[infinity]/[nan]
    (not the underscores [float] allows between digits).
    On data that hold an infinity or a NaN, [mean] and [stdev] follow
    CPython 3.11: the mean is the float sum of those entries, and
    [stdev] raises [AttributeError]. *)

Module Exact.

Inductive xfloat : Type :=
| Fin (q : Q)
| PInf
| NInf
| NaN.

Definition digit_of (c : ascii) : option Z :=
  let n := nat_of_ascii c in
  if ((48 <=? n) && (n <=? 57))%nat then Some (Z.of_nat n - 48) else None.

(** Reads a run of digits: its value continuing [acc], its length, and
    what follows. *)
Fixpoint digits (s : string) (acc : Z) (count : nat) : Z * nat * string :=
  match s with
  | String c s' =>
      match digit_of c with
      | Some d => digits s' (10 * acc + d) (S count)
      | None => (acc, count, s)
      end
  | EmptyString => (acc, count, s)
  end.

Definition lower (c : ascii) : ascii :=
  let n := nat_of_ascii c in
  if ((65 <=? n) && (n <=? 90))%nat then ascii_of_nat (n + 32) else c.

Fixpoint lowercase (s : string) : string :=
  match s with
  | String c s' => String (lower c) (lowercase s')
  | EmptyString => EmptyString
  end.

(** A sign, if any, and what follows it. *)
Definition sign (s : string) : bool * string :=
  match s with
  | String "-" s' => (true, s')
  | String "+" s' => (false, s')
  | _ => (false, s)
  end.

Definition scale (m : Z) (e : Z) : Q :=
  if 0 <=? e then inject_Z (m * 10 ^ e)
  else Qmake m (Z.to_pos (10 ^ (- e))).

Definition exponent (s : string) : option Z :=
  match s with
  | EmptyString => Some 0
  | String c s' =>
      if (Ascii.eqb c "e" || Ascii.eqb c "E")%bool then
        let '(neg, s'') := sign s' in
        match digits s'' 0 0 with
        | (_, O, _) => None
        | (v, S _, EmptyString) => Some (if neg then - v else v)
        | _ => None
        end
      else None
  end.

Definition unsigned (s : string) : option Q :=
  let '(ip, ni, s1) := digits s 0 0 in
  let '(fp, nf, s2) :=
    match s1 with
    | String "." s1' => digits s1' ip 0
    | _ => (ip, O, s1)
    end in
  match (ni + nf)%nat with
  | O => None
  | S _ =>
      match exponent s2 with
      | Some e => Some (scale fp (e - Z.of_nat nf))
      | None => None
      end
  end.

Definition parse (s : string) : option xfloat :=
  let '(neg, body) := sign s in
  let word := lowercase body in
  if (String.eqb word "inf" || String.eqb word "infinity")%bool
  then Some (if neg then NInf else PInf)
  else if String.eqb word "nan" then Some NaN
  else match unsigned body with
       | Some q => Some (Fin (if neg then Qopp q else q))
       | None => None
       end.

Fixpoint finite (l : list xfloat) : option (list Q) :=
  match l with
  | [] => Some []
  | Fin q :: l' =>
      match finite l' with
      | Some qs => Some (q :: qs)
      | None => None
      end
  | _ :: _ => None
  end.

Definition qsum (qs : list Q) : Q := fold_right Qplus 0%Q qs.

Definition qmean (qs : list Q) : Q :=
  Qred (qsum qs / inject_Z (Z.of_nat (List.length qs))).

(** Sum of squared deviations over [n - 1]. *)
Definition qvariance (qs : list Q) : Q :=
  let m := qmean qs in
  Qred (qsum (map (fun q => (q - m) * (q - m))%Q qs)
        / inject_Z (Z.of_nat (List.length qs) - 1)).

Definition qsqrt (q : Q) : Q :=
  Qred (Qmake (Z.sqrt (Qnum q * Zpos (Qden q))) (Qden q)).

(** Float addition on values that are not finite. *)
Definition special_add (x y : xfloat) : xfloat :=
  match x, y with
  | PInf, PInf => PInf
  | NInf, NInf => NInf
  | _, _ => NaN
  end.

(** The float sum of the entries that are not finite, when there are
    some. *)
Fixpoint special_sum (l : list xfloat) (acc : option xfloat)
  : option xfloat :=
  match l with
  | [] => acc
  | Fin _ :: l' => special_sum l' acc
  | x :: l' =>
      special_sum l' (match acc with
                      | None => Some x
                      | Some a => Some (special_add a x)
                      end)
  end.

Definition mean (l : list xfloat) : xfloat :=
  match finite l with
  | Some ((_ :: _) as qs) => Fin (qmean qs)
  | Some [] => NaN
  | None =>
      match special_sum l None with
      | Some x => x
      | None => NaN
      end
  end.

(** [StatisticsError] is a [ValueError]. *)
Definition stdev (l : list xfloat) : exn + xfloat :=
  match l with
  | [] | [_] => inl ValueError
  | _ :: _ :: _ =>
      match finite l with
      | Some qs => inr (Fin (qsqrt (qvariance qs)))
      | None => inl AttributeError
      end
  end.

Definition gt_int (x : xfloat) (z : Z) : bool :=
  match x with
  | Fin q => negb (Qle_bool q (inject_Z z))
  | PInf => true
  | NInf | NaN => false
  end.

#[export] Instance exact_float : PyFloat :=
  {| float := xfloat;
     float_of_str := parse;
     statistics_mean := mean;
     statistics_stdev := stdev;
     float_gt_int := gt_int |}.

End Exact.

(* ================================================================= *)
(** ** Concrete environments *)

Module Scenario.

Import Exact.

(** The driver prints its measurement on a line of its own. *)
Definition report_text (t : string) : string :=
("Initialized" ++ PyStr.newline
 ++ "Elapsed time: " ++ t ++ " s" ++ PyStr.newline)%string.

Definition report (t : string) : exn + (Z * string * string) :=
inr (0, report_text t, "").

(** An operating system in which nothing goes wrong around the driver:
    [run] alone decides what each launch of the driver does. *)
Definition calm (run : nat -> exn + (Z * string * string)) : Env :=
{| on_chdir := None; jar_exists := true;
   on_pkill := fun _ => None; on_sleep := fun _ => None;
   on_popen := fun _ => None; on_poll := fun _ => true;
   on_communicate := fun _ => ("", "");
   on_run := run;
   on_wait := fun _ => None; on_open := fun _ => None |}.

Definition no_files : string -> list row := fun _ => [].

(** start 500, step 500, bound 1500, three repetitions, budget 180 s. *)
Definition small_plan : config :=
{| test_name := "Fixed_Particles"; swept := Cycles;
   fixed_value := 3000; starting := 500; increment := 500;
   max_value := 1500; runs_per_config := 3;
   max_runtime_seconds := 180 |}.

Definition nth_answer (l : list (exn + (Z * string * string)))
  (d : exn + (Z * string * string)) (t : nat) :=
nth t l d.

(** 500 cycles take 10, 11 and 9 seconds, 1000 cycles take 200, 205
    and 198 seconds. *)
Definition slow_at_1000 : Env :=
calm (nth_answer [report "10"; report "11"; report "9";
                  report "200"; report "205"; report "198"]
        (report "1")).

(** Every launch of the driver exits with status 1. *)
Definition always_failing : Env := calm (fun _ => inr (1, "", "boom")).

(** The first repetition times out, the second exits nonzero, the third
    succeeds; later launches succeed. *)
Definition flaky : Env :=
calm (nth_answer [inl TimeoutExpired; inr (2, "", "error"); report "7.5"]
        (report "8")).

(** The first worker is found dead at its liveness probe. *)
Definition dead_first_worker : Env :=
{| on_chdir := None; jar_exists := true;
   on_pkill := fun _ => None; on_sleep := fun _ => None;
   on_popen := fun _ => None; on_poll := fun _ => false;
   on_communicate := fun _ => ("", "Address already in use");
   on_run := fun _ => report "3";
   on_wait := fun _ => None; on_open := fun _ => None |}.

(** The launch of the first worker itself raises. *)
Definition no_java : Env :=
{| on_chdir := None; jar_exists := true;
   on_pkill := fun _ => None; on_sleep := fun _ => None;
   on_popen := fun _ => Some (OSError "No such file or directory");
   on_poll := fun _ => true;
   on_communicate := fun _ => ("", "");
   on_run := fun _ => report "3";
   on_wait := fun _ => None; on_open := fun _ => None |}.

(** The driver reports a negative time. *)
Definition negative_time : Env := calm (fun _ => report "-1.5").

(** Every run takes 200 seconds. *)
Definition always_slow : Env := calm (fun _ => report "200").

(** Every run takes 12.5 seconds. *)
Definition steady : Env := calm (fun _ => report "12.5").

(** The driver reports [inf] as its time, which [float] accepts. *)
Definition non_finite : Env := calm (fun _ => report "inf").

(** The driver exits with status 0 and prints no time. *)
Definition silent : Env := calm (fun _ => inr (0, "done", "")).

End Scenario.

(* ================================================================= *)
(** ** Reasoning about computations *)

Section Preservation.

Context {PF : PyFloat}.
Variable env : Env.

(** [R] relates the state before [m] to the state after it, whatever
    the outcome of [m]. *)
Definition preserves {A : Type} (R : State -> State -> Prop) (m : M A) : Prop :=
  forall s, R s (snd (m s)).

Record preorder (R : State -> State -> Prop) : Prop := {
  pre_refl : forall s, R s s;
  pre_trans : forall s1 s2 s3, R s1 s2 -> R s2 s3 -> R s1 s3
}.

Variable R : State -> State -> Prop.

Lemma preserves_ret (HR : preorder R) (A : Type) (a : A) :
  preserves R (ret a).
Proof. intros s. apply (pre_refl HR). Qed.

Lemma preserves_raise (HR : preorder R) (A : Type) (e : exn) :
  preserves R (raise (A := A) e).
Proof. intros s. apply (pre_refl HR). Qed.

Lemma preserves_out_of_fuel (HR : preorder R) (A : Type) :
  preserves R (out_of_fuel (A := A)).
Proof. intros s. apply (pre_refl HR). Qed.

Lemma preserves_answer (HR : preorder R) (a : option exn) :
  preserves R (answer a).
Proof. destruct a; intros s; apply (pre_refl HR). Qed.

Lemma preserves_bind (HR : preorder R) (A B : Type) (m : M A) (f : A -> M B) :
  preserves R m -> (forall a, preserves R (f a)) -> preserves R (bind m f).
Proof.
  intros Hm Hf s. unfold bind. specialize (Hm s).
  destruct (m s) as [[a | e |] s1]; simpl in *; auto.
  eapply (pre_trans HR); [exact Hm | apply Hf].
Qed.

Lemma preserves_try_except (HR : preorder R) (A : Type) (m : M A)
  (handler : exn -> option (M A)) :
  preserves R m ->
  (forall e h, handler e = Some h -> preserves R h) ->
  preserves R (try_except m handler).
Proof.
  intros Hm Hh s. unfold try_except. specialize (Hm s).
  destruct (m s) as [[a | e |] s1]; simpl in *; auto.
  destruct (handler e) as [h |] eqn:E; simpl; auto.
  eapply (pre_trans HR); [exact Hm | eapply Hh; eauto].
Qed.

Lemma preserves_try_finally (HR : preorder R) (A : Type) (m : M A)
  (fin : M unit) :
  preserves R m -> preserves R fin -> preserves R (try_finally m fin).
Proof.
  intros Hm Hf s. unfold try_finally. specialize (Hm s).
  destruct (m s) as [[a | e |] s1]; simpl in *; auto;
    specialize (Hf s1); destruct (fin s1) as [[[] | e' |] s2]; simpl in *;
    eapply (pre_trans HR); eauto.
Qed.

Lemma preserves_guarded (HR : preorder R) (A : Type) (c : State -> bool)
  (m : M A) (a : A) :
  preserves R m ->
  preserves R (fun s => if c s then m s else (Ret a, s)).
Proof.
  intros Hm s. destruct (c s); [apply Hm | apply (pre_refl HR)].
Qed.

Lemma preserves_for_each (HR : preorder R) (A : Type) (l : list A)
  (body : A -> M unit) :
  (forall x, preserves R (body x)) -> preserves R (for_each l body).
Proof.
  intros Hb. induction l as [| x l IH]; cbn [for_each].
  - apply preserves_ret; auto.
  - apply preserves_bind; auto.
Qed.

End Preservation.

Ltac preserves_step :=
  first
    [ apply preserves_ret; solve [auto]
    | apply preserves_raise; solve [auto]
    | apply preserves_out_of_fuel; solve [auto]
    | apply preserves_answer; solve [auto]
    | solve [auto]
    | apply preserves_bind; [solve [auto] | | intros ]
    | apply preserves_guarded; [solve [auto] | ]
    | match goal with
      | |- preserves _ (if ?b then _ else _) => destruct b
      | |- preserves _ (match ?x with _ => _ end) => destruct x
      | |- preserves _ (let '(_, _) := ?x in _) => destruct x
      end ].

(* ================================================================= *)
(** ** What a trace shows *)

Section Traces.

Context {PF : PyFloat}.
Variable env : Env.

(** The sweep points announced on the console, as (particles, cycles). *)
Fixpoint visited (l : list event) : list (Z * Z) :=
  match l with
  | [] => []
  | EvPrint (MsgTesting p c) :: l' => (p, c) :: visited l'
  | _ :: l' => visited l'
  end.

(** The numbers of the repetitions reported as failed. *)
Fixpoint failed_runs (l : list event) : list Z :=
  match l with
  | [] => []
  | EvPrint (MsgFailedRun n) :: l' => n :: failed_runs l'
  | _ :: l' => failed_runs l'
  end.

(** The command lines of the driver launches. *)
Fixpoint launches (l : list event) : list (list string) :=
  match l with
  | [] => []
  | EvRun cmd _ :: l' => cmd :: launches l'
  | _ :: l' => launches l'
  end.

(** The events one call of [run_simulation] may produce: no sweep-level
    console line, and no driver launch but the one of [cmd]. *)
Definition trial_event (cmd : list string) (e : event) : Prop :=
  match e with
  | EvPrint (MsgTesting _ _) => False
  | EvPrint (MsgFailedRun _) => False
  | EvPrint (MsgAvg _ _) => False
  | EvPrint (MsgStopping _ _) => False
  | EvPrint MsgAllFailedStopping => False
  | EvPrint MsgAllFailed => False
  | EvRun c _ => c = cmd
  | _ => True
  end.

(** A step that leaves the results and the files alone and adds only
    events satisfying [ok] to the trace. *)
Definition adds (ok : event -> Prop) (s s' : State) : Prop :=
  results s' = results s /\ files s' = files s /\
  exists l, trace s' = trace s ++ l /\ Forall ok l.

Lemma adds_refl ok s : adds ok s s.
Proof.
  repeat split. exists []. split; [symmetry; apply app_nil_r | constructor].
Qed.

Lemma adds_same ok s s' :
  results s' = results s -> files s' = files s -> trace s' = trace s ->
  adds ok s s'.
Proof.
  intros Hr Hf Ht. repeat split; auto.
  exists []. split; [rewrite Ht; symmetry; apply app_nil_r | constructor].
Qed.

Lemma adds_trans ok s1 s2 s3 : adds ok s1 s2 -> adds ok s2 s3 -> adds ok s1 s3.
Proof.
  intros (Hr1 & Hf1 & l1 & Ht1 & Hl1) (Hr2 & Hf2 & l2 & Ht2 & Hl2).
  repeat split; try congruence.
  exists (l1 ++ l2). split.
  - rewrite Ht2, Ht1. symmetry. apply app_assoc.
  - apply Forall_app. split; assumption.
Qed.

Lemma adds_weaken (ok ok' : event -> Prop) s s' :
  (forall e, ok e -> ok' e) -> adds ok s s' -> adds ok' s s'.
Proof.
  intros H (Hr & Hf & l & Ht & Hl). repeat split; auto.
  exists l. split; auto. eapply Forall_impl; eauto.
Qed.

Lemma visited_app l1 l2 : visited (l1 ++ l2) = visited l1 ++ visited l2.
Proof.
  induction l1 as [| e l1 IH]; simpl; auto.
  destruct e as [| | | | | | m]; auto. destruct m; simpl; auto.
  rewrite IH. reflexivity.
Qed.

Lemma failed_runs_app l1 l2 :
  failed_runs (l1 ++ l2) = failed_runs l1 ++ failed_runs l2.
Proof.
  induction l1 as [| e l1 IH]; simpl; auto.
  destruct e as [| | | | | | m]; auto. destruct m; simpl; auto.
  rewrite IH. reflexivity.
Qed.

Lemma launches_app l1 l2 : launches (l1 ++ l2) = launches l1 ++ launches l2.
Proof.
  induction l1 as [| e l1 IH]; simpl; auto.
  destruct e; simpl; auto. rewrite IH. reflexivity.
Qed.

Lemma trial_events_visited cmd l : Forall (trial_event cmd) l -> visited l = [].
Proof.
  induction 1 as [| e l He _ IH]; simpl; auto.
  destruct e as [| | | | | | m]; auto. destruct m; simpl in *; tauto.
Qed.

Lemma trial_events_failed_runs cmd l :
  Forall (trial_event cmd) l -> failed_runs l = [].
Proof.
  induction 1 as [| e l He _ IH]; simpl; auto.
  destruct e as [| | | | | | m]; auto. destruct m; simpl in *; tauto.
Qed.

Lemma trial_events_launches cmd l :
  Forall (trial_event cmd) l -> Forall (eq cmd) (launches l).
Proof.
  induction 1 as [| e l He _ IH]; simpl; auto.
  destruct e; simpl in *; auto.
Qed.

(** *** The primitive steps *)

Variable ok : event -> Prop.

Let R := adds ok.

Lemma adds_preorder : preorder R.
Proof. split; [apply adds_refl | apply adds_trans]. Qed.

Hint Resolve adds_preorder : core.

Lemma adds_next_call : preserves R next_call.
Proof. intros s. apply adds_same; reflexivity. Qed.

Lemma adds_emit e : ok e -> preserves R (emit e).
Proof.
  intros He s. repeat split. exists [e]. split; [reflexivity | auto].
Qed.

Lemma adds_set_exited h : preserves R (set_exited h).
Proof. intros s. apply adds_same; reflexivity. Qed.

Lemma adds_put_worker_processes w : preserves R (put_worker_processes w).
Proof. intros s. apply adds_same; reflexivity. Qed.

Lemma adds_append_worker h : preserves R (append_worker h).
Proof. intros s. apply adds_same; reflexivity. Qed.

Lemma adds_get_worker_processes : preserves R get_worker_processes.
Proof. intros s. apply adds_same; reflexivity. Qed.

Hint Resolve adds_next_call adds_emit adds_set_exited
  adds_put_worker_processes adds_append_worker adds_get_worker_processes
  : core.

Lemma adds_time_sleep q : preserves R (time_sleep env q).
Proof. unfold time_sleep. repeat preserves_step. Qed.

Lemma adds_pkill_workers : ok EvPkill -> preserves R (pkill_workers env).
Proof. intros. unfold pkill_workers. repeat preserves_step. Qed.

Lemma adds_Popen cmd :
  (forall h, ok (EvPopen h cmd)) -> preserves R (Popen env cmd).
Proof.
  intros H. unfold Popen. repeat preserves_step.
  intros s. repeat split. eexists [_]. split; [reflexivity | auto].
Qed.

Lemma adds_poll_exited h : preserves R (poll_exited env h).
Proof.
  unfold poll_exited.
  intros s. destruct (running h s); [| apply adds_refl].
  revert s. change (preserves R
    (bind next_call (fun t => if on_poll env t then ret false
                              else bind (set_exited h) (fun _ => ret true)))).
  repeat preserves_step.
Qed.

Lemma adds_communicate h : preserves R (communicate env h).
Proof. unfold communicate. repeat preserves_step. Qed.

Lemma adds_terminate h : ok (EvTerminate h) -> preserves R (terminate h).
Proof. intros. unfold terminate. auto. Qed.

Lemma adds_wait h t : ok (EvWait h t) -> preserves R (wait env h t).
Proof.
  intros. unfold wait. apply preserves_bind; auto. intros _.
  intros s. destruct (running h s); [| apply adds_refl].
  revert s. change (preserves R
    (bind next_call (fun t => bind (answer (on_wait env t))
                                (fun _ => set_exited h)))).
  repeat preserves_step.
Qed.

Lemma adds_kill h : ok (EvKill h) -> preserves R (kill h).
Proof. intros. unfold kill. repeat preserves_step. Qed.

Lemma adds_subprocess_run cmd t :
  ok (EvRun cmd t) -> preserves R (subprocess_run env cmd t).
Proof. intros. unfold subprocess_run. repeat preserves_step. Qed.

Lemma adds_print m : ok (EvPrint m) -> preserves R (print m).
Proof. intros. unfold print. auto. Qed.

End Traces.

#[local] Hint Resolve adds_preorder adds_next_call adds_emit adds_set_exited
  adds_put_worker_processes adds_append_worker adds_get_worker_processes
  adds_time_sleep adds_pkill_workers adds_Popen adds_poll_exited
  adds_communicate adds_terminate adds_wait adds_kill adds_subprocess_run
  adds_print : core.

#[local] Hint Extern 1 (trial_event _ _) =>
  first [exact I | reflexivity] : core.

(* ================================================================= *)
(** ** One trial *)

Section Trial.

Context {PF : PyFloat}.
Variable env : Env.

Variable cmd : list string.

Lemma start_worker_loop_adds indices :
  preserves (adds (trial_event cmd)) (start_worker_loop env indices).
Proof.
  induction indices as [| i rest IH]; cbn [start_worker_loop];
    repeat preserves_step.
Qed.

Lemma start_worker_adds :
  preserves (adds (trial_event cmd)) (start_worker env).
Proof.
  unfold start_worker.
  do 4 (apply preserves_bind; auto; intros _).
  apply start_worker_loop_adds.
Qed.

Lemma stop_worker_loop_adds ws :
  preserves (adds (trial_event cmd)) (stop_worker_loop env ws).
Proof.
  induction ws as [| w rest IH]; cbn [stop_worker_loop].
  - repeat preserves_step.
  - apply preserves_bind; auto.
    intros _. apply preserves_bind; auto.
    apply preserves_try_except; auto.
    intros e h. destruct (is_TimeoutExpired e); intros [= <-]. auto.
Qed.

Hint Resolve start_worker_loop_adds stop_worker_loop_adds : core.

Lemma stop_worker_adds :
  preserves (adds (trial_event cmd)) (stop_worker env).
Proof.
  unfold stop_worker. apply preserves_bind; auto. intros w.
  apply preserves_bind; auto.
  destruct w as [[| h ws] |]; repeat preserves_step.
Qed.

Lemma print_stdout_adds md out :
  preserves (adds (trial_event cmd)) (print_stdout_if_distributed md out).
Proof.
  unfold print_stdout_if_distributed. repeat preserves_step.
Qed.

End Trial.

#[local] Hint Resolve start_worker_adds stop_worker_adds print_stdout_adds
  : core.

Section TrialRun.

Context {PF : PyFloat}.
Variable env : Env.

Lemma run_driver_adds md p c :
  preserves (adds (trial_event (driver_cmd md p c))) (run_driver env md p c).
Proof.
  unfold run_driver. apply preserves_try_except; auto.
  - apply preserves_bind; auto.
    intros [[rc out] err].
    destruct (negb (rc =? 0)).
    + repeat preserves_step.
    + destruct (extract_elapsed _) as [e | [t |]]; repeat preserves_step.
  - intros e h. destruct (is_TimeoutExpired e).
    + intros [= <-]. repeat preserves_step.
    + destruct (is_Exception e); intros [= <-].
      repeat preserves_step.
Qed.

Lemma run_simulation_adds md p c :
  preserves (adds (trial_event (driver_cmd md p c)))
    (run_simulation env md p c).
Proof.
  unfold run_simulation. destruct (is_distributed md).
  - apply preserves_bind; auto. intros w.
    destruct (no_workers w).
    + apply preserves_bind; auto.
      intros [|]; [apply run_driver_adds |].
      repeat preserves_step.
    + apply run_driver_adds.
  - apply run_driver_adds.
Qed.

End TrialRun.

#[local] Hint Resolve run_driver_adds run_simulation_adds : core.

(* ================================================================= *)
(** ** Computations that do not depend on fuel *)

Section Totality.

Context {PF : PyFloat}.
Variable env : Env.

(** [m] never runs out of fuel: it returns or raises. *)
Definition total {A : Type} (m : M A) : Prop :=
  forall s, fst (m s) <> OutOfFuel.

Lemma total_ret (A : Type) (a : A) : total (ret a).
Proof. intros s. discriminate. Qed.

Lemma total_raise (A : Type) (e : exn) : total (raise (A := A) e).
Proof. intros s. discriminate. Qed.

Lemma total_answer (a : option exn) : total (answer a).
Proof. destruct a; intros s; discriminate. Qed.

Lemma total_bind (A B : Type) (m : M A) (f : A -> M B) :
  total m -> (forall a, total (f a)) -> total (bind m f).
Proof.
  intros Hm Hf s. unfold bind. specialize (Hm s).
  destruct (m s) as [[a | e |] s1]; simpl in *; auto.
  - apply Hf.
  - discriminate.
Qed.

Lemma total_try_except (A : Type) (m : M A) (handler : exn -> option (M A)) :
  total m ->
  (forall e h, handler e = Some h -> total h) ->
  total (try_except m handler).
Proof.
  intros Hm Hh s. unfold try_except. specialize (Hm s).
  destruct (m s) as [[a | e |] s1]; simpl in *; auto.
  destruct (handler e) as [h |] eqn:E; simpl.
  - eapply Hh; eauto.
  - discriminate.
Qed.

Lemma total_try_finally (A : Type) (m : M A) (fin : M unit) :
  total m -> total fin -> total (try_finally m fin).
Proof.
  intros Hm Hf s. unfold try_finally. specialize (Hm s).
  destruct (m s) as [[a | e |] s1]; simpl in *; try congruence;
    specialize (Hf s1); destruct (fin s1) as [[[] | e' |] s2]; simpl in *;
    congruence.
Qed.

Lemma total_guarded (A : Type) (c : State -> bool) (m : M A) (a : A) :
  total m -> total (fun s => if c s then m s else (Ret a, s)).
Proof.
  intros Hm s. destruct (c s); [apply Hm | discriminate].
Qed.

Lemma total_for_each (A : Type) (l : list A) (body : A -> M unit) :
  (forall x, total (body x)) -> total (for_each l body).
Proof.
  intros Hb. induction l as [| x l IH]; cbn [for_each].
  - apply total_ret.
  - apply total_bind; auto.
Qed.

Lemma total_state (A : Type) (f : State -> A * State) :
  total (fun s => (Ret (fst (f s)), snd (f s))).
Proof. intros s. discriminate. Qed.

Lemma total_next_call : total next_call.
Proof. intros s. discriminate. Qed.

Lemma total_emit e : total (emit e).
Proof. intros s. discriminate. Qed.

Lemma total_print m : total (print m).
Proof. intros s. discriminate. Qed.

Lemma total_set_exited h : total (set_exited h).
Proof. intros s. discriminate. Qed.

Lemma total_put_worker_processes w : total (put_worker_processes w).
Proof. intros s. discriminate. Qed.

Lemma total_append_worker h : total (append_worker h).
Proof. intros s. discriminate. Qed.

Lemma total_append_result r : total (append_result r).
Proof. intros s. discriminate. Qed.

Lemma total_get_worker_processes : total get_worker_processes.
Proof. intros s. discriminate. Qed.

Hint Resolve total_ret total_raise total_answer total_next_call total_emit
  total_print total_set_exited total_put_worker_processes
  total_append_worker total_append_result total_get_worker_processes : core.

Ltac total_step :=
  first
    [ solve [auto]
    | apply total_bind; [| intros ]
    | apply total_guarded
    | match goal with
      | |- total (if ?b then _ else _) => destruct b
      | |- total (match ?x with _ => _ end) => destruct x
      end ].

Lemma total_time_sleep q : total (time_sleep env q).
Proof. unfold time_sleep. repeat total_step. Qed.

Lemma total_pkill_workers : total (pkill_workers env).
Proof. unfold pkill_workers. repeat total_step. Qed.

Lemma total_Popen cmd : total (Popen env cmd).
Proof.
  unfold Popen. repeat total_step. intros s. discriminate.
Qed.

Lemma total_poll_exited h : total (poll_exited env h).
Proof.
  unfold poll_exited. intros s. destruct (running h s); [| discriminate].
  revert s. change (total
    (bind next_call (fun t => if on_poll env t then ret false
                              else bind (set_exited h) (fun _ => ret true)))).
  repeat total_step.
Qed.

Lemma total_communicate h : total (communicate env h).
Proof. unfold communicate. repeat total_step. Qed.

Lemma total_terminate h : total (terminate h).
Proof. unfold terminate. auto. Qed.

Lemma total_wait h t : total (wait env h t).
Proof.
  unfold wait. apply total_bind; auto. intros _.
  intros s. destruct (running h s); [| discriminate].
  revert s. change (total
    (bind next_call (fun t => bind (answer (on_wait env t))
                                (fun _ => set_exited h)))).
  repeat total_step.
Qed.

Lemma total_kill h : total (kill h).
Proof. unfold kill. repeat total_step. Qed.

Lemma total_subprocess_run cmd t : total (subprocess_run env cmd t).
Proof. unfold subprocess_run. repeat total_step. Qed.

Hint Resolve total_time_sleep total_pkill_workers total_Popen
  total_poll_exited total_communicate total_terminate total_wait total_kill
  total_subprocess_run : core.

Lemma total_start_worker_loop indices : total (start_worker_loop env indices).
Proof.
  induction indices as [| i rest IH]; cbn [start_worker_loop];
    repeat total_step.
Qed.

Lemma total_start_worker : total (start_worker env).
Proof.
  unfold start_worker.
  do 4 (apply total_bind; auto; intros _).
  apply total_start_worker_loop.
Qed.

Lemma total_stop_worker_loop ws : total (stop_worker_loop env ws).
Proof.
  induction ws as [| w rest IH]; cbn [stop_worker_loop]; auto.
  apply total_bind; auto.
  intros _. apply total_bind; auto.
  apply total_try_except; auto.
  intros e h. destruct (is_TimeoutExpired e); intros [= <-]. auto.
Qed.

Hint Resolve total_start_worker total_stop_worker_loop : core.

Lemma total_stop_worker : total (stop_worker env).
Proof.
  unfold stop_worker. apply total_bind; auto. intros w.
  apply total_bind; auto.
  destruct w as [[| h ws] |]; repeat total_step.
Qed.

Lemma total_print_stdout md out : total (print_stdout_if_distributed md out).
Proof. unfold print_stdout_if_distributed. repeat total_step. Qed.

Hint Resolve total_stop_worker total_print_stdout : core.

Lemma total_run_driver md p c : total (run_driver env md p c).
Proof.
  unfold run_driver. apply total_try_except.
  - apply total_bind; auto.
    intros [[rc out] err].
    destruct (negb (rc =? 0)).
    + repeat total_step.
    + destruct (extract_elapsed _) as [e | [t |]]; repeat total_step.
  - intros e h. destruct (is_TimeoutExpired e).
    + intros [= <-]. repeat total_step.
    + destruct (is_Exception e); intros [= <-].
      repeat total_step.
Qed.

Hint Resolve total_run_driver : core.

Lemma total_run_simulation md p c : total (run_simulation env md p c).
Proof.
  unfold run_simulation. destruct (is_distributed md); auto.
  apply total_bind; auto. intros w.
  destruct (no_workers w); auto.
  apply total_bind; auto.
  intros [|]; auto. repeat total_step.
Qed.

Hint Resolve total_run_simulation : core.

Lemma total_run_repetitions md p c rs :
  forall times, total (run_repetitions env md p c rs times).
Proof.
  induction rs as [| run rest IH]; intros times; cbn [run_repetitions]; auto.
  apply total_bind; auto.
  intros [t |]; auto. apply total_bind; auto.
Qed.

End Totality.

(* ================================================================= *)
(** ** The repetitions at one sweep point *)

(** [subseq l1 l2]: [l1] is [l2] with some elements left out. *)
Inductive subseq {A : Type} : list A -> list A -> Prop :=
| subseq_nil : subseq [] []
| subseq_skip x l1 l2 : subseq l1 l2 -> subseq l1 (x :: l2)
| subseq_keep x l1 l2 : subseq l1 l2 -> subseq (x :: l1) (x :: l2).

Lemma subseq_nil_l (A : Type) (l : list A) : subseq [] l.
Proof. induction l; constructor; auto. Qed.

Lemma subseq_In (A : Type) (l1 l2 : list A) x :
  subseq l1 l2 -> In x l1 -> In x l2.
Proof.
  induction 1; simpl; auto.
  intros [-> | H1]; auto.
Qed.

Lemma subseq_sorted (l1 l2 : list Z) :
  subseq l1 l2 -> StronglySorted Z.lt l2 -> StronglySorted Z.lt l1.
Proof.
  induction 1 as [| x l1 l2 H IH | x l1 l2 H IH]; intros Hs; auto.
  - inversion Hs; subst. auto.
  - inversion Hs as [| ? ? Hs' Hall]; subst. constructor; auto.
    rewrite Forall_forall in *. intros y Hy. apply Hall.
    eapply subseq_In; eauto.
Qed.

Section Repetitions.

Context {PF : PyFloat}.
Variable env : Env.

(** What the repetition loop leaves behind: results and files are
    untouched; the new events [l] announce no sweep point, launch the
    driver for this point only, and report failed repetitions under
    their own numbers, in order; when the loop completes, every
    repetition is either a new time or a reported failure. *)
Definition repetitions_post (md : string) (p c : Z) (rs : list Z)
  (times : list float) (s : State) (r : outcome (list float) * State) : Prop :=
  results (snd r) = results s /\ files (snd r) = files s /\
  exists l,
    trace (snd r) = trace s ++ l /\
    visited l = [] /\
    Forall (eq (driver_cmd md p c)) (launches l) /\
    subseq (failed_runs l) (map (fun run => run + 1) rs) /\
    forall ts, fst r = Ret ts ->
      exists new, ts = times ++ new /\
        (List.length new + List.length (failed_runs l) = List.length rs)%nat.

Lemma run_repetitions_post md p c rs :
  forall times s,
    repetitions_post md p c rs times s
      (run_repetitions env md p c rs times s).
Proof.
  induction rs as [| run rest IH]; intros times s; cbn [run_repetitions].
  - unfold repetitions_post, ret; simpl. repeat split.
    exists []. repeat split; auto using app_nil_r, subseq_nil.
    intros ts [= <-]. exists []. split; auto using app_nil_r.
  - unfold bind at 1.
    pose proof (run_simulation_adds env md p c s) as (Hr & Hf & l1 & Ht & Hl).
    destruct (run_simulation env md p c s) as [[[t |] | e |] s1];
      simpl in Hr, Hf, Ht.
    + destruct (IH (times ++ [t]) s1) as (Hr2 & Hf2 & l2 & Ht2 & Hv & Hc & Hs & Hn).
      unfold repetitions_post. repeat split; try congruence.
      exists (l1 ++ l2). repeat split.
      * rewrite Ht2, Ht. symmetry. apply app_assoc.
      * rewrite visited_app, Hv, (trial_events_visited Hl). reflexivity.
      * rewrite launches_app. apply Forall_app. split; auto.
        eapply trial_events_launches; eauto.
      * rewrite failed_runs_app, (trial_events_failed_runs Hl). simpl.
        apply subseq_skip. exact Hs.
      * intros ts Hts. destruct (Hn ts Hts) as (new & -> & Hlen).
        exists (t :: new). split.
        -- rewrite <- app_assoc. reflexivity.
        -- rewrite failed_runs_app, (trial_events_failed_runs Hl).
           simpl in *. lia.
    + unfold bind, print, emit. cbn [fst snd].
      match goal with
      | |- repetitions_post _ _ _ _ _ _ (run_repetitions _ _ _ _ _ _ ?s2) =>
          destruct (IH times s2) as (Hr2 & Hf2 & l2 & Ht2 & Hv & Hc & Hs & Hn)
      end.
      simpl in Hr2, Hf2, Ht2.
      unfold repetitions_post. repeat split; try congruence.
      exists (l1 ++ EvPrint (MsgFailedRun (run + 1)) :: l2). repeat split.
      * rewrite Ht2, Ht. rewrite <- !app_assoc. reflexivity.
      * rewrite visited_app, (trial_events_visited Hl). simpl. exact Hv.
      * rewrite launches_app. apply Forall_app. split; auto.
        eapply trial_events_launches; eauto.
      * rewrite failed_runs_app, (trial_events_failed_runs Hl). simpl.
        apply subseq_keep. exact Hs.
      * intros ts Hts. destruct (Hn ts Hts) as (new & -> & Hlen).
        exists new. split; auto.
        rewrite failed_runs_app, (trial_events_failed_runs Hl).
        simpl in *. lia.
    + unfold repetitions_post. simpl. repeat split; auto.
      exists l1. repeat split; auto.
      * eapply trial_events_visited; eauto.
      * eapply trial_events_launches; eauto.
      * rewrite (trial_events_failed_runs Hl). apply subseq_nil_l.
      * intros ts [=].
    + unfold repetitions_post. simpl. repeat split; auto.
      exists l1. repeat split; auto.
      * eapply trial_events_visited; eauto.
      * eapply trial_events_launches; eauto.
      * rewrite (trial_events_failed_runs Hl). apply subseq_nil_l.
      * intros ts [=].
Qed.

End Repetitions.

(* ================================================================= *)
(** ** One sweep *)

Section Sweep.

Context {PF : PyFloat}.
Variable env : Env.
Variable cfg : config.
Variable md : string.

(** The swept coordinate of a (particles, cycles) pair. *)
Definition control (pc : Z * Z) : Z :=
  match swept cfg with
  | Cycles => snd pc
  | Particles => fst pc
  end.

Definition swept_value (r : result) : Z := control (particles r, cycles r).

(** [avg_time > max_runtime] for the average stored in a result. *)
Definition over_budget (r : result) : bool :=
  float_gt_int (average_time r) (max_runtime_seconds cfg).

(** The first half of a loop iteration: the announcement of the point
    and its repetitions. *)
Definition measure (v : Z) : M (list float) :=
  bind (print (MsgTesting (fst (point cfg v)) (snd (point cfg v))))
    (fun _ => run_repetitions env md (fst (point cfg v)) (snd (point cfg v))
                (range (runs_per_config cfg)) []).

(** The dict of the point [v], once mean and deviation are computed. *)
Definition point_summary (v : Z) (times : list float) (sd : num) : result :=
  summary (test_name cfg) md (fst (point cfg v)) (snd (point cfg v)) times
    (statistics_mean times) sd.

(** The state after the average was printed and the result appended. *)
Definition recorded (r : result) (s : State) : State :=
  set_results (results s ++ [r])
    (set_trace (trace s ++ [EvPrint (MsgAvg (average_time r) (std_dev r))]) s).

Definition said (m : message) (s : State) : State :=
  set_trace (trace s ++ [EvPrint m]) s.

Lemma sweep_loop_step fuel v s :
  v <= max_value cfg ->
  sweep_loop env (S fuel) cfg md v s =
  match measure v s with
  | (Ret times, s1) =>
      if 0 <? len times then
        match std_dev_of times with
        | inl e => (Raise e, s1)
        | inr sd =>
            let r := point_summary v times sd in
            if over_budget r
            then (Ret tt,
                  said (MsgStopping md (max_runtime_seconds cfg))
                    (recorded r s1))
            else sweep_loop env fuel cfg md (v + increment cfg)
                   (recorded r s1)
        end
      else (Ret tt, said MsgAllFailedStopping s1)
  | (Raise e, s1) => (Raise e, s1)
  | (OutOfFuel, s1) => (OutOfFuel, s1)
  end.
Proof.
  intros Hv. cbn [sweep_loop].
  apply Z.leb_le in Hv. rewrite Hv.
  unfold measure, point_summary, over_budget, point.
  destruct (swept cfg); cbn [fst snd]; unfold bind, print, emit;
    match goal with
    | |- context [run_repetitions ?e ?m ?p ?c ?r ?t ?s0] =>
        destruct (run_repetitions e m p c r t s0) as [[times | e' |] s1]
    end; try reflexivity;
    destruct (0 <? len times); try reflexivity;
    cbv zeta; destruct (std_dev_of times) as [e' | sd]; try reflexivity;
    cbn [average_time summary];
    destruct (float_gt_int _ _); reflexivity.
Qed.

Lemma sweep_loop_past fuel v s :
  max_value cfg < v -> sweep_loop env fuel cfg md v s = (Ret tt, s).
Proof.
  intros Hv. apply Z.leb_gt in Hv.
  destruct fuel; cbn [sweep_loop]; rewrite Hv; reflexivity.
Qed.

Lemma sweep_loop_dry v s :
  v <= max_value cfg -> sweep_loop env 0 cfg md v s = (OutOfFuel, s).
Proof.
  intros Hv. apply Z.leb_le in Hv. cbn [sweep_loop]. rewrite Hv. reflexivity.
Qed.

Lemma range_length n : List.length (range n) = Z.to_nat n.
Proof. unfold range. rewrite length_map, length_seq. reflexivity. Qed.

Lemma total_measure v : total (measure v).
Proof.
  unfold measure. apply total_bind.
  - apply total_print.
  - intros _. apply total_run_repetitions.
Qed.

(** What [measure] leaves behind. *)
Definition measure_post (v : Z) (s : State)
  (r : outcome (list float) * State) : Prop :=
  results (snd r) = results s /\ files (snd r) = files s /\
  exists l,
    trace (snd r) = trace s ++ l /\
    visited l = [point cfg v] /\
    Forall (eq (driver_cmd md (fst (point cfg v)) (snd (point cfg v))))
      (launches l) /\
    subseq (failed_runs l)
      (map (fun run => run + 1) (range (runs_per_config cfg))) /\
    forall ts, fst r = Ret ts ->
      (List.length ts + List.length (failed_runs l)
       = Z.to_nat (runs_per_config cfg))%nat.

Lemma measure_spec v s : measure_post v s (measure v s).
Proof.
  unfold measure, bind, print, emit. cbn [fst snd].
  match goal with
  | |- measure_post _ _ (run_repetitions ?e ?m ?p ?c ?r ?t ?s0) =>
      pose proof (run_repetitions_post e m p c r t s0)
        as (Hr & Hf & l & Ht & Hv & Hc & Hs & Hn)
  end.
  simpl in Hr, Hf, Ht.
  unfold measure_post. repeat split; auto.
  exists (EvPrint (MsgTesting (fst (point cfg v)) (snd (point cfg v))) :: l).
  repeat split; auto.
  - rewrite Ht, <- app_assoc. reflexivity.
  - simpl. rewrite Hv. destruct (point cfg v); reflexivity.
  - intros ts Hts. destruct (Hn ts Hts) as (new & -> & Hlen).
    simpl in *. rewrite range_length in Hlen. exact Hlen.
Qed.

End Sweep.

(* ================================================================= *)
(** ** The repetitions at a point, trial by trial *)

Section Trials.

Context {PF : PyFloat}.
Variable env : Env.

(** The times among the values a sequence of trials returned. *)
Fixpoint successes (os : list (option float)) : list float :=
  match os with
  | [] => []
  | Some t :: os' => t :: successes os'
  | None :: os' => successes os'
  end.

(** The numbers under which the trials that returned [None] are
    reported, for the loop indices [rs]. *)
Fixpoint reported (rs : list Z) (os : list (option float)) : list Z :=
  match rs, os with
  | run :: rs', None :: os' => (run + 1) :: reported rs' os'
  | _ :: rs', Some _ :: os' => reported rs' os'
  | _, _ => []
  end.

(** [trials md p c rs s os s']: the trials with the loop indices [rs],
    run one after the other from the state [s], return the values [os]
    and leave the state [s'].  A trial that returns [None] is reported
    under its number and followed by the next trial. *)
Inductive trials (md : string) (p c : Z)
  : list Z -> State -> list (option float) -> State -> Prop :=
| trials_done s :
    trials md p c [] s [] s
| trials_time run rest s t s1 os s2 :
    run_simulation env md p c s = (Ret (Some t), s1) ->
    trials md p c rest s1 os s2 ->
    trials md p c (run :: rest) s (Some t :: os) s2
| trials_failed run rest s s1 os s2 :
    run_simulation env md p c s = (Ret None, s1) ->
    trials md p c rest (said (MsgFailedRun (run + 1)) s1) os s2 ->
    trials md p c (run :: rest) s (None :: os) s2.

Lemma trials_length md p c rs s os s' :
  trials md p c rs s os s' -> List.length os = List.length rs.
Proof. induction 1; simpl; congruence. Qed.

(** The repetition loop returns exactly the times of its trials. *)
Lemma run_repetitions_trials md p c rs :
  forall times s ts s',
    run_repetitions env md p c rs times s = (Ret ts, s') ->
    exists os, trials md p c rs s os s' /\ ts = times ++ successes os.
Proof.
  induction rs as [| run rest IH]; intros times s ts s';
    cbn [run_repetitions].
  - intros [= <- <-]. exists []. split; [constructor |].
    symmetry. apply app_nil_r.
  - unfold bind at 1.
    destruct (run_simulation env md p c s) as [[[t |] | e |] s1] eqn:E;
      try discriminate.
    + intros H. destruct (IH _ _ _ _ H) as (os & Hos & ->).
      exists (Some t :: os). split.
      * eapply trials_time; eauto.
      * simpl. rewrite <- app_assoc. reflexivity.
    + unfold bind, print, emit. cbn [fst snd]. intros H.
      destruct (IH _ _ _ _ H) as (os & Hos & ->).
      exists (None :: os). split; auto.
      eapply trials_failed; eauto.
Qed.

Lemma trials_run_repetitions md p c rs s os s' :
  trials md p c rs s os s' ->
  forall times,
    run_repetitions env md p c rs times s = (Ret (times ++ successes os), s').
Proof.
  induction 1 as [s | run rest s t s1 os s2 Hrun _ IH
                 | run rest s s1 os s2 Hrun _ IH];
    intros times; cbn [run_repetitions successes].
  - rewrite app_nil_r. reflexivity.
  - unfold bind at 1. rewrite Hrun. rewrite IH, <- app_assoc. reflexivity.
  - unfold bind at 1. rewrite Hrun. unfold bind, print, emit. cbn [fst snd].
    apply IH.
Qed.

(** What the trials write to the console about failures. *)
Lemma trials_reported md p c rs s os s' :
  trials md p c rs s os s' ->
  exists l, trace s' = trace s ++ l /\ failed_runs l = reported rs os.
Proof.
  induction 1 as [s | run rest s t s1 os s2 Hrun _ (l2 & Hl2 & Hf2)
                 | run rest s s1 os s2 Hrun _ (l2 & Hl2 & Hf2)].
  - exists []. split; [symmetry; apply app_nil_r | reflexivity].
  - pose proof (run_simulation_adds env md p c s) as (_ & _ & l1 & Hl1 & Ha).
    rewrite Hrun in Hl1. cbn [snd] in Hl1.
    exists (l1 ++ l2). split.
    + rewrite Hl2, Hl1. symmetry. apply app_assoc.
    + rewrite failed_runs_app, (trial_events_failed_runs Ha). exact Hf2.
  - pose proof (run_simulation_adds env md p c s) as (_ & _ & l1 & Hl1 & Ha).
    rewrite Hrun in Hl1. cbn [snd] in Hl1.
    exists (l1 ++ EvPrint (MsgFailedRun (run + 1)) :: l2). split.
    + rewrite Hl2. unfold said. cbn [trace set_trace].
      rewrite Hl1, <- !app_assoc. reflexivity.
    + rewrite failed_runs_app, (trial_events_failed_runs Ha). simpl.
      rewrite Hf2. reflexivity.
Qed.

(** The failed repetitions reported since the last announcement of a
    point. *)
Fixpoint last_failures (l : list event) (acc : list Z) : list Z :=
  match l with
  | [] => acc
  | EvPrint (MsgTesting _ _) :: l' => last_failures l' []
  | EvPrint (MsgFailedRun n) :: l' => last_failures l' (acc ++ [n])
  | _ :: l' => last_failures l' acc
  end.

Lemma last_failures_app l1 l2 :
  forall acc,
    last_failures (l1 ++ l2) acc = last_failures l2 (last_failures l1 acc).
Proof.
  induction l1 as [| e l1 IH]; intros acc; simpl; auto.
  destruct e as [| | | | | | m]; auto. destruct m; auto.
Qed.

Lemma last_failures_quiet l :
  forall acc, visited l = [] -> last_failures l acc = acc ++ failed_runs l.
Proof.
  induction l as [| e l IH]; intros acc Hv; simpl.
  - symmetry. apply app_nil_r.
  - destruct e as [| | | | | | m]; simpl in Hv; auto.
    destruct m; simpl in Hv; auto; try discriminate.
    rewrite IH by assumption. rewrite <- app_assoc. reflexivity.
Qed.

Lemma last_failures_reset l :
  forall acc acc', visited l <> [] ->
                   last_failures l acc = last_failures l acc'.
Proof.
  induction l as [| e l IH]; intros acc acc' Hv; simpl.
  - contradiction.
  - destruct e as [| | | | | | m]; simpl in Hv; auto.
    destruct m; simpl in Hv; auto.
Qed.

End Trials.

Section SweepRuns.

Context {PF : PyFloat}.
Variable env : Env.
Variable cfg : config.
Variable md : string.

(** The possible courses of the loop from the control value [v]: its
    outcome, the results it appends and the points it announces. *)
Inductive sweep_run : Z -> outcome unit -> list result -> list (Z * Z) -> Prop :=
| sweep_past v :
    max_value cfg < v ->
    sweep_run v (Ret tt) [] []
| sweep_dry v :
    v <= max_value cfg ->
    sweep_run v OutOfFuel [] []
| sweep_aborted v e :
    v <= max_value cfg ->
    sweep_run v (Raise e) [] [point cfg v]
| sweep_all_failed v :
    v <= max_value cfg ->
    sweep_run v (Ret tt) [] [point cfg v]
| sweep_budget v times sd :
    v <= max_value cfg ->
    times <> [] ->
    (List.length times <= Z.to_nat (runs_per_config cfg))%nat ->
    std_dev_of times = inr sd ->
    over_budget cfg (point_summary cfg md v times sd) = true ->
    sweep_run v (Ret tt) [point_summary cfg md v times sd] [point cfg v]
| sweep_next v times sd o rs vs :
    v <= max_value cfg ->
    times <> [] ->
    (List.length times <= Z.to_nat (runs_per_config cfg))%nat ->
    std_dev_of times = inr sd ->
    over_budget cfg (point_summary cfg md v times sd) = false ->
    sweep_run (v + increment cfg) o rs vs ->
    sweep_run v o (point_summary cfg md v times sd :: rs) (point cfg v :: vs).

(** Enough fuel for the bound of the sweep. *)
Lemma sweep_loop_enough fuel :
  0 < increment cfg ->
  forall v s,
    max_value cfg < v + Z.of_nat fuel * increment cfg ->
    fst (sweep_loop env fuel cfg md v s) <> OutOfFuel.
Proof.
  intros Hi. induction fuel as [| fuel IH]; intros v s Hfuel.
  - rewrite sweep_loop_past by lia. discriminate.
  - destruct (Z.le_gt_cases v (max_value cfg)) as [Hv | Hv].
    2:{ rewrite sweep_loop_past by assumption. discriminate. }
    rewrite sweep_loop_step by assumption.
    pose proof (total_measure env cfg md v s) as Hm.
    destruct (measure env cfg md v s) as [[times | e |] s1];
      cbn [fst] in *; try discriminate; try congruence.
    destruct (0 <? len times); [| discriminate].
    destruct (std_dev_of times) as [e | sd]; [discriminate |].
    cbv zeta. destruct (over_budget cfg _); [discriminate |].
    apply IH. lia.
Qed.

(** Every driver launch belongs to an announced point. *)
Definition launched_for (points : list (Z * Z)) (cmd : list string) : Prop :=
  exists pc, In pc points /\ cmd = driver_cmd md (fst pc) (snd pc).

Lemma launched_for_more points points' cmds :
  incl points points' ->
  Forall (launched_for points) cmds -> Forall (launched_for points') cmds.
Proof.
  intros Hi. apply Forall_impl. intros cmd (pc & Hin & ->).
  exists pc. split; auto.
Qed.

Lemma len_pos (A : Type) (l : list A) : (0 <? len l) = true <-> l <> [].
Proof.
  unfold len. destruct l; simpl; split; intros H; try congruence.
  - discriminate.
  - apply Z.ltb_lt. lia.
Qed.

Lemma len_zero (A : Type) (l : list A) : (0 <? len l) = false <-> l = [].
Proof.
  unfold len. destruct l; simpl; split; intros H; try congruence; auto.
  apply Z.ltb_ge in H. lia.
Qed.

(** What the loop leaves behind. *)
Definition sweep_post (v : Z) (s : State) (r : outcome unit * State) : Prop :=
  files (snd r) = files s /\
  exists rs l,
    results (snd r) = results s ++ rs /\
    trace (snd r) = trace s ++ l /\
    sweep_run v (fst r) rs (visited l) /\
    Forall (launched_for (visited l)) (launches l).

Lemma sweep_loop_spec fuel :
  forall v s, sweep_post v s (sweep_loop env fuel cfg md v s).
Proof.
  induction fuel as [| fuel IH]; intros v s.
  - destruct (Z.le_gt_cases v (max_value cfg)) as [Hv | Hv].
    + rewrite sweep_loop_dry by assumption. split; auto.
      exists [], []. simpl. rewrite !app_nil_r.
      repeat split; auto. constructor; auto.
    + rewrite sweep_loop_past by assumption. split; auto.
      exists [], []. simpl. rewrite !app_nil_r.
      repeat split; auto. constructor; auto.
  - destruct (Z.le_gt_cases v (max_value cfg)) as [Hv | Hv].
    2:{ rewrite sweep_loop_past by assumption. split; auto.
        exists [], []. simpl. rewrite !app_nil_r.
        repeat split; auto. constructor; auto. }
    rewrite sweep_loop_step by assumption.
    pose proof (measure_spec env cfg md v s)
      as (Hr & Hf & l & Ht & Hvis & Hc & Hs & Hn).
    pose proof (total_measure env cfg md v s) as Hfuel.
    assert (Hl : Forall (launched_for (visited l)) (launches l)).
    { rewrite Hvis. eapply Forall_impl; [| exact Hc].
      intros cmd <-. exists (point cfg v). simpl; auto. }
    destruct (measure env cfg md v s) as [[times | e |] s1];
      cbn [fst snd] in *.
    + destruct (0 <? len times) eqn:Hlen.
      * apply len_pos in Hlen.
        assert (Hk : (List.length times <= Z.to_nat (runs_per_config cfg))%nat).
        { specialize (Hn times eq_refl). lia. }
        destruct (std_dev_of times) as [e | sd] eqn:Hsd.
        { split; auto. exists [], l. cbn [fst snd]. rewrite app_nil_r.
          repeat split; auto. rewrite Hvis. apply sweep_aborted; auto. }
        cbv zeta.
        destruct (over_budget cfg (point_summary cfg md v times sd)) eqn:Hb.
        -- split; [simpl; congruence |].
           exists [point_summary cfg md v times sd].
           eexists (l ++ [_; _]). cbn [fst snd].
           repeat split.
           ++ simpl. rewrite Hr. reflexivity.
           ++ simpl. rewrite Ht, <- !app_assoc. reflexivity.
           ++ rewrite visited_app, Hvis. simpl.
              apply sweep_budget; auto.
           ++ rewrite launches_app, visited_app. simpl. rewrite !app_nil_r.
              exact Hl.
        -- destruct (IH (v + increment cfg)
                       (recorded (point_summary cfg md v times sd) s1))
             as (Hf2 & rs & l2 & Hr2 & Ht2 & Hrun & Hl2).
           split; [simpl in Hf2; congruence |].
           exists (point_summary cfg md v times sd :: rs).
           eexists (l ++ [_] ++ l2).
           repeat split.
           ++ rewrite Hr2. simpl. rewrite Hr, <- app_assoc. reflexivity.
           ++ rewrite Ht2. simpl. rewrite Ht, <- !app_assoc. reflexivity.
           ++ rewrite !visited_app, Hvis. simpl.
              apply sweep_next; auto.
           ++ rewrite !launches_app, !visited_app. simpl.
              apply Forall_app. split.
              ** eapply launched_for_more; [| exact Hl].
                 apply incl_appl, incl_refl.
              ** eapply launched_for_more; [| exact Hl2].
                 apply incl_appr, incl_refl.
      * split; [simpl; congruence |].
        exists []. eexists (l ++ [_]). cbn [fst snd].
        repeat split.
        -- simpl. rewrite Hr, app_nil_r. reflexivity.
        -- simpl. rewrite Ht, <- app_assoc. reflexivity.
        -- rewrite visited_app, Hvis. simpl. apply sweep_all_failed; auto.
        -- rewrite launches_app, visited_app. simpl. rewrite !app_nil_r.
           exact Hl.
    + split; auto. exists [], l. rewrite app_nil_r.
      repeat split; auto. rewrite Hvis. apply sweep_aborted; auto.
    + exfalso. exact (Hfuel eq_refl).
Qed.

End SweepRuns.

(* ================================================================= *)
(** ** Consequences of the shape of a sweep *)

Ltac splits := repeat match goal with |- _ /\ _ => split end.

Section SweepFacts.

Context {PF : PyFloat}.
Variable cfg : config.
Variable md : string.

Lemma control_point v : control cfg (point cfg v) = v.
Proof. unfold control, point. destruct (swept cfg); reflexivity. Qed.

Lemma swept_value_summary v times sd :
  swept_value cfg (point_summary cfg md v times sd) = v.
Proof.
  unfold swept_value, point_summary, summary. cbn [particles cycles].
  rewrite <- surjective_pairing. apply control_point.
Qed.

Lemma summary_point v times sd :
  (particles (point_summary cfg md v times sd),
   cycles (point_summary cfg md v times sd)) = point cfg v.
Proof.
  unfold point_summary, summary. cbn [particles cycles].
  symmetry. apply surjective_pairing.
Qed.

(** A value the loop started at [v] can reach. *)
Definition on_grid (v x : Z) : Prop :=
  v <= x <= max_value cfg /\ exists k, 0 <= k /\ x = v + k * increment cfg.

Lemma on_grid_shift v x :
  0 < increment cfg -> on_grid (v + increment cfg) x -> on_grid v x /\ v < x.
Proof.
  intros Hi ((Hlo & Hhi) & k & Hk & ->). repeat split; try lia.
  exists (k + 1). split; lia.
Qed.

Lemma sweep_run_grid v o rs vs :
  0 < increment cfg ->
  sweep_run cfg md v o rs vs ->
  (StronglySorted Z.lt (map (control cfg) vs)
   /\ Forall (on_grid v) (map (control cfg) vs))
  /\ (StronglySorted Z.lt (map (swept_value cfg) rs)
      /\ Forall (on_grid v) (map (swept_value cfg) rs)).
Proof.
  intros Hi H.
  assert (Hself : forall x, x <= max_value cfg -> on_grid x x).
  { intros x Hx. split; [lia |]. exists 0. split; lia. }
  induction H as [v Hv | v Hv | v e Hv | v Hv | v times sd Hv Ht Hk Hsd Hb
                 | v times sd o rs vs Hv Ht Hk Hsd Hb Hrun IH]; simpl;
    try rewrite control_point; try rewrite swept_value_summary.
  - splits; constructor.
  - splits; constructor.
  - splits; repeat (constructor; auto).
  - splits; repeat (constructor; auto).
  - splits; repeat (constructor; auto).
  - destruct IH as ((IHs & IHg) & (IHs' & IHg')).
    assert (Hlt : forall l, Forall (on_grid (v + increment cfg)) l ->
                            Forall (Z.lt v) l).
    { intros l. apply Forall_impl. intros x Hx.
      eapply on_grid_shift; eauto. }
    assert (Hup : forall l, Forall (on_grid (v + increment cfg)) l ->
                            Forall (on_grid v) l).
    { intros l. apply Forall_impl. intros x Hx.
      eapply on_grid_shift; eauto. }
    splits; constructor; auto.
Qed.

Lemma sorted_last_max (l : list Z) (a : Z) :
  StronglySorted Z.lt (l ++ [a]) -> Forall (fun x => x <= a) (l ++ [a]).
Proof.
  induction l as [| b l IH]; simpl; intros H.
  - repeat constructor. lia.
  - inversion H as [| ? ? Hs Hall]; subst. constructor; auto.
    rewrite Forall_forall in Hall.
    assert (b < a) by (apply Hall, in_or_app; simpl; auto). lia.
Qed.

(** A result over the budget closes the sweep: it is the last result,
    its point is the last one announced, and the loop returned. *)
Lemma sweep_run_budget v o rs vs :
  sweep_run cfg md v o rs vs ->
  forall pre x post,
    rs = pre ++ x :: post ->
    over_budget cfg x = true ->
    post = [] /\ o = Ret tt /\
    exists before, vs = before ++ [(particles x, cycles x)].
Proof.
  induction 1 as [v Hv | v Hv | v e Hv | v Hv | v times sd Hv Ht Hk Hsd Hb
                 | v times sd o rs vs Hv Ht Hk Hsd Hb Hrun IH];
    intros pre x post Hrs Hx;
    try (destruct pre; discriminate).
  - destruct pre as [| y pre]; simpl in Hrs.
    + injection Hrs as <- <-. repeat split; auto.
      exists []. rewrite summary_point. reflexivity.
    + destruct pre; discriminate.
  - destruct pre as [| y pre]; simpl in Hrs.
    + injection Hrs as <- <-. congruence.
    + injection Hrs as <- ->.
      destruct (IH pre x post eq_refl Hx) as (Hpost & Ho & before & Hvs).
      repeat split; auto.
      exists (point cfg v :: before). rewrite Hvs. reflexivity.
Qed.

(** Why a sweep that returned has stopped. *)
Definition stop_reason (v : Z) (rs : list result) (vs : list (Z * Z)) : Prop :=
  (List.length vs = List.length rs
   /\ max_value cfg < v + Z.of_nat (List.length vs) * increment cfg
   /\ Forall (fun r => over_budget cfg r = false) rs)
  \/ List.length vs = S (List.length rs)
  \/ (exists pre x, rs = pre ++ [x] /\ over_budget cfg x = true).

Lemma sweep_run_stop v o rs vs :
  sweep_run cfg md v o rs vs -> o = Ret tt -> stop_reason v rs vs.
Proof.
  induction 1 as [v Hv | v Hv | v e Hv | v Hv | v times sd Hv Ht Hk Hsd Hb
                 | v times sd o rs vs Hv Ht Hk Hsd Hb Hrun IH];
    intros Ho; try discriminate.
  - left. simpl. splits; auto. lia.
  - right; left. reflexivity.
  - right; right. exists [], (point_summary cfg md v times sd). auto.
  - destruct (IH Ho) as [(Hl & Hm & Hall) | [Hl | (pre & x & -> & Hx)]].
    + left. cbn [List.length]. splits; auto.
      rewrite Nat2Z.inj_succ. lia.
    + right; left. simpl. congruence.
    + right; right. exists (point_summary cfg md v times sd :: pre), x. auto.
Qed.

(** How a result appended by a sweep or by [run_test_series] is made. *)
Definition well_summarized (r : result) : Prop :=
  run_times r <> [] /\
  average_time r = statistics_mean (run_times r) /\
  match run_times r with
  | [_] => std_dev r = NInt 0
  | _ =>
      exists f,
        statistics_stdev (run_times r) = inr f /\ std_dev r = NFloat f
  end.

(** The two cases of [std_dev_of]. *)
Lemma std_dev_of_inr times sd :
  times <> [] ->
  std_dev_of times = inr sd ->
  match times with
  | [_] => sd = NInt 0
  | _ => exists f, statistics_stdev times = inr f /\ sd = NFloat f
  end.
Proof.
  intros Ht. unfold std_dev_of, len.
  destruct times as [| t [| t' times]]; try congruence.
  - simpl. congruence.
  - replace (1 <? Z.of_nat (List.length (t :: t' :: times))) with true.
    + destruct (statistics_stdev (t :: t' :: times)) as [e | f];
        [discriminate |].
      intros [= <-]. eauto.
    + symmetry. apply Z.ltb_lt. simpl List.length. lia.
Qed.

Lemma summary_well_summarized name m p c times sd :
  times <> [] ->
  std_dev_of times = inr sd ->
  well_summarized (summary name m p c times (statistics_mean times) sd).
Proof.
  intros Ht Hsd. unfold well_summarized, summary;
    cbn [run_times average_time std_dev].
  repeat split; auto. apply std_dev_of_inr; auto.
Qed.

Lemma sweep_run_summaries v o rs vs :
  sweep_run cfg md v o rs vs ->
  Forall (fun r => well_summarized r
                   /\ (List.length (run_times r)
                       <= Z.to_nat (runs_per_config cfg))%nat
                   /\ test_type r = test_name cfg /\ mode r = md) rs.
Proof.
  induction 1; try constructor; auto; try constructor;
    splits; auto; apply summary_well_summarized; auto.
Qed.

End SweepFacts.

(* ================================================================= *)
(** ** Repetition numbers *)

Lemma subseq_Forall (A : Type) (P : A -> Prop) (l1 l2 : list A) :
  subseq l1 l2 -> Forall P l2 -> Forall P l1.
Proof.
  intros Hs Hall. rewrite Forall_forall in *.
  intros x Hx. apply Hall. eapply subseq_In; eauto.
Qed.

Lemma subseq_length (A : Type) (l1 l2 : list A) :
  subseq l1 l2 -> (List.length l1 <= List.length l2)%nat.
Proof. induction 1; simpl; lia. Qed.

Lemma subseq_full (A : Type) (l1 l2 : list A) :
  subseq l1 l2 -> List.length l1 = List.length l2 -> l1 = l2.
Proof.
  induction 1 as [| x l1 l2 H IH | x l1 l2 H IH]; simpl; intros Hlen; auto.
  - apply subseq_length in H. lia.
  - f_equal. apply IH. lia.
Qed.

Lemma run_numbers_from (a n : nat) :
  let l := map (fun run => run + 1) (map Z.of_nat (seq a n)) in
  StronglySorted Z.lt l
  /\ Forall (fun x => Z.of_nat a + 1 <= x <= Z.of_nat (a + n)) l.
Proof.
  revert a. induction n as [| n IH]; intros a; simpl.
  - split; constructor.
  - destruct (IH (S a)) as (Hs & Hall). repeat split.
    + constructor; auto.
      eapply Forall_impl; [| exact Hall]. simpl. intros x Hx. lia.
    + constructor; [lia |].
      eapply Forall_impl; [| exact Hall]. simpl. intros x Hx. lia.
Qed.

Lemma run_numbers (n : Z) :
  let l := map (fun run => run + 1) (range n) in
  StronglySorted Z.lt l /\ Forall (fun x => 1 <= x <= n) l.
Proof.
  unfold range. destruct (run_numbers_from 0 (Z.to_nat n)) as (Hs & Hall).
  split; auto.
  eapply Forall_impl; [| exact Hall]. simpl. intros x Hx. lia.
Qed.

(* ================================================================= *)
(** ** Results only ever grow *)

Section Growth.

Context {PF : PyFloat}.
Variable env : Env.
Variable P : result -> Prop.

(** The results after a step are those before it followed by results
    that satisfy [P]. *)
Definition grows (s s' : State) : Prop :=
  exists rs, results s' = results s ++ rs /\ Forall P rs.

Lemma grows_preorder : preorder grows.
Proof.
  split.
  - intros s. exists []. split; [symmetry; apply app_nil_r | constructor].
  - intros s1 s2 s3 (r1 & H1 & Hp1) (r2 & H2 & Hp2).
    exists (r1 ++ r2). split.
    + rewrite H2, H1. symmetry. apply app_assoc.
    + apply Forall_app. split; assumption.
Qed.

Lemma grows_same s s' : results s' = results s -> grows s s'.
Proof.
  intros H. exists []. split; [rewrite H; symmetry; apply app_nil_r | constructor].
Qed.

Lemma run_test_point_grows name md n p c :
  (forall times sd,
      times <> [] -> std_dev_of times = inr sd ->
      P (summary name md p c times (statistics_mean times) sd)) ->
  preserves grows (run_test_point env name md n p c).
Proof.
  intros HP s. unfold run_test_point, bind, print, emit. cbn [fst snd].
  match goal with
  | |- context [run_repetitions ?e ?m ?p' ?c' ?r ?t ?s0] =>
      pose proof (run_repetitions_post e m p' c' r t s0) as (Hr & _);
      destruct (run_repetitions e m p' c' r t s0) as [[times | e' |] s1]
  end; cbn [fst snd] in *; try (apply grows_same; exact Hr).
  destruct (0 <? len times) eqn:Hlen; cbn [fst snd].
  - apply len_pos in Hlen. cbv zeta.
    destruct (std_dev_of times) as [e | sd] eqn:Hsd; cbn [fst snd].
    + apply grows_same. exact Hr.
    + eexists [_]. split; [simpl; rewrite Hr; reflexivity |].
      constructor; auto.
  - apply grows_same. exact Hr.
Qed.

Lemma run_test_series_grows name md pl cl n :
  (forall p c times sd,
      times <> [] -> std_dev_of times = inr sd ->
      P (summary name md p c times (statistics_mean times) sd)) ->
  preserves grows (run_test_series env name md pl cl n).
Proof.
  intros HP. unfold run_test_series.
  apply preserves_for_each; [apply grows_preorder |]. intros p.
  apply preserves_for_each; [apply grows_preorder |]. intros c.
  apply run_test_point_grows. auto.
Qed.

End Growth.

(* ================================================================= *)
(** ** One point of a sweep *)

Section SweepSteps.

Context {PF : PyFloat}.
Variable env : Env.
Variable cfg : config.
Variable md : string.

(** [std_dev = statistics.stdev(times) if len(times) > 1 else 0], read
    as a relation between the times and the deviation. *)
Lemma std_dev_of_intro times sd :
  times <> [] ->
  match times with
  | [_] => sd = NInt 0
  | _ => exists f, statistics_stdev times = inr f /\ sd = NFloat f
  end ->
  std_dev_of times = inr sd.
Proof.
  intros Ht. unfold std_dev_of, len.
  destruct times as [| t [| t' times]]; try congruence.
  - intros ->. reflexivity.
  - intros (f & Hf & ->).
    replace (1 <? Z.of_nat (List.length (t :: t' :: times))) with true.
    + rewrite Hf. reflexivity.
    + symmetry. apply Z.ltb_lt. simpl List.length. lia.
Qed.

Lemma std_dev_of_raises times e :
  (2 <= List.length times)%nat ->
  statistics_stdev times = inl e ->
  std_dev_of times = inl e.
Proof.
  intros Hlen He. unfold std_dev_of, len.
  replace (1 <? Z.of_nat (List.length times)) with true.
  - rewrite He. reflexivity.
  - symmetry. apply Z.ltb_lt. lia.
Qed.

(** The times [measure] returns are those of the trials of the point,
    in their order. *)
Lemma measure_trials v s times s1 :
  measure env cfg md v s = (Ret times, s1) ->
  exists os,
    trials env md (fst (point cfg v)) (snd (point cfg v))
      (range (runs_per_config cfg))
      (said (MsgTesting (fst (point cfg v)) (snd (point cfg v))) s) os s1
    /\ times = successes os
    /\ List.length os = Z.to_nat (runs_per_config cfg).
Proof.
  unfold measure, bind, print, emit. cbn [fst snd]. intros H.
  apply run_repetitions_trials in H. destruct H as (os & Hos & Hts).
  exists os. splits; auto.
  rewrite (trials_length Hos). apply range_length.
Qed.

(** After the repetitions of a point, the failures reported since the
    last announcement are those of the point. *)
Lemma measure_last_failures v s :
  exists l,
    trace (snd (measure env cfg md v s)) = trace s ++ l
    /\ visited l = [point cfg v]
    /\ forall acc, last_failures l acc = failed_runs l.
Proof.
  unfold measure, bind, print, emit. cbn [fst snd].
  match goal with
  | |- context [run_repetitions ?e ?m ?p ?c ?r ?t ?s0] =>
      pose proof (run_repetitions_post e m p c r t s0)
        as (_ & _ & l & Ht & Hv & _)
  end.
  cbn [trace set_trace] in Ht.
  exists (EvPrint (MsgTesting (fst (point cfg v)) (snd (point cfg v))) :: l).
  splits.
  - rewrite Ht, <- app_assoc. reflexivity.
  - simpl. rewrite Hv. destruct (point cfg v); reflexivity.
  - intros acc. simpl. apply (last_failures_quiet l [] Hv).
Qed.

(** A sweep that returned after a point without result had all the
    repetitions of that point reported as failed. *)
Lemma sweep_loop_all_failed fuel :
  forall v s rs l,
    fst (sweep_loop env fuel cfg md v s) = Ret tt ->
    results (snd (sweep_loop env fuel cfg md v s)) = results s ++ rs ->
    trace (snd (sweep_loop env fuel cfg md v s)) = trace s ++ l ->
    List.length (visited l) = S (List.length rs) ->
    last_failures l []
    = map (fun run => run + 1) (range (runs_per_config cfg)).
Proof.
  induction fuel as [| fuel IH]; intros v s rs l.
  - destruct (Z.le_gt_cases v (max_value cfg)) as [Hv | Hv].
    + rewrite sweep_loop_dry by assumption. discriminate.
    + rewrite sweep_loop_past by assumption. cbn [fst snd].
      intros _ _ Hl. rewrite <- (app_nil_r (trace s)) in Hl at 1.
      apply app_inv_head in Hl. subst l. discriminate.
  - destruct (Z.le_gt_cases v (max_value cfg)) as [Hv | Hv].
    2:{ rewrite sweep_loop_past by assumption. cbn [fst snd].
        intros _ _ Hl. rewrite <- (app_nil_r (trace s)) in Hl at 1.
        apply app_inv_head in Hl. subst l. discriminate. }
    rewrite sweep_loop_step by assumption.
    pose proof (measure_spec env cfg md v s)
      as (Hr1 & _ & l1 & Hl1 & Hvis & _ & Hsub & Hn).
    destruct (measure_last_failures v s) as (l1' & Hl1' & _ & Hlast).
    rewrite Hl1 in Hl1'. apply app_inv_head in Hl1'. subst l1'.
    destruct (measure env cfg md v s) as [[times | e |] s1];
      cbn [fst snd] in *; try discriminate.
    destruct (0 <? len times) eqn:Hlen.
    + destruct (std_dev_of times) as [e | sd]; [discriminate |].
      cbv zeta.
      destruct (over_budget cfg (point_summary cfg md v times sd)).
      * cbn [fst snd]. unfold said, recorded.
        cbn [results trace set_trace set_results].
        intros _ Hrs Hl. rewrite Hr1 in Hrs. apply app_inv_head in Hrs.
        rewrite Hl1, <- !app_assoc in Hl. apply app_inv_head in Hl.
        subst rs l. rewrite visited_app, Hvis. simpl. discriminate.
      * intros Hret Hrs Hl Hlen'.
        destruct (sweep_loop_spec env cfg md fuel (v + increment cfg)
                    (recorded (point_summary cfg md v times sd) s1))
          as (_ & rs2 & l2 & Hrs2 & Hl2 & _).
        assert (Ers : rs = point_summary cfg md v times sd :: rs2).
        { rewrite Hrs2 in Hrs. unfold recorded in Hrs.
          cbn [results set_results set_trace] in Hrs.
          rewrite Hr1, <- app_assoc in Hrs. apply app_inv_head in Hrs.
          symmetry. exact Hrs. }
        assert (El : l = l1 ++ EvPrint (MsgAvg
                       (average_time (point_summary cfg md v times sd))
                       (std_dev (point_summary cfg md v times sd))) :: l2).
        { rewrite Hl2 in Hl. unfold recorded in Hl.
          cbn [trace set_results set_trace] in Hl.
          rewrite Hl1, <- !app_assoc in Hl. apply app_inv_head in Hl.
          symmetry. exact Hl. }
        subst rs l.
        rewrite visited_app, Hvis in Hlen'. cbn in Hlen'.
        assert (Hlen2 : List.length (visited l2) = S (List.length rs2))
          by lia.
        rewrite last_failures_app. cbn [last_failures].
        rewrite (last_failures_reset l2 _ []).
        -- apply (IH _ _ rs2 l2 Hret Hrs2 Hl2 Hlen2).
        -- intros E. rewrite E in Hlen2. discriminate.
    + cbn [fst snd]. unfold said. cbn [results trace set_trace].
      intros _ Hrs Hl _.
      rewrite Hl1, <- app_assoc in Hl. apply app_inv_head in Hl. subst l.
      rewrite last_failures_app, Hlast. cbn [last_failures].
      apply subseq_full; auto.
      apply len_zero in Hlen. subst times.
      specialize (Hn [] eq_refl). simpl in Hn.
      rewrite length_map, range_length. exact Hn.
Qed.

End SweepSteps.

(* ================================================================= *)
(** ** The sweep driver: properties *)

Section SweepClaims.

Context {PF : PyFloat}.
Variable env : Env.
Variable cfg : config.
Variable md : string.

(** C4.  With a positive increment, the control values of the results a
    sweep appends, and of the points it announces, are strictly
    increasing, lie on the grid [starting + k * increment] with [k >= 0]
    and never exceed [max_value]; the loop needs no more fuel than the
    number of grid points up to [max_value].  The repetitions at one
    point run one
    after the other under the numbers 1..N: the failures are reported
    under increasing numbers within 1..N, and when the loop completes
    every repetition is either a collected time or a reported failure. *)
Theorem sweep_values_increasing (fuel : nat) (s : State) (p c : Z) :
  0 < increment cfg ->
  (let r := sweep_loop env fuel cfg md (starting cfg) s in
   exists rs l,
     results (snd r) = results s ++ rs /\
     trace (snd r) = trace s ++ l /\
     StronglySorted Z.lt (map (swept_value cfg) rs) /\
     Forall (fun x => x <= max_value cfg /\
                      exists k, 0 <= k /\ x = starting cfg + k * increment cfg)
       (map (swept_value cfg) rs) /\
     StronglySorted Z.lt (map (control cfg) (visited l)) /\
     Forall (fun x => x <= max_value cfg /\
                      exists k, 0 <= k /\ x = starting cfg + k * increment cfg)
       (map (control cfg) (visited l)) /\
     (max_value cfg < starting cfg + Z.of_nat fuel * increment cfg ->
      fst r <> OutOfFuel))
  /\
  (let r := run_repetitions env md p c (range (runs_per_config cfg)) [] s in
   exists l,
     trace (snd r) = trace s ++ l /\
     StronglySorted Z.lt (failed_runs l) /\
     Forall (fun n => 1 <= n <= runs_per_config cfg) (failed_runs l) /\
     forall ts, fst r = Ret ts ->
       (List.length ts + List.length (failed_runs l)
        = Z.to_nat (runs_per_config cfg))%nat).
Proof.
  intros Hi. split.
  - destruct (sweep_loop_spec env cfg md fuel (starting cfg) s)
      as (_ & rs & l & Hr & Ht & Hrun & _).
    destruct (sweep_run_grid Hi Hrun) as ((Hs & Hg) & (Hs' & Hg')).
    exists rs, l. splits; auto.
    + eapply Forall_impl; [| exact Hg']. intros x ((_ & Hx) & Hk). auto.
    + eapply Forall_impl; [| exact Hg]. intros x ((_ & Hx) & Hk). auto.
    + apply sweep_loop_enough; auto.
  - destruct (run_repetitions_post env md p c (range (runs_per_config cfg)) [] s)
      as (_ & _ & l & Ht & _ & _ & Hs & Hn).
    destruct (run_numbers (runs_per_config cfg)) as (Hsorted & Hall).
    exists l. splits; auto.
    + eapply subseq_sorted; eauto.
    + eapply subseq_Forall; eauto.
    + intros ts Hts. destruct (Hn ts Hts) as (new & -> & Hlen).
      rewrite range_length in Hlen. exact Hlen.
Qed.

(** C1 (amended).  At any iteration of the sweep: when the repetitions
    at [v] complete with at least one time, the mean of the times
    exceeds [max_runtime_seconds] and the deviation is computed (there
    is a single time, or [statistics.stdev] returns), the loop prints
    the average, appends the record of [v] (the times measured, their
    mean, the deviation), prints that it stops and returns at once:
    nothing further is announced, launched or asked of the operating
    system.  When [statistics.stdev] raises, its exception leaves the
    loop before anything is printed or appended, whatever the mean.
    Over a whole sweep (positive increment): a result over the budget
    is the last result, the sweep returned normally, its point is the
    last one announced, every driver launch belongs to an announced
    point, and no announced control value is larger than the one of
    that result. *)
Theorem over_budget_stops_sweep (fuel : nat) (v : Z) (s : State) :
  0 < increment cfg ->
  (forall times s1 sd,
      v <= max_value cfg ->
      measure env cfg md v s = (Ret times, s1) ->
      times <> [] ->
      float_gt_int (statistics_mean times) (max_runtime_seconds cfg) = true ->
      match times with
      | [_] => sd = NInt 0
      | _ => exists f, statistics_stdev times = inr f /\ sd = NFloat f
      end ->
      exists s2,
        sweep_loop env (S fuel) cfg md v s = (Ret tt, s2) /\
        results s2
        = results s1
          ++ [{| test_type := test_name cfg; mode := md;
                 particles := fst (point cfg v);
                 cycles := snd (point cfg v);
                 run_times := times;
                 average_time := statistics_mean times;
                 std_dev := sd |}] /\
        trace s2
        = trace s1
          ++ [EvPrint (MsgAvg (statistics_mean times) sd);
              EvPrint (MsgStopping md (max_runtime_seconds cfg))] /\
        visited (trace s2) = visited (trace s1) /\
        launches (trace s2) = launches (trace s1) /\
        tick s2 = tick s1)
  /\
  (forall times s1 e,
      v <= max_value cfg ->
      measure env cfg md v s = (Ret times, s1) ->
      (2 <= List.length times)%nat ->
      statistics_stdev times = inl e ->
      sweep_loop env (S fuel) cfg md v s = (Raise e, s1)
      /\ results s1 = results s)
  /\
  (let r := sweep_loop env fuel cfg md v s in
   exists rs l,
     results (snd r) = results s ++ rs /\
     trace (snd r) = trace s ++ l /\
     Forall (launched_for md (visited l)) (launches l) /\
     forall pre x post,
       rs = pre ++ x :: post ->
       float_gt_int (average_time x) (max_runtime_seconds cfg) = true ->
       post = [] /\ fst r = Ret tt /\
       (exists before, visited l = before ++ [(particles x, cycles x)]) /\
       Forall (fun pc => control cfg pc <= swept_value cfg x) (visited l)).
Proof.
  intros Hi. splits.
  - intros times s1 sd Hv Hm Ht Hb Hsd.
    rewrite sweep_loop_step by assumption. rewrite Hm.
    rewrite (@std_dev_of_intro _ times sd Ht Hsd).
    apply len_pos in Ht. rewrite Ht. cbv zeta.
    unfold over_budget, point_summary, summary. cbn [average_time].
    rewrite Hb.
    eexists. split; [reflexivity |].
    unfold said, recorded; simpl. splits; auto.
    + rewrite <- app_assoc. reflexivity.
    + rewrite !visited_app. simpl. rewrite !app_nil_r. reflexivity.
    + rewrite !launches_app. simpl. rewrite !app_nil_r. reflexivity.
  - intros times s1 e Hv Hm Hlen He.
    pose proof (measure_spec env cfg md v s) as (Hr & _).
    rewrite Hm in Hr. cbn [snd] in Hr. split; [| exact Hr].
    rewrite sweep_loop_step by assumption. rewrite Hm.
    rewrite (@std_dev_of_raises _ times e Hlen He).
    replace (0 <? len times) with true; [reflexivity |].
    symmetry. apply Z.ltb_lt. unfold len. lia.
  - destruct (sweep_loop_spec env cfg md fuel v s)
      as (_ & rs & l & Hr & Ht & Hrun & Hl).
    exists rs, l. splits; auto.
    intros pre x post Hrs Hx.
    destruct (sweep_run_budget Hrun pre x post Hrs Hx)
      as (Hpost & Ho & before & Hvs).
    splits; auto.
    + exists before. exact Hvs.
    + destruct (sweep_run_grid Hi Hrun) as ((Hs & _) & _).
      rewrite Hvs in *. rewrite map_app in Hs. simpl in Hs.
      apply sorted_last_max in Hs.
      change [control cfg (particles x, cycles x)]
        with (map (control cfg) [(particles x, cycles x)]) in Hs.
      rewrite <- map_app, Forall_map in Hs. exact Hs.
Qed.

(** C2 (amended).  At any iteration of the sweep: when the repetitions
    at [v] complete without a single time, all of them were reported as
    failed, the loop prints that all runs failed and returns at once.
    No result is appended for [v], and nothing further is announced,
    launched or asked of the operating system. *)
Theorem all_failed_stops_sweep (fuel : nat) (v : Z) (s s1 : State) :
  v <= max_value cfg ->
  measure env cfg md v s = (Ret [], s1) ->
  exists s2 l,
    sweep_loop env (S fuel) cfg md v s = (Ret tt, s2) /\
    results s2 = results s /\
    trace s1 = trace s ++ l /\
    visited l = [point cfg v] /\
    failed_runs l = map (fun run => run + 1) (range (runs_per_config cfg)) /\
    trace s2 = trace s1 ++ [EvPrint MsgAllFailedStopping] /\
    tick s2 = tick s1.
Proof.
  intros Hv Hm.
  pose proof (measure_spec env cfg md v s)
    as (Hr & _ & l & Ht & Hvis & _ & Hs & Hn).
  rewrite Hm in *. cbn [fst snd] in *.
  rewrite sweep_loop_step by assumption. rewrite Hm.
  exists (said MsgAllFailedStopping s1), l. splits; auto.
  apply subseq_full; auto.
  specialize (Hn [] eq_refl). simpl in Hn.
  rewrite length_map, range_length. exact Hn.
Qed.


(** C5.  At a point of a sweep, and at a point of [run_test_series],
    where the repetitions complete with k >= 1 times (the times the
    trials returned, in order): when k = 1 the record appended holds
    that time, its mean and the integer 0 as deviation;
    when k >= 2 and [statistics.stdev] returns, it holds the times,
    their [statistics.mean] and their [statistics.stdev]; when
    [statistics.stdev] raises, nothing is appended and its exception
    leaves the test.  Hence every result appended by a sweep or by
    [run_test_series] holds at least one time, the mean of its times,
    and 0 or the sample deviation of its times. *)
Theorem summary_mean_and_std_dev (fuel : nat) (v : Z) (s : State)
  (name : string) (particles_list cycles_list : list Z) (n p c : Z) :
  (forall times s1,
      v <= max_value cfg ->
      measure env cfg md v s = (Ret times, s1) ->
      times <> [] ->
      (exists os,
          trials env md (fst (point cfg v)) (snd (point cfg v))
            (range (runs_per_config cfg))
            (set_trace
               (trace s
                ++ [EvPrint
                      (MsgTesting (fst (point cfg v)) (snd (point cfg v)))])
               s)
            os s1
          /\ times = successes os)
      /\
      (forall sd,
          match times with
          | [_] => sd = NInt 0
          | _ => exists f, statistics_stdev times = inr f /\ sd = NFloat f
          end ->
          exists more,
            results (snd (sweep_loop env (S fuel) cfg md v s))
            = results s
              ++ {| test_type := test_name cfg; mode := md;
                    particles := fst (point cfg v);
                    cycles := snd (point cfg v);
                    run_times := times;
                    average_time := statistics_mean times;
                    std_dev := sd |} :: more)
      /\
      (forall e,
          (2 <= List.length times)%nat ->
          statistics_stdev times = inl e ->
          fst (sweep_loop env (S fuel) cfg md v s) = Raise e
          /\ results (snd (sweep_loop env (S fuel) cfg md v s))
             = results s))
  /\
  (forall times s1,
      run_repetitions env md p c (range n) []
        (set_trace (trace s ++ [EvPrint (MsgTesting p c)]) s)
      = (Ret times, s1) ->
      times <> [] ->
      (exists os,
          trials env md p c (range n)
            (set_trace (trace s ++ [EvPrint (MsgTesting p c)]) s) os s1
          /\ times = successes os)
      /\
      (forall sd,
          match times with
          | [_] => sd = NInt 0
          | _ => exists f, statistics_stdev times = inr f /\ sd = NFloat f
          end ->
          fst (run_test_point env name md n p c s) = Ret tt
          /\ results (snd (run_test_point env name md n p c s))
             = results s
               ++ [{| test_type := name; mode := md;
                      particles := p; cycles := c;
                      run_times := times;
                      average_time := statistics_mean times;
                      std_dev := sd |}])
      /\
      (forall e,
          (2 <= List.length times)%nat ->
          statistics_stdev times = inl e ->
          fst (run_test_point env name md n p c s) = Raise e
          /\ results (snd (run_test_point env name md n p c s))
             = results s))
  /\
  (let r := sweep_loop env fuel cfg md v s in
   exists rs,
     results (snd r) = results s ++ rs /\
     Forall (fun x =>
               run_times x <> [] /\
               average_time x = statistics_mean (run_times x) /\
               match run_times x with
               | [_] => std_dev x = NInt 0
               | _ =>
                   exists f,
                     statistics_stdev (run_times x) = inr f
                     /\ std_dev x = NFloat f
               end) rs)
  /\
  (let r := run_test_series env name md particles_list cycles_list n s in
   exists rs,
     results (snd r) = results s ++ rs /\
     Forall (fun x =>
               run_times x <> [] /\
               average_time x = statistics_mean (run_times x) /\
               match run_times x with
               | [_] => std_dev x = NInt 0
               | _ =>
                   exists f,
                     statistics_stdev (run_times x) = inr f
                     /\ std_dev x = NFloat f
               end) rs).
Proof.
  splits.
  - intros times s1 Hv Hm Ht.
    pose proof (measure_spec env cfg md v s) as (Hr & _).
    rewrite Hm in Hr. cbn [snd] in Hr.
    splits.
    + destruct (measure_trials env cfg md v s Hm) as (os & Hos & Hts & _).
      exists os. split; auto.
    + intros sd Hsd.
      rewrite sweep_loop_step by assumption. rewrite Hm.
      rewrite (@std_dev_of_intro _ times sd Ht Hsd).
      apply len_pos in Ht. rewrite Ht. cbv zeta.
      destruct (over_budget cfg (point_summary cfg md v times sd)).
      * exists []. unfold said, recorded; simpl. rewrite Hr. reflexivity.
      * destruct (sweep_loop_spec env cfg md fuel (v + increment cfg)
                    (recorded (point_summary cfg md v times sd) s1))
          as (_ & rs2 & _ & Hrs2 & _).
        exists rs2. rewrite Hrs2. unfold recorded; simpl.
        rewrite Hr, <- app_assoc. reflexivity.
    + intros e Hlen He.
      rewrite sweep_loop_step by assumption. rewrite Hm.
      rewrite (@std_dev_of_raises _ times e Hlen He).
      replace (0 <? len times) with true; [split; [reflexivity | exact Hr] |].
      symmetry. apply Z.ltb_lt. unfold len. lia.
  - intros times s1 Hm Ht.
    pose proof (run_repetitions_post env md p c (range n) []
                  (set_trace (trace s ++ [EvPrint (MsgTesting p c)]) s))
      as (Hr & _).
    rewrite Hm in Hr. cbn [snd results set_trace] in Hr.
    splits.
    + pose proof Hm as Hos. apply run_repetitions_trials in Hos.
      destruct Hos as (os & Hos & Hts). exists os. split; auto.
    + intros sd Hsd.
      unfold run_test_point, bind, print, emit. cbn [fst snd].
      rewrite Hm. rewrite (@std_dev_of_intro _ times sd Ht Hsd).
      apply len_pos in Ht. rewrite Ht. cbv zeta. cbn [fst snd].
      split; [reflexivity |]. simpl. rewrite Hr. reflexivity.
    + intros e Hlen He.
      unfold run_test_point, bind, print, emit. cbn [fst snd].
      rewrite Hm. rewrite (@std_dev_of_raises _ times e Hlen He).
      replace (0 <? len times) with true;
        [split; [reflexivity | exact Hr] |].
      symmetry. apply Z.ltb_lt. unfold len. lia.
  - destruct (sweep_loop_spec env cfg md fuel v s)
      as (_ & rs & l & Hr & _ & Hrun & _).
    exists rs. split; auto.
    eapply Forall_impl; [| exact (sweep_run_summaries Hrun)].
    intros x (Hx & _). exact Hx.
  - apply (@run_test_series_grows _ env well_summarized name md
             particles_list cycles_list n).
    intros p0 c0 times sd Ht Hsd. apply summary_well_summarized; auto.
Qed.

End SweepClaims.

(* ================================================================= *)
(** ** The trial runner: properties *)

Section TrialClaims.

Context {PF : PyFloat}.
Variable env : Env.

(** [line.split("Elapsed time:")[1].strip().split()[0]], when both
    indexings succeed. *)
Definition token_after_marker (line : string) : option string :=
  match nth_error (PyStr.split marker line) 1 with
  | Some after => nth_error (PyStr.split_ws (PyStr.strip after)) 0
  | None => None
  end.

(** [float] of the token after the marker; [None] when there is no token
    or [float] rejects it. *)
Definition measurement (line : string) : option float :=
  match token_after_marker line with
  | Some time_str => float_of_str time_str
  | None => None
  end.

Definition no_marker (line : string) : Prop :=
  PyStr.contains marker line = false.

Lemma extract_elapsed_none lines :
  Forall no_marker lines -> extract_elapsed lines = inr None.
Proof.
  induction 1 as [| line rest Hl _ IH]; simpl; auto.
  unfold no_marker in Hl. rewrite Hl. exact IH.
Qed.

(** The first line with the marker decides; an exception stands for a
    missing or rejected token. *)
Lemma extract_elapsed_first before line rest :
  Forall no_marker before ->
  PyStr.contains marker line = true ->
  match extract_elapsed (before ++ line :: rest) with
  | inr r => r = measurement line /\ r <> None
  | inl e => measurement line = None /\ is_Exception e = true
             /\ is_TimeoutExpired e = false
  end.
Proof.
  intros Hb Hl.
  induction Hb as [| l0 before H0 _ IH]; cbn [extract_elapsed app].
  - rewrite Hl. unfold measurement, token_after_marker.
    destruct (nth_error (PyStr.split marker line) 1) as [after |];
      [| splits; reflexivity].
    destruct (nth_error (PyStr.split_ws (PyStr.strip after)) 0)
      as [time_str |]; [| splits; reflexivity].
    destruct (float_of_str time_str); splits; try reflexivity.
    discriminate.
  - unfold no_marker in H0. rewrite H0. exact IH.
Qed.

(** With the pool out of the way a trial is the [try] statement. *)
Lemma run_simulation_driver md p c s :
  is_distributed md && no_workers (worker_processes s) = false ->
  run_simulation env md p c s = run_driver env md p c s.
Proof.
  intros Hpool. unfold run_simulation.
  destruct (is_distributed md); auto.
  unfold bind, get_worker_processes. simpl in Hpool. rewrite Hpool.
  reflexivity.
Qed.

Lemma extract_elapsed_exn lines e :
  extract_elapsed lines = inl e -> e = IndexError \/ e = ValueError.
Proof.
  induction lines as [| line rest IH]; cbn [extract_elapsed]; [discriminate |].
  destruct (PyStr.contains marker line); auto.
  destruct (nth_error (PyStr.split marker line) 1) as [after |];
    [| intros [= <-]; auto].
  destruct (nth_error (PyStr.split_ws (PyStr.strip after)) 0)
    as [time_str |]; [| intros [= <-]; auto].
  destruct (float_of_str time_str); [discriminate | intros [= <-]; auto].
Qed.

Lemma subprocess_run_eq cmd t s :
  subprocess_run env cmd t s
  = let s' := set_tick (S (tick s)) (set_trace (trace s ++ [EvRun cmd t]) s) in
    match on_run env (tick s) with
    | inl e => (Raise e, s')
    | inr r => (Ret r, s')
    end.
Proof.
  unfold subprocess_run, bind, emit, next_call. simpl.
  destruct (on_run env (tick s)); reflexivity.
Qed.

Lemma run_driver_zero_exit md p c s out err :
  on_run env (tick s) = inr (0, out, err) ->
  fst (run_driver env md p c s)
  = Ret (match extract_elapsed (PyStr.split PyStr.newline out) with
         | inr r => r
         | inl _ => None
         end).
Proof.
  intros Hrun.
  unfold run_driver, try_except. unfold bind at 1.
  rewrite subprocess_run_eq, Hrun. cbv zeta. cbn [negb Z.eqb].
  destruct (extract_elapsed (PyStr.split PyStr.newline out))
    as [e | [t |]] eqn:E; try reflexivity.
  - destruct (extract_elapsed_exn _ E) as [-> | ->]; reflexivity.
  - unfold print_stdout_if_distributed.
    destruct (is_distributed md); reflexivity.
Qed.

(** C8 (amended).  When the driver exits with status 0, the pool start
    not being involved, the trial returns the float read from the first
    whitespace-delimited token after the marker on the first line that
    holds the marker, whatever its sign; it returns [None] when no line
    holds the marker and when that token is missing or rejected by
    [float]. *)
Theorem zero_exit_measurement (md : string) (p c : Z) (s : State)
  (out err : string) :
  is_distributed md && no_workers (worker_processes s) = false ->
  on_run env (tick s) = inr (0, out, err) ->
  (Forall no_marker (PyStr.split PyStr.newline out) ->
   fst (run_simulation env md p c s) = Ret None)
  /\
  (forall before line rest,
      PyStr.split PyStr.newline out = before ++ line :: rest ->
      Forall no_marker before ->
      PyStr.contains marker line = true ->
      fst (run_simulation env md p c s) = Ret (measurement line)).
Proof.
  intros Hpool Hrun.
  rewrite (run_simulation_driver md p c s Hpool).
  rewrite (run_driver_zero_exit md p c s Hrun).
  split.
  - intros Hno. rewrite (extract_elapsed_none Hno). reflexivity.
  - intros before line rest Hsplit Hb Hl. rewrite Hsplit.
    pose proof (@extract_elapsed_first before line rest Hb Hl) as H.
    destruct (extract_elapsed (before ++ line :: rest)) as [e | r].
    + destruct H as (-> & _). reflexivity.
    + destruct H as (-> & _). reflexivity.
Qed.

(** The [try] statement lets no [Exception] out. *)
Lemma run_driver_raises md p c s e :
  fst (run_driver env md p c s) = Raise e -> is_Exception e = false.
Proof.
  unfold run_driver, try_except.
  match goal with
  | |- context [bind ?m ?f s] => destruct (bind m f s) as [[a | e' |] s1]
  end; simpl; try discriminate.
  destruct (is_TimeoutExpired e') eqn:Et; [discriminate |].
  destruct (is_Exception e') eqn:Ee; [discriminate |].
  simpl. intros [= <-]. exact Ee.
Qed.

Lemma run_driver_absorbs md p c s e :
  on_run env (tick s) = inl e -> is_Exception e = true ->
  fst (run_driver env md p c s) = Ret None.
Proof.
  intros Hrun He.
  unfold run_driver, try_except. unfold bind at 1.
  rewrite subprocess_run_eq, Hrun. cbv zeta. cbv iota beta.
  destruct (is_TimeoutExpired e); [reflexivity |].
  rewrite He. reflexivity.
Qed.

Lemma run_driver_nonzero md p c s rc out err :
  on_run env (tick s) = inr (rc, out, err) -> rc <> 0 ->
  fst (run_driver env md p c s) = Ret None.
Proof.
  intros Hrun Hrc.
  unfold run_driver, try_except. unfold bind at 1.
  rewrite subprocess_run_eq, Hrun. cbv zeta. cbv iota beta.
  apply Z.eqb_neq in Hrc. rewrite Hrc. cbn [negb].
  unfold print_stdout_if_distributed.
  destruct (is_distributed md); reflexivity.
Qed.

(** In distributed mode with an empty pool the trial starts the pool
    first, outside the [try] statement. *)
Lemma run_simulation_start md p c s :
  is_distributed md = true ->
  no_workers (worker_processes s) = true ->
  run_simulation env md p c s
  = match start_worker env s with
    | (Ret true, s1) => run_driver env md p c s1
    | (Ret false, s1) =>
        (Ret None, set_trace (trace s1 ++ [EvPrint MsgFailedToStartWorkers]) s1)
    | (Raise e, s1) => (Raise e, s1)
    | (OutOfFuel, s1) => (OutOfFuel, s1)
    end.
Proof.
  intros Hd Hw. unfold run_simulation. rewrite Hd.
  unfold bind at 1, get_worker_processes. cbn [fst snd]. rewrite Hw.
  unfold bind at 1.
  destruct (start_worker env s) as [[[|] | e |] s1]; reflexivity.
Qed.

(** C10 (amended).  [run_simulation] returns or raises (it needs no
    fuel).  An exception that is an [Exception] leaves it only from the
    start of the worker pool, which the distributed mode runs before the
    [try] statement when the pool is empty; a pool start that gives up
    ends in [None].  In every mode, once the driver is launched (at
    once, or after the pool was started), a failure to launch it, a
    timeout and a nonzero exit end in [None]; with exit status 0 the
    trial returns [None] when no line holds the marker and when the
    token after the marker on the first such line is missing or
    rejected by [float], and the float of that token otherwise. *)
Theorem run_simulation_exceptions (md : string) (p c : Z) (s : State) :
  fst (run_simulation env md p c s) <> OutOfFuel
  /\
  (forall e,
      fst (run_simulation env md p c s) = Raise e ->
      is_Exception e = true ->
      is_distributed md = true /\
      no_workers (worker_processes s) = true /\
      fst (start_worker env s) = Raise e)
  /\
  (is_distributed md = true ->
   no_workers (worker_processes s) = true ->
   fst (start_worker env s) = Ret false ->
   fst (run_simulation env md p c s) = Ret None)
  /\
  (forall s',
      (is_distributed md && no_workers (worker_processes s) = false
       /\ s' = s)
      \/ (is_distributed md = true
          /\ no_workers (worker_processes s) = true
          /\ start_worker env s = (Ret true, s')) ->
      (forall e,
          on_run env (tick s') = inl e -> is_Exception e = true ->
          fst (run_simulation env md p c s) = Ret None)
      /\
      (forall rc out err,
          on_run env (tick s') = inr (rc, out, err) ->
          (exists r, fst (run_simulation env md p c s) = Ret r)
          /\ (rc <> 0 -> fst (run_simulation env md p c s) = Ret None))
      /\
      (forall out err,
          on_run env (tick s') = inr (0, out, err) ->
          (Forall no_marker (PyStr.split PyStr.newline out) ->
           fst (run_simulation env md p c s) = Ret None)
          /\
          (forall before line rest,
              PyStr.split PyStr.newline out = before ++ line :: rest ->
              Forall no_marker before ->
              PyStr.contains marker line = true ->
              (token_after_marker line = None ->
               fst (run_simulation env md p c s) = Ret None)
              /\
              (forall time_str,
                  token_after_marker line = Some time_str ->
                  fst (run_simulation env md p c s)
                  = Ret (float_of_str time_str))))).
Proof.
  splits.
  - apply total_run_simulation.
  - intros e Hraise He.
    unfold run_simulation in Hraise.
    destruct (is_distributed md) eqn:Hd.
    + unfold bind at 1, get_worker_processes in Hraise. cbn [fst snd] in Hraise.
      destruct (no_workers (worker_processes s)) eqn:Hw.
      * unfold bind in Hraise.
        destruct (start_worker env s) as [[[|] | e' |] s1]; simpl in *.
        -- apply run_driver_raises in Hraise. congruence.
        -- discriminate.
        -- injection Hraise as ->. auto.
        -- discriminate.
      * apply run_driver_raises in Hraise. congruence.
    + apply run_driver_raises in Hraise. congruence.
  - intros Hd Hw Hstart. rewrite (run_simulation_start md p c s Hd Hw).
    destruct (start_worker env s) as [[[|] | e |] s1]; cbn [fst] in *;
      try discriminate. reflexivity.
  - intros s' Hs'.
    assert (Hsim : run_simulation env md p c s = run_driver env md p c s').
    { destruct Hs' as [(Hpool & ->) | (Hd & Hw & Hstart)].
      - apply (run_simulation_driver md p c s Hpool).
      - rewrite (run_simulation_start md p c s Hd Hw), Hstart.
        reflexivity. }
    rewrite Hsim. splits.
    + intros e Hrun He. apply (run_driver_absorbs md p c s' Hrun He).
    + intros rc out err Hrun. split.
      * destruct (Z.eq_dec rc 0) as [-> | Hrc].
        -- rewrite (run_driver_zero_exit md p c s' Hrun). eauto.
        -- rewrite (run_driver_nonzero md p c s' Hrun Hrc). eauto.
      * intros Hrc. apply (run_driver_nonzero md p c s' Hrun Hrc).
    + intros out err Hrun.
      rewrite (run_driver_zero_exit md p c s' Hrun). split.
      * intros Hnone. rewrite (extract_elapsed_none Hnone). reflexivity.
      * intros before line rest Hsplit Hbefore Hline.
        pose proof (@extract_elapsed_first before line rest Hbefore Hline)
          as Hfirst.
        rewrite Hsplit.
        assert (Hm : Ret (match extract_elapsed (before ++ line :: rest) with
                          | inr r => r
                          | inl _ => None
                          end) = Ret (measurement line)).
        { destruct (extract_elapsed (before ++ line :: rest)) as [e | r].
          - destruct Hfirst as (Hm & _). rewrite Hm. reflexivity.
          - destruct Hfirst as (-> & _). reflexivity. }
        rewrite Hm. unfold measurement. split.
        -- intros ->. reflexivity.
        -- intros time_str ->. reflexivity.
Qed.

End TrialClaims.

(* ================================================================= *)
(** ** The result files: properties *)

Section StoreClaims.

Context {PF : PyFloat}.
Variable env : Env.

(** The [i]-th repetition-time column of a row: the [i]-th time when
    there is one, [None] otherwise. *)
Definition slot (x : result) (i : nat) : cell :=
  match nth_error (run_times x) i with
  | Some t => CFloat t
  | None => CNone
  end.

Lemma padded_times_length x : (3 <= List.length (padded_times x))%nat.
Proof.
  unfold padded_times, len.
  rewrite length_app, length_map, repeat_length. lia.
Qed.

Lemma padded_times_slot x i :
  (i < 3)%nat -> nth i (padded_times x) CNone = slot x i.
Proof.
  intros Hi. unfold padded_times, slot, len.
  destruct (run_times x) as [| a [| b [| c rest]]];
    destruct i as [| [| [| i]]]; try lia; try reflexivity.
Qed.

Lemma csv_row_columns x :
  csv_row x = [CStr (mode x); CInt (particles x); CInt (cycles x);
               slot x 0; slot x 1; slot x 2;
               CFloat (average_time x); cell_of_num (std_dev x)].
Proof.
  unfold csv_row. cbv zeta.
  rewrite !padded_times_slot by lia. reflexivity.
Qed.

(** What a step does to the files: every file keeps its rows, and when
    the step completes, [path] has gained exactly [rows]. *)
Definition appends (path : string) (rows : list row) (s : State)
  (r : outcome unit * State) : Prop :=
  results (snd r) = results s /\
  (forall p, exists more, files (snd r) p = files s p ++ more) /\
  (fst r = Ret tt ->
   forall p, files (snd r) p
             = files s p ++ (if String.eqb p path then rows else [])).

Lemma write_rows path rs :
  forall s, appends path (map csv_row rs) s
              (for_each rs (fun r => writerow path (csv_row r)) s).
Proof.
  induction rs as [| x rs IH]; intros s; cbn [for_each map].
  - unfold appends, ret; simpl. splits; auto.
    + intros p. exists []. symmetry. apply app_nil_r.
    + intros _ p. destruct (String.eqb p path); symmetry; apply app_nil_r.
  - unfold bind, writerow at 1.
    match goal with
    | |- appends _ _ _ (for_each _ _ ?s1) =>
        destruct (IH s1) as (Hr & Hkeep & Hdone)
    end.
    simpl in Hr, Hkeep, Hdone.
    unfold appends. splits; auto.
    + intros p. destruct (Hkeep p) as (more & Hp). rewrite Hp.
      destruct (String.eqb p path); rewrite <- ?app_assoc; eauto.
    + intros Hret p. rewrite (Hdone Hret p).
      destruct (String.eqb p path); rewrite <- ?app_assoc; auto.
Qed.

Lemma append_csv_appends path rs s :
  appends path (map csv_row rs) s (append_csv env path rs s).
Proof.
  unfold append_csv. destruct rs as [| x rs].
  - apply (write_rows path [] s).
  - unfold bind at 1, open_file, bind, next_call, answer.
    destruct (on_open env (tick s)) as [e |]; simpl.
    + unfold appends; simpl. splits; auto.
      * intros p. exists []. symmetry. apply app_nil_r.
      * discriminate.
    + match goal with
      | |- appends _ _ _ (?m ?s1) =>
          pose proof (write_rows path (x :: rs) s1) as H
      end.
      exact H.
Qed.

Lemma save_results_eq s :
  save_results env s
  = match append_csv env "fixed_particles_results.csv"
            (of_type "Fixed_Particles" (results s)) s with
    | (Ret _, s1) =>
        match append_csv env "fixed_cycles_results.csv"
                (of_type "Fixed_Cycles" (results s)) s1 with
        | (Ret _, s2) =>
            (Ret tt,
             said (MsgSaved "fixed_cycles_results.csv"
                     (len (of_type "Fixed_Cycles" (results s))))
               (said (MsgSaved "fixed_particles_results.csv"
                        (len (of_type "Fixed_Particles" (results s))))
                  (said (MsgText "New distributed results appended to:")
                     s2)))
        | (Raise e, s2) => (Raise e, s2)
        | (OutOfFuel, s2) => (OutOfFuel, s2)
        end
    | (Raise e, s1) => (Raise e, s1)
    | (OutOfFuel, s1) => (OutOfFuel, s1)
    end.
Proof.
  unfold save_results, bind. cbn [fst snd].
  destruct (append_csv env "fixed_particles_results.csv" _ s)
    as [[[] | e |] s1]; reflexivity.
Qed.


End StoreClaims.

(* ================================================================= *)
(** ** Worker processes are never lost *)

Lemma preserves_weaken {PF : PyFloat} (A : Type) (R R' : State -> State -> Prop)
  (m : M A) :
  (forall s s', R s s' -> R' s s') -> preserves R m -> preserves R' m.
Proof. intros H Hm s. apply H, Hm. Qed.

(** Sequencing a step under [R1] with a step under [R2]. *)
Lemma preserves_bind_then {PF : PyFloat} (A B : Type)
  (R1 R2 R3 : State -> State -> Prop) (m : M A) (f : A -> M B) :
  (forall s1 s2, R1 s1 s2 -> R3 s1 s2) ->
  (forall s1 s2 s3, R1 s1 s2 -> R2 s2 s3 -> R3 s1 s3) ->
  preserves R1 m -> (forall a, preserves R2 (f a)) ->
  preserves R3 (bind m f).
Proof.
  intros H1 H12 Hm Hf s. unfold bind. specialize (Hm s).
  destruct (m s) as [[a | e |] s1]; simpl in *; auto.
  eapply H12; [exact Hm | apply Hf].
Qed.

Section Handles.

Context {PF : PyFloat}.
Variable env : Env.

(** The handles [self] holds. *)
Definition pool (s : State) : list nat :=
  match worker_processes s with
  | Some l => l
  | None => []
  end.

(** Every running worker is held in [self.worker_processes]. *)
Definition tracked (s : State) : Prop :=
  forall h, running h s = true -> In h (pool s).

Definition all_stopped (s : State) : Prop :=
  forall h, running h s = false.

(** A step that starts no process and leaves the pool alone. *)
Definition calmer (s s' : State) : Prop :=
  worker_processes s' = worker_processes s /\
  (tick s <= tick s')%nat /\
  forall h, running h s' = true -> running h s = true.

(** A step that keeps every running worker tracked. *)
Definition keeps_track (s s' : State) : Prop :=
  (tracked s -> tracked s') /\ (tick s <= tick s')%nat.

Lemma calmer_preorder : preorder calmer.
Proof.
  split.
  - intros s. unfold calmer. auto.
  - intros s1 s2 s3 (Hw1 & Ht1 & Hr1) (Hw2 & Ht2 & Hr2).
    unfold calmer. splits; try congruence; try lia. auto.
Qed.

Lemma keeps_track_preorder : preorder keeps_track.
Proof.
  split.
  - intros s. unfold keeps_track. auto.
  - intros s1 s2 s3 (H1 & Ht1) (H2 & Ht2). unfold keeps_track. split; auto; lia.
Qed.

Lemma calmer_keeps_track s s' : calmer s s' -> keeps_track s s'.
Proof.
  intros (Hw & Ht & Hr). split; auto.
  intros Htr h Hh. unfold pool. rewrite Hw. apply Htr, Hr, Hh.
Qed.

Hint Resolve calmer_preorder keeps_track_preorder : core.

Lemma running_mark_exited h h' p :
  nth h' (mark_exited h p) false
  = if Nat.eqb h' h then false else nth h' p false.
Proof.
  revert h h'. induction p as [| b p IH]; intros h h'.
  - destruct h, h'; simpl; try reflexivity; destruct (Nat.eqb _ _); reflexivity.
  - destruct h as [| h]; destruct h' as [| h']; simpl; auto.
Qed.

Lemma calmer_quiet s s' :
  worker_processes s' = worker_processes s ->
  procs s' = procs s -> (tick s <= tick s')%nat -> calmer s s'.
Proof.
  intros Hw Hp Ht. unfold calmer, running. rewrite Hp. auto.
Qed.

Lemma calmer_next_call : preserves calmer next_call.
Proof. intros s. apply calmer_quiet; simpl; auto. Qed.

Lemma calmer_emit e : preserves calmer (emit e).
Proof. intros s. apply calmer_quiet; simpl; auto. Qed.

Lemma calmer_print m : preserves calmer (print m).
Proof. apply calmer_emit. Qed.

Lemma calmer_set_exited h : preserves calmer (set_exited h).
Proof.
  intros s. unfold calmer, running. simpl. splits; auto.
  intros h'. rewrite running_mark_exited.
  destruct (Nat.eqb h' h); [discriminate | auto].
Qed.

Lemma calmer_get_worker_processes : preserves calmer get_worker_processes.
Proof. intros s. apply calmer_quiet; simpl; auto. Qed.

Lemma calmer_append_result r : preserves calmer (append_result r).
Proof. intros s. apply calmer_quiet; simpl; auto. Qed.

Lemma calmer_writerow path r : preserves calmer (writerow path r).
Proof. intros s. apply calmer_quiet; simpl; auto. Qed.

Hint Resolve calmer_next_call calmer_emit calmer_print calmer_set_exited
  calmer_get_worker_processes calmer_append_result calmer_writerow : core.

Lemma calmer_time_sleep q : preserves calmer (time_sleep env q).
Proof. unfold time_sleep. repeat preserves_step. Qed.

Lemma calmer_pkill_workers : preserves calmer (pkill_workers env).
Proof. unfold pkill_workers. repeat preserves_step. Qed.

Lemma calmer_poll_exited h : preserves calmer (poll_exited env h).
Proof.
  unfold poll_exited.
  intros s. destruct (running h s); [| apply (pre_refl calmer_preorder)].
  revert s. change (preserves calmer
    (bind next_call (fun t => if on_poll env t then ret false
                              else bind (set_exited h) (fun _ => ret true)))).
  repeat preserves_step.
Qed.

Lemma calmer_communicate h : preserves calmer (communicate env h).
Proof. unfold communicate. repeat preserves_step. Qed.

Lemma calmer_terminate h : preserves calmer (terminate h).
Proof. unfold terminate. auto. Qed.

Lemma calmer_wait h t : preserves calmer (wait env h t).
Proof.
  unfold wait. apply preserves_bind; auto. intros _.
  intros s. destruct (running h s); [| apply (pre_refl calmer_preorder)].
  revert s. change (preserves calmer
    (bind next_call (fun t => bind (answer (on_wait env t))
                                (fun _ => set_exited h)))).
  repeat preserves_step.
Qed.

Lemma calmer_kill h : preserves calmer (kill h).
Proof. unfold kill. repeat preserves_step. Qed.

Lemma calmer_subprocess_run cmd t : preserves calmer (subprocess_run env cmd t).
Proof. unfold subprocess_run. repeat preserves_step. Qed.

Hint Resolve calmer_time_sleep calmer_pkill_workers calmer_poll_exited
  calmer_communicate calmer_terminate calmer_wait calmer_kill
  calmer_subprocess_run : core.

Lemma calmer_stop_worker_loop ws : preserves calmer (stop_worker_loop env ws).
Proof.
  induction ws as [| w rest IH]; cbn [stop_worker_loop].
  - repeat preserves_step.
  - apply preserves_bind; auto.
    intros _. apply preserves_bind; auto.
    apply preserves_try_except; auto.
    intros e h. destruct (is_TimeoutExpired e); intros [= <-]. auto.
Qed.

Lemma calmer_print_stdout md out :
  preserves calmer (print_stdout_if_distributed md out).
Proof. unfold print_stdout_if_distributed. repeat preserves_step. Qed.

Hint Resolve calmer_stop_worker_loop calmer_print_stdout : core.

Lemma calmer_run_driver md p c : preserves calmer (run_driver env md p c).
Proof.
  unfold run_driver. apply preserves_try_except; auto.
  - apply preserves_bind; auto.
    intros [[rc out] err].
    destruct (negb (rc =? 0)).
    + repeat preserves_step.
    + destruct (extract_elapsed _) as [e | [t |]]; repeat preserves_step.
  - intros e h. destruct (is_TimeoutExpired e).
    + intros [= <-]. repeat preserves_step.
    + destruct (is_Exception e); intros [= <-].
      repeat preserves_step.
Qed.

Lemma calmer_open_file path mode : preserves calmer (open_file env path mode).
Proof.
  unfold open_file. repeat preserves_step.
  intros s. destruct (String.eqb mode "w"); apply calmer_quiet; simpl; auto.
Qed.

Lemma calmer_save_results : preserves calmer (save_results env).
Proof.
  unfold save_results.
  apply preserves_bind; auto.
  intros rs.
  assert (H : forall path l, preserves calmer (append_csv env path l)).
  { intros path l. unfold append_csv. destruct l; [repeat preserves_step |].
    apply preserves_bind; auto using calmer_open_file.
    intros _. apply preserves_for_each; auto. }
  repeat (apply preserves_bind; auto; intros _).
Qed.

Lemma calmer_setup_environment : preserves calmer (setup_environment env).
Proof. unfold setup_environment. repeat preserves_step. Qed.

End Handles.

#[local] Hint Resolve calmer_preorder keeps_track_preorder
  calmer_next_call calmer_emit calmer_print calmer_set_exited
  calmer_get_worker_processes calmer_append_result calmer_writerow
  calmer_time_sleep calmer_pkill_workers calmer_poll_exited
  calmer_communicate calmer_terminate calmer_wait calmer_kill
  calmer_subprocess_run calmer_stop_worker_loop calmer_print_stdout
  calmer_run_driver calmer_save_results calmer_setup_environment : core.

Section Tracking.

Context {PF : PyFloat}.
Variable env : Env.

Lemma track_of_calmer (A : Type) (m : M A) :
  preserves calmer m -> preserves keeps_track m.
Proof. apply preserves_weaken, calmer_keeps_track. Qed.

Hint Resolve track_of_calmer : core.

Lemma Popen_eq cmd s :
  Popen env cmd s
  = match on_popen env (tick s) with
    | Some e => (Raise e, set_tick (S (tick s)) s)
    | None =>
        (Ret (List.length (procs s)),
         set_trace (trace s ++ [EvPopen (List.length (procs s)) cmd])
           (set_procs (procs s ++ [true]) (set_tick (S (tick s)) s)))
    end.
Proof.
  unfold Popen, bind, next_call, answer. simpl.
  destruct (on_popen env (tick s)); reflexivity.
Qed.

(** A fresh worker is appended to the pool before anything else
    happens. *)
Lemma track_popen_append (B : Type) cmd (k : nat -> M B) :
  (forall w, preserves keeps_track (k w)) ->
  preserves keeps_track
    (bind (Popen env cmd) (fun w => bind (append_worker w) (fun _ => k w))).
Proof.
  intros Hk s. unfold bind at 1. rewrite Popen_eq.
  destruct (on_popen env (tick s)) as [e |].
  - simpl. split; simpl; auto.
  - unfold bind, append_worker. cbn [fst snd].
    match goal with
    | |- keeps_track _ (snd (k ?w ?mid)) =>
        apply (pre_trans keeps_track_preorder) with (s2 := mid);
          [| apply Hk]
    end.
    split; [| simpl; lia].
    intros Htr h. unfold running, pool. simpl.
    intros Hh.
    destruct (Nat.lt_ge_cases h (List.length (procs s))) as [Hlt | Hge].
    + rewrite app_nth1 in Hh by assumption.
      specialize (Htr h Hh). unfold pool in Htr.
      destruct (worker_processes s); [apply in_or_app; auto | contradiction].
    + assert (h = List.length (procs s)).
      { destruct (Nat.eq_dec h (List.length (procs s))); auto.
        rewrite nth_overflow in Hh; [discriminate |].
        rewrite length_app. simpl. lia. }
      subst h. destruct (worker_processes s);
        [apply in_or_app; right |]; simpl; auto.
Qed.

Lemma track_start_worker_loop indices :
  preserves keeps_track (start_worker_loop env indices).
Proof.
  induction indices as [| i rest IH]; cbn [start_worker_loop].
  - repeat preserves_step.
  - apply track_popen_append. intros w. repeat preserves_step.
Qed.

(** The pool start, entered with an empty pool. *)
Definition from_empty_pool (s s' : State) : Prop :=
  (tracked s -> pool s = [] -> tracked s') /\ (tick s <= tick s')%nat.

Lemma calmer_from_empty_pool s s' : calmer s s' -> from_empty_pool s s'.
Proof.
  intros H. destruct (calmer_keeps_track H) as (Htr & Ht). split; auto.
Qed.

Lemma calmer_then_from_empty_pool s1 s2 s3 :
  calmer s1 s2 -> from_empty_pool s2 s3 -> from_empty_pool s1 s3.
Proof.
  intros H12 (H23 & Ht). pose proof (calmer_keeps_track H12) as (Htr & Ht').
  destruct H12 as (Hw & _ & _).
  split; [| lia]. intros H1 Hp. apply H23; auto.
  unfold pool in *. rewrite Hw. exact Hp.
Qed.

Lemma track_start_worker : preserves from_empty_pool (start_worker env).
Proof.
  unfold start_worker.
  do 3 (eapply preserves_bind_then;
        [ exact calmer_from_empty_pool
        | exact calmer_then_from_empty_pool
        | solve [auto]
        | intros _ ]).
  eapply preserves_bind_then with
    (R1 := from_empty_pool) (R2 := keeps_track).
  - auto.
  - intros s1 s2 s3 (H12 & Ht) (H23 & Ht'). split; [auto | lia].
  - intros s. split; [| simpl; lia].
    intros Htr Hp h Hh. apply (Htr h) in Hh. rewrite Hp in Hh. contradiction.
  - intros _. apply track_start_worker_loop.
Qed.

Lemma no_workers_pool s : no_workers (worker_processes s) = true -> pool s = [].
Proof.
  unfold pool, no_workers.
  destruct (worker_processes s) as [[| h l] |]; auto; discriminate.
Qed.

Lemma track_run_simulation md p c :
  preserves keeps_track (run_simulation env md p c).
Proof.
  unfold run_simulation. destruct (is_distributed md); auto.
  intros s. unfold bind at 1, get_worker_processes. cbn [fst snd].
  destruct (no_workers (worker_processes s)) eqn:Hw.
  - unfold bind at 1.
    pose proof (track_start_worker s) as (Hstart & Ht).
    destruct (start_worker env s) as [[started | e |] s1]; cbn [fst snd] in *.
    + apply (pre_trans keeps_track_preorder) with (s2 := s1).
      * split; auto. intros Htr. apply Hstart; auto using no_workers_pool.
      * destruct started.
        -- apply track_of_calmer. auto.
        -- apply track_of_calmer. repeat preserves_step.
    + split; auto. intros Htr. apply Hstart; auto using no_workers_pool.
    + split; auto. intros Htr. apply Hstart; auto using no_workers_pool.
  - apply track_of_calmer. auto.
Qed.

Hint Resolve track_run_simulation : core.

Lemma track_run_repetitions md p c rs :
  forall times, preserves keeps_track (run_repetitions env md p c rs times).
Proof.
  induction rs as [| run rest IH]; intros times; cbn [run_repetitions].
  - repeat preserves_step.
  - apply preserves_bind; auto. intros [t |]; auto.
    apply preserves_bind; auto.
Qed.

Hint Resolve track_run_repetitions : core.

Lemma track_sweep_loop cfg md fuel :
  forall v, preserves keeps_track (sweep_loop env fuel cfg md v).
Proof.
  induction fuel as [| fuel IH]; intros v; cbn [sweep_loop];
    destruct (v <=? max_value cfg); repeat preserves_step.
Qed.

End Tracking.

#[local] Hint Resolve track_of_calmer track_run_simulation
  track_run_repetitions track_sweep_loop : core.

Section Teardown.

Context {PF : PyFloat}.
Variable env : Env.

(** One worker of the teardown loop: [terminate], [wait(timeout=5)],
    and [kill] when the wait timed out. *)
Definition stop_one (w : nat) : M unit :=
  bind (terminate w)
    (fun _ => try_except (wait env w 5)
                (fun e => if is_TimeoutExpired e then Some (kill w) else None)).

Lemma stop_worker_loop_cons w rest s :
  stop_worker_loop env (w :: rest) s
  = match stop_one w s with
    | (Ret _, s1) => stop_worker_loop env rest s1
    | (Raise e, s1) => (Raise e, s1)
    | (OutOfFuel, s1) => (OutOfFuel, s1)
    end.
Proof.
  cbn [stop_worker_loop]. unfold stop_one, bind, terminate, emit.
  cbn [fst snd].
  match goal with
  | |- context [try_except ?m ?h ?s0] =>
      destruct (try_except m h s0) as [[[] | e |] s1]
  end; reflexivity.
Qed.

(** The wait of a worker answers in time or times out. *)
Definition calm_wait (t : nat) : Prop :=
  on_wait env t = None \/ on_wait env t = Some TimeoutExpired.

Lemma stop_one_eq w s :
  stop_one w s
  = let s0 := set_trace ((trace s ++ [EvTerminate w]) ++ [EvWait w 5]) s in
    if running w s then
      match on_wait env (tick s) with
      | None =>
          (Ret tt,
           set_procs (mark_exited w (procs s)) (set_tick (S (tick s)) s0))
      | Some e =>
          if is_TimeoutExpired e then
            (Ret tt,
             set_procs (mark_exited w (procs s))
               (set_trace (trace s0 ++ [EvKill w])
                  (set_tick (S (tick s)) s0)))
          else (Raise e, set_tick (S (tick s)) s0)
      end
    else (Ret tt, s0).
Proof.
  unfold stop_one, bind, terminate, emit, try_except, wait, bind, emit,
    next_call, answer, set_exited, kill, bind, emit, set_exited, running,
    raise, ret.
  cbn [fst snd procs set_trace tick set_tick trace set_procs].
  destruct (nth w (procs s) false); [| reflexivity].
  destruct (on_wait env (tick s)) as [e |]; [| reflexivity].
  cbv iota beta. destruct (is_TimeoutExpired e); reflexivity.
Qed.

Lemma stop_one_spec w s :
  let r := stop_one w s in
  calmer s (snd r) /\
  (fst r = Ret tt -> running w (snd r) = false) /\
  (running w s = false ->
   fst r = Ret tt /\ trace (snd r) = trace s ++ [EvTerminate w; EvWait w 5]) /\
  (running w s = true -> on_wait env (tick s) = None ->
   fst r = Ret tt /\ trace (snd r) = trace s ++ [EvTerminate w; EvWait w 5]) /\
  (running w s = true -> on_wait env (tick s) = Some TimeoutExpired ->
   fst r = Ret tt /\
   trace (snd r) = trace s ++ [EvTerminate w; EvWait w 5; EvKill w]).
Proof.
  cbv zeta. split.
  { unfold stop_one. revert s. apply preserves_bind; auto.
    intros _. apply preserves_try_except; auto.
    intros e h. destruct (is_TimeoutExpired e); intros [= <-]. auto. }
  rewrite stop_one_eq. cbv zeta.
  destruct (running w s) eqn:Hrun.
  - destruct (on_wait env (tick s)) as [e |] eqn:Hw.
    + destruct (is_TimeoutExpired e) eqn:He; cbn [fst snd].
      * splits; try discriminate.
        -- intros _. unfold running. simpl.
           rewrite running_mark_exited, Nat.eqb_refl. reflexivity.
        -- intros _ _. simpl. rewrite <- !app_assoc. auto.
      * splits; try discriminate.
        intros _ [= ->]. discriminate.
    + cbn [fst snd]. splits; try discriminate.
      * intros _. unfold running. simpl.
        rewrite running_mark_exited, Nat.eqb_refl. reflexivity.
      * intros _ _. simpl. rewrite <- !app_assoc. auto.
  - cbn [fst snd]. splits; try discriminate; auto.
    intros _. simpl. rewrite <- !app_assoc. auto.
Qed.

Lemma stop_worker_loop_done ws :
  forall s,
    fst (stop_worker_loop env ws s) = Ret tt ->
    forall h, In h ws -> running h (snd (stop_worker_loop env ws s)) = false.
Proof.
  induction ws as [| w rest IH]; intros s Hret h Hin; [contradiction |].
  rewrite stop_worker_loop_cons in *.
  pose proof (stop_one_spec w s) as (_ & Hstop & _).
  destruct (stop_one w s) as [[[] | e |] s1]; cbn [fst snd] in *;
    try discriminate.
  destruct Hin as [<- | Hin]; [| apply IH; auto].
  pose proof (calmer_stop_worker_loop env rest s1) as (_ & _ & Hmono).
  destruct (running w (snd (stop_worker_loop env rest s1))) eqn:E; auto.
  apply Hmono in E. rewrite Hstop in E; auto.
Qed.

Lemma stop_worker_loop_calm ws :
  forall s,
    (forall t, (tick s <= t)%nat -> calm_wait t) ->
    fst (stop_worker_loop env ws s) = Ret tt.
Proof.
  induction ws as [| w rest IH]; intros s Hcalm; [reflexivity |].
  rewrite stop_worker_loop_cons.
  pose proof (stop_one_spec w s) as ((_ & Ht & _) & _ & Hoff & Hin & Hout).
  assert (Hret : fst (stop_one w s) = Ret tt).
  { destruct (running w s) eqn:Hrun.
    - destruct (Hcalm (tick s) (Nat.le_refl _)) as [Hw | Hw].
      + apply (Hin eq_refl Hw).
      + apply (Hout eq_refl Hw).
    - apply (Hoff eq_refl). }
  destruct (stop_one w s) as [[[] | e |] s1]; cbn [fst snd] in *;
    try discriminate.
  apply IH. intros t Hle. apply Hcalm. lia.
Qed.

(** The teardown loop signals every worker it is given, and kills only
    workers it was given. *)
Lemma stop_worker_loop_events ws :
  forall s, exists l,
    trace (snd (stop_worker_loop env ws s)) = trace s ++ l /\
    (fst (stop_worker_loop env ws s) = Ret tt ->
     forall h, In h ws -> In (EvTerminate h) l /\ In (EvWait h 5) l) /\
    (forall h, In (EvKill h) l -> In h ws).
Proof.
  induction ws as [| w rest IH]; intros s.
  - exists []. simpl. rewrite app_nil_r. splits; auto; contradiction.
  - rewrite stop_worker_loop_cons.
    assert (Hone : exists l1,
               trace (snd (stop_one w s)) = trace s ++ l1 /\
               (fst (stop_one w s) = Ret tt ->
                In (EvTerminate w) l1 /\ In (EvWait w 5) l1) /\
               (forall h, In (EvKill h) l1 -> h = w)).
    { rewrite stop_one_eq. cbv zeta.
      destruct (running w s).
      - destruct (on_wait env (tick s)) as [e |].
        + destruct (is_TimeoutExpired e); cbn [fst snd].
          * exists [EvTerminate w; EvWait w 5; EvKill w].
            simpl. rewrite <- !app_assoc. simpl. splits; auto.
            intros h [H | [H | [H | []]]]; congruence.
          * exists [EvTerminate w; EvWait w 5].
            simpl. rewrite <- !app_assoc. simpl. splits; auto.
            intros h [H | [H | []]]; congruence.
        + exists [EvTerminate w; EvWait w 5]. cbn [fst snd].
          simpl. rewrite <- !app_assoc. simpl. splits; auto.
          intros h [H | [H | []]]; congruence.
      - exists [EvTerminate w; EvWait w 5]. cbn [fst snd].
        simpl. rewrite <- !app_assoc. simpl. splits; auto.
        intros h [H | [H | []]]; congruence. }
    destruct Hone as (l1 & Ht1 & Hsig & Hkill).
    destruct (stop_one w s) as [[[] | e |] s1]; cbn [fst snd] in *.
    + destruct (IH s1) as (l2 & Ht2 & Hsig2 & Hkill2).
      exists (l1 ++ l2). splits.
      * rewrite Ht2, Ht1, app_assoc. reflexivity.
      * intros Hret h [<- | Hin].
        -- destruct (Hsig eq_refl). split; apply in_or_app; auto.
        -- destruct (Hsig2 Hret h Hin). split; apply in_or_app; auto.
      * intros h Hin. apply in_app_or in Hin. destruct Hin as [Hin | Hin].
        -- left. symmetry. auto.
        -- right. auto.
    + exists l1. splits; auto; try discriminate.
      intros h Hin. left. symmetry. auto.
    + exists l1. splits; auto; try discriminate.
      intros h Hin. left. symmetry. auto.
Qed.

Lemma stop_worker_eq s :
  stop_worker env s
  = match worker_processes s with
    | Some (h :: ws) =>
        match stop_worker_loop env (h :: ws)
                (said (MsgText "Stopping all 4 worker nodes...") s) with
        | (Ret _, s1) => pkill_workers env (set_worker_processes (Some []) s1)
        | (Raise e, s1) => (Raise e, s1)
        | (OutOfFuel, s1) => (OutOfFuel, s1)
        end
    | _ => pkill_workers env s
    end.
Proof.
  unfold stop_worker. unfold bind at 1, get_worker_processes. cbn [fst snd].
  destruct (worker_processes s) as [[| h ws] |]; try reflexivity.
  unfold bind at 1. unfold bind at 1. unfold print, emit. cbn [fst snd].
  unfold bind at 1. unfold said.
  destruct (stop_worker_loop env (h :: ws) _) as [[[] | e |] s1]; reflexivity.
Qed.

Lemma track_stop_worker : preserves keeps_track (stop_worker env).
Proof.
  intros s. rewrite stop_worker_eq.
  destruct (worker_processes s) as [[| h ws] |] eqn:Hw;
    try (apply track_of_calmer; auto).
  set (s0 := said (MsgText "Stopping all 4 worker nodes...") s).
  pose proof (calmer_stop_worker_loop env (h :: ws) s0) as Hc.
  pose proof (stop_worker_loop_done (h :: ws) s0) as Hdone.
  assert (H0 : calmer s s0) by (apply calmer_quiet; simpl; auto).
  destruct (stop_worker_loop env (h :: ws) s0) as [[[] | e |] s1];
    cbn [fst snd] in *;
    try (apply calmer_keeps_track;
         apply (pre_trans calmer_preorder) with (s2 := s0); auto; fail).
  apply (pre_trans keeps_track_preorder)
    with (s2 := set_worker_processes (Some []) s1);
    [| apply track_of_calmer; auto].
  destruct (pre_trans calmer_preorder _ _ _ H0 Hc) as (Hw1 & Ht & Hmono).
  split; [| simpl; lia].
  intros Htr k Hk. unfold running in *. simpl in Hk.
  assert (Hin : In k (h :: ws)).
  { specialize (Htr k (Hmono k Hk)). unfold pool in Htr.
    rewrite Hw in Htr. exact Htr. }
  rewrite (Hdone eq_refl k Hin) in Hk. discriminate.
Qed.

(** The teardown when no wait is interrupted: nothing is left running
    and the pool is empty. *)
Lemma stop_worker_all_stopped s :
  tracked s ->
  (forall t, (tick s <= t)%nat -> calm_wait t) ->
  all_stopped (snd (stop_worker env s)) /\
  no_workers (worker_processes (snd (stop_worker env s))) = true.
Proof.
  intros Htr Hcalm. rewrite stop_worker_eq.
  destruct (worker_processes s) as [[| h ws] |] eqn:Hw.
  - pose proof (calmer_pkill_workers env s) as (Hw' & _ & Hmono).
    split.
    + intros k. destruct (running k (snd (pkill_workers env s))) eqn:E; auto.
      apply Hmono, Htr in E. unfold pool in E. rewrite Hw in E. contradiction.
    + rewrite Hw', Hw. reflexivity.
  - set (s0 := said (MsgText "Stopping all 4 worker nodes...") s).
    pose proof (calmer_stop_worker_loop env (h :: ws) s0) as (Hw1 & Ht1 & Hm1).
    pose proof (stop_worker_loop_done (h :: ws) s0) as Hdone.
    pose proof (stop_worker_loop_calm (h :: ws) s0 Hcalm) as Hret.
    destruct (stop_worker_loop env (h :: ws) s0) as [[[] | e |] s1];
      cbn [fst snd] in *; try discriminate.
    pose proof (calmer_pkill_workers env (set_worker_processes (Some []) s1))
      as (Hw' & _ & Hmono).
    split.
    + intros k.
      destruct (running k (snd (pkill_workers env
                                  (set_worker_processes (Some []) s1)))) eqn:E;
        auto.
      apply Hmono in E. change (running k s1 = true) in E.
      assert (Hin : In k (h :: ws)).
      { specialize (Htr k (Hm1 k E)). unfold pool in Htr.
        rewrite Hw in Htr. exact Htr. }
      rewrite (Hdone eq_refl k Hin) in E. discriminate.
    + rewrite Hw'. reflexivity.
  - pose proof (calmer_pkill_workers env s) as (Hw' & _ & Hmono).
    split.
    + intros k. destruct (running k (snd (pkill_workers env s))) eqn:E; auto.
      apply Hmono, Htr in E. unfold pool in E. rewrite Hw in E. contradiction.
    + rewrite Hw', Hw. reflexivity.
Qed.

End Teardown.

#[local] Hint Resolve track_stop_worker : core.

#[local] Hint Resolve total_ret total_raise total_answer total_next_call
  total_emit total_print total_set_exited total_put_worker_processes
  total_append_worker total_append_result total_get_worker_processes
  total_time_sleep total_pkill_workers total_stop_worker
  total_run_repetitions : core.

(* ================================================================= *)
(** ** The whole run *)

Section WholeRun.

Context {PF : PyFloat}.
Variable env : Env.

Lemma sweep_modes_enough cfg fuel modes :
  0 < increment cfg ->
  max_value cfg < starting cfg + Z.of_nat fuel * increment cfg ->
  total (sweep_modes env fuel cfg modes).
Proof.
  intros Hi Hfuel. induction modes as [| md rest IH]; cbn [sweep_modes]; auto.
  apply total_bind.
  - intros s. apply sweep_loop_enough; auto.
  - intros _. apply total_bind; auto.
    destruct (is_distributed md); auto.
    apply total_bind; auto.
Qed.

Lemma total_save_results : total (save_results env).
Proof.
  unfold save_results. apply total_bind.
  - intros s. discriminate.
  - intros rs.
    assert (H : forall path l, total (append_csv env path l)).
    { intros path l. unfold append_csv. destruct l; auto.
      apply total_bind.
      - unfold open_file. apply total_bind; auto. intros t.
        apply total_bind; auto. intros _ s. discriminate.
      - intros _. apply total_for_each. intros x s. discriminate. }
    repeat (apply total_bind; auto; intros _).
Qed.

Lemma total_setup_environment : total (setup_environment env).
Proof.
  unfold setup_environment. apply total_bind; auto. intros _.
  destruct (jar_exists env); auto.
  repeat (apply total_bind; auto; intros _).
Qed.

Lemma run_all_tests_guarded_enough fuel :
  (20 <= fuel)%nat -> total (run_all_tests_guarded env fuel).
Proof.
  intros Hfuel. unfold run_all_tests_guarded.
  apply total_try_except.
  - apply total_bind; [apply total_setup_environment | intros _].
    apply total_bind.
    { unfold fixed_particles_test.
      apply sweep_modes_enough; cbn [FIXED_PARTICLES_TEST increment
        max_value starting]; lia. }
    intros _. apply total_bind.
    { unfold fixed_cycles_test.
      apply sweep_modes_enough; cbn [FIXED_CYCLES_TEST increment
        max_value starting]; lia. }
    intros _. apply total_bind; auto using total_save_results.
  - intros e h. destruct e; simpl; intros [= <-]; auto.
Qed.

Lemma track_sweep_modes cfg fuel modes :
  preserves keeps_track (sweep_modes env fuel cfg modes).
Proof.
  induction modes as [| md rest IH]; cbn [sweep_modes].
  - repeat preserves_step.
  - apply preserves_bind; auto. intros _.
    apply preserves_bind; auto.
    destruct (is_distributed md); repeat preserves_step.
Qed.

Lemma track_run_all_tests_guarded fuel :
  preserves keeps_track (run_all_tests_guarded env fuel).
Proof.
  unfold run_all_tests_guarded.
  apply preserves_try_except; auto.
  - apply preserves_bind; auto. intros _.
    apply preserves_bind; auto.
    { unfold fixed_particles_test. apply track_sweep_modes. }
    intros _. apply preserves_bind; auto.
    { unfold fixed_cycles_test. apply track_sweep_modes. }
    intros _. apply preserves_bind; auto.
  - intros e h. destruct e; simpl; intros [= <-]; auto.
Qed.

Lemma stop_worker_never_started s :
  no_workers (worker_processes s) = true ->
  stop_worker env s = pkill_workers env s.
Proof.
  intros Hw. rewrite stop_worker_eq.
  destruct (worker_processes s) as [[| h ws] |]; auto; discriminate.
Qed.


End WholeRun.

(* ================================================================= *)
(** ** The worker pool after a failed start *)

Section PoolClaims.

Context {PF : PyFloat}.
Variable env : Env.

(** What the start loop leaves in the pool: one more handle per index
    when it succeeds, at least one more handle when a probe fails. *)
Lemma start_worker_loop_pool indices :
  forall s l r,
    worker_processes s = Some l ->
    start_worker_loop env indices s = r ->
    exists hs,
      (fst r = Ret true ->
       worker_processes (snd r) = Some (l ++ hs)
       /\ List.length hs = List.length indices)
      /\ (fst r = Ret false ->
          worker_processes (snd r) = Some (l ++ hs) /\ hs <> []).
Proof.
  induction indices as [| i rest IH]; intros s l r Hl Hr;
    cbn [start_worker_loop] in Hr.
  - exists [].
    assert (Hc : preserves calmer
              (bind (print (MsgText
                 "All 4 workers started, waiting for initialization..."))
                 (fun _ => bind (time_sleep env 4) (fun _ => ret true)))).
    { repeat preserves_step. }
    destruct (Hc s) as (Hw & _). rewrite Hr in Hw.
    rewrite app_nil_r. split.
    + intros _. split; [congruence | reflexivity].
    + subst r.
      unfold bind, print, emit, time_sleep, bind, next_call, answer.
      cbn [fst snd tick set_trace].
      destruct (on_sleep env (tick s)); discriminate.
  - unfold bind at 1 in Hr. rewrite Popen_eq in Hr.
    destruct (on_popen env (tick s)) as [e |].
    { subst r. exists []. split; discriminate. }
    unfold bind at 1 in Hr. unfold append_worker at 1 in Hr.
    cbn [fst snd] in Hr.
    match type of Hr with
    | bind (time_sleep env ?q) ?k ?s2 = _ =>
        set (mid := s2) in Hr;
        assert (Hmid : worker_processes mid
                       = Some (l ++ [List.length (procs s)]))
          by (subst mid; simpl; rewrite Hl; reflexivity);
        clearbody mid
    end.
    unfold bind at 1 in Hr.
    pose proof (calmer_time_sleep env (1 # 2) mid) as (Hw1 & _).
    destruct (time_sleep env (1 # 2) mid) as [[[] | e |] s3];
      cbn [fst snd] in *; try (subst r; exists []; split; discriminate).
    unfold bind at 1 in Hr.
    pose proof (calmer_poll_exited env (List.length (procs s)) s3) as (Hw2 & _).
    destruct (poll_exited env (List.length (procs s)) s3)
      as [[exited | e |] s4];
      cbn [fst snd] in *; try (subst r; exists []; split; discriminate).
    destruct exited.
    + exists [List.length (procs s)].
      match type of Hr with
      | bind (communicate env ?w) ?k s4 = _ =>
          assert (Hc : preserves calmer (bind (communicate env w) k))
            by (repeat preserves_step);
          destruct (Hc s4) as (Hw3 & _)
      end.
      rewrite Hr in Hw3. split.
      * subst r. unfold bind, communicate, bind, next_call, print, emit.
        cbn [fst snd]. discriminate.
      * intros _. split; [congruence | discriminate].
    + assert (Hl4 : worker_processes s4 = Some (l ++ [List.length (procs s)]))
        by congruence.
      destruct (IH s4 _ r Hl4 Hr) as (hs & Hok & Hbad).
      exists (List.length (procs s) :: hs). split.
      * intros Hret. destruct (Hok Hret) as (Hp & Hlen).
        rewrite Hp, <- app_assoc. simpl. auto.
      * intros Hret. destruct (Hbad Hret) as (Hp & Hne).
        rewrite Hp, <- app_assoc. simpl. split; [auto | discriminate].
Qed.

Lemma start_worker_eq s :
  start_worker env s
  = match pkill_workers env s with
    | (Ret _, s1) =>
        match time_sleep env 1 s1 with
        | (Ret _, s2) =>
            start_worker_loop env (range 4)
              (set_worker_processes (Some [])
                 (said (MsgText "Starting 4 worker nodes...") s2))
        | (Raise e, s2) => (Raise e, s2)
        | (OutOfFuel, s2) => (OutOfFuel, s2)
        end
    | (Raise e, s1) => (Raise e, s1)
    | (OutOfFuel, s1) => (OutOfFuel, s1)
    end.
Proof.
  unfold start_worker. unfold bind at 1.
  destruct (pkill_workers env s) as [[[] | e |] s1]; reflexivity.
Qed.

(** A pool that started holds four workers; a pool whose start failed
    at a liveness probe is left non-empty. *)
Lemma start_worker_pool s :
  (fst (start_worker env s) = Ret true ->
   exists hs, worker_processes (snd (start_worker env s)) = Some hs
              /\ List.length hs = 4%nat)
  /\ (fst (start_worker env s) = Ret false ->
      no_workers (worker_processes (snd (start_worker env s))) = false).
Proof.
  rewrite start_worker_eq.
  destruct (pkill_workers env s) as [[[] | e |] s1];
    try (split; discriminate).
  destruct (time_sleep env 1 s1) as [[[] | e |] s2];
    try (split; discriminate).
  match goal with
  | |- context [start_worker_loop env (range 4) ?s3] =>
      destruct (@start_worker_loop_pool (range 4) s3 [] _ eq_refl eq_refl)
        as (hs & Hok & Hbad)
  end.
  split.
  - intros Hret. destruct (Hok Hret) as (Hp & Hlen).
    exists hs. split; auto.
  - intros Hret. destruct (Hbad Hret) as (Hp & Hne).
    rewrite Hp. simpl. destruct hs; [congruence | reflexivity].
Qed.

(** After a failed start the next distributed trial finds the pool
    non-empty and goes straight to the driver. *)
Lemma failed_start_is_not_retried p c s :
  no_workers (worker_processes s) = true ->
  fst (start_worker env s) = Ret false ->
  fst (run_simulation env "distributed" p c s) = Ret None
  /\ forall p' c',
       run_simulation env "distributed" p' c'
         (snd (start_worker env s))
       = run_driver env "distributed" p' c' (snd (start_worker env s)).
Proof.
  intros Hw Hret. split.
  - unfold run_simulation.
    change (is_distributed "distributed") with true. cbv iota.
    unfold bind at 1. unfold get_worker_processes at 1.
    cbv iota beta. rewrite Hw.
    unfold bind at 1.
    destruct (start_worker env s) as [[[|] | e |] s1]; cbn [fst] in *;
      try discriminate.
    reflexivity.
  - intros p' c'. apply run_simulation_driver.
    destruct (start_worker_pool s) as (_ & Hbad).
    rewrite (Hbad Hret). apply andb_false_r.
Qed.

End PoolClaims.

(* ================================================================= *)
(** ** One trial and the pool *)

Section TrialEffects.

Context {PF : PyFloat}.
Variable env : Env.

Definition print_event (e : event) : Prop :=
  match e with
  | EvPrint _ => True
  | _ => False
  end.

(** A step that only writes to the console. *)
Definition only_prints (s s' : State) : Prop :=
  tick s' = tick s /\ procs s' = procs s /\
  worker_processes s' = worker_processes s /\
  results s' = results s /\ files s' = files s /\
  exists l, trace s' = trace s ++ l /\ Forall print_event l.

Lemma only_prints_preorder : preorder only_prints.
Proof.
  split.
  - intros s. unfold only_prints. splits; auto.
    exists []. split; [symmetry; apply app_nil_r | constructor].
  - intros s1 s2 s3 (Ht1 & Hp1 & Hw1 & Hr1 & Hf1 & l1 & Hl1 & Ha1)
      (Ht2 & Hp2 & Hw2 & Hr2 & Hf2 & l2 & Hl2 & Ha2).
    unfold only_prints. splits; try congruence.
    exists (l1 ++ l2). split.
    + rewrite Hl2, Hl1. symmetry. apply app_assoc.
    + apply Forall_app. split; assumption.
Qed.

Hint Resolve only_prints_preorder : core.

Lemma only_prints_print m : preserves only_prints (print m).
Proof.
  intros s. unfold only_prints; simpl. splits; auto.
  exists [EvPrint m]. split; [reflexivity | repeat constructor].
Qed.

Hint Resolve only_prints_print : core.

Lemma only_prints_print_stdout md out :
  preserves only_prints (print_stdout_if_distributed md out).
Proof. unfold print_stdout_if_distributed. repeat preserves_step. Qed.

Hint Resolve only_prints_print_stdout : core.

Lemma try_except_bind (A B : Type) (m : M A) (k : A -> M B)
  (h : exn -> option (M B)) s :
  try_except (bind m k) h s
  = match m s with
    | (Ret a, s1) => try_except (k a) h s1
    | (Raise e, s1) =>
        match h e with
        | Some handler => handler s1
        | None => (Raise e, s1)
        end
    | (OutOfFuel, s1) => (OutOfFuel, s1)
    end.
Proof.
  unfold try_except, bind. destruct (m s) as [[a | e |] s1]; reflexivity.
Qed.

(** After the launch of the driver, the [try] statement only prints. *)
Lemma run_driver_after_launch md p c s :
  only_prints
    (set_tick (S (tick s))
       (set_trace (trace s ++ [EvRun (driver_cmd md p c) 300]) s))
    (snd (run_driver env md p c s)).
Proof.
  unfold run_driver. rewrite try_except_bind, subprocess_run_eq. cbv zeta.
  destruct (on_run env (tick s)) as [e | [[rc out] err]].
  - destruct (is_TimeoutExpired e).
    + apply preserves_bind; auto. intros _. apply preserves_ret; auto.
    + destruct (is_Exception e).
      * apply preserves_bind; auto. intros _. apply preserves_ret; auto.
      * apply (pre_refl only_prints_preorder).
  - apply preserves_try_except; auto.
    + destruct (negb (rc =? 0)).
      * repeat preserves_step.
      * destruct (extract_elapsed _) as [e | [t |]]; repeat preserves_step.
    + intros e h. destruct (is_TimeoutExpired e).
      * intros [= <-]. repeat preserves_step.
      * destruct (is_Exception e); intros [= <-]. repeat preserves_step.
Qed.

(** X3.  A trial that does not have to start the pool (any mode but the
    distributed one, or a pool that is not empty) launches the driver
    exactly once, with the command line of its mode and a timeout of
    300 seconds, and asks nothing else of the operating system.
    Whatever the driver does (timeout, nonzero exit, garbage output),
    no worker is started, signalled or stopped, the pool, the results
    and the files are unchanged, and everything after the launch is
    console output. *)
Theorem trial_only_launches_driver (md : string) (p c : Z) (s : State) :
  is_distributed md && no_workers (worker_processes s) = false ->
  tick (snd (run_simulation env md p c s)) = S (tick s)
  /\ procs (snd (run_simulation env md p c s)) = procs s
  /\ worker_processes (snd (run_simulation env md p c s))
     = worker_processes s
  /\ results (snd (run_simulation env md p c s)) = results s
  /\ files (snd (run_simulation env md p c s)) = files s
  /\ exists l,
       trace (snd (run_simulation env md p c s))
       = trace s ++ EvRun (driver_cmd md p c) 300 :: l
       /\ Forall print_event l.
Proof.
  intros Hpool. rewrite (run_simulation_driver env md p c s Hpool).
  destruct (run_driver_after_launch md p c s)
    as (Ht & Hp & Hw & Hr & Hf & l & Hl & Ha).
  simpl in Ht, Hp, Hw, Hr, Hf, Hl.
  splits; auto.
  exists l. split; auto. rewrite Hl, <- app_assoc. reflexivity.
Qed.

End TrialEffects.

(* ================================================================= *)
(** ** The life of the pool *)

Section PoolLife.

Context {PF : PyFloat}.
Variable env : Env.

(** A step that starts and stops nothing. *)
Definition same_workers (s s' : State) : Prop :=
  procs s' = procs s /\ worker_processes s' = worker_processes s.

Lemma same_workers_preorder : preorder same_workers.
Proof.
  split.
  - intros s. split; reflexivity.
  - intros s1 s2 s3 (Hp1 & Hw1) (Hp2 & Hw2). split; congruence.
Qed.

Hint Resolve same_workers_preorder : core.

Lemma same_workers_next_call : preserves same_workers next_call.
Proof. intros s. split; reflexivity. Qed.

Lemma same_workers_emit e : preserves same_workers (emit e).
Proof. intros s. split; reflexivity. Qed.

Lemma same_workers_print m : preserves same_workers (print m).
Proof. apply same_workers_emit. Qed.

Hint Resolve same_workers_next_call same_workers_emit same_workers_print
  : core.

Lemma same_workers_time_sleep q : preserves same_workers (time_sleep env q).
Proof. unfold time_sleep. repeat preserves_step. Qed.

Lemma same_workers_pkill : preserves same_workers (pkill_workers env).
Proof. unfold pkill_workers. repeat preserves_step. Qed.

Lemma poll_exited_eq h s :
  poll_exited env h s
  = if running h s then
      if on_poll env (tick s)
      then (Ret false, set_tick (S (tick s)) s)
      else (Ret true,
            set_procs (mark_exited h (procs s)) (set_tick (S (tick s)) s))
    else (Ret true, s).
Proof.
  unfold poll_exited. destruct (running h s); [| reflexivity].
  unfold bind, next_call, set_exited, ret. cbn [fst snd tick].
  destruct (on_poll env (tick s)); reflexivity.
Qed.

(** When the start loop succeeds, the pool has gained one fresh handle
    per index, and all of them are running. *)
Lemma start_worker_loop_fresh indices :
  forall s l r,
    worker_processes s = Some l ->
    start_worker_loop env indices s = r ->
    fst r = Ret true ->
    worker_processes (snd r)
    = Some (l ++ seq (List.length (procs s)) (List.length indices))
    /\ procs (snd r) = procs s ++ repeat true (List.length indices).
Proof.
  induction indices as [| i rest IH]; intros s l r Hl Hr Hret;
    cbn [start_worker_loop] in Hr.
  - assert (Hc : preserves same_workers
              (bind (print (MsgText
                 "All 4 workers started, waiting for initialization..."))
                 (fun _ => bind (time_sleep env 4) (fun _ => ret true)))).
    { repeat preserves_step; try apply same_workers_time_sleep. }
    destruct (Hc s) as (Hp & Hw). rewrite Hr in Hp, Hw.
    simpl. rewrite !app_nil_r. split; congruence.
  - unfold bind at 1 in Hr. rewrite Popen_eq in Hr.
    destruct (on_popen env (tick s)) as [e |].
    { subst r. discriminate. }
    unfold bind at 1 in Hr. unfold append_worker at 1 in Hr.
    cbn [fst snd] in Hr.
    match type of Hr with
    | bind (time_sleep env ?q) ?k ?s2 = _ =>
        set (mid := s2) in Hr;
        assert (Hmid : worker_processes mid
                       = Some (l ++ [List.length (procs s)])
                       /\ procs mid = procs s ++ [true])
          by (subst mid; simpl; rewrite Hl; split; reflexivity);
        clearbody mid
    end.
    destruct Hmid as (Hmw & Hmp).
    unfold bind at 1 in Hr.
    pose proof (same_workers_time_sleep (1 # 2) mid) as (Hp1 & Hw1).
    destruct (time_sleep env (1 # 2) mid) as [[[] | e |] s3];
      cbn [fst snd] in *; try (subst r; discriminate).
    unfold bind at 1 in Hr. rewrite poll_exited_eq in Hr.
    destruct (running (List.length (procs s)) s3).
    + destruct (on_poll env (tick s3)).
      * cbv iota beta in Hr.
        destruct (IH (set_tick (S (tick s3)) s3)
                    (l ++ [List.length (procs s)]) r) as (Hw & Hp); auto.
        { simpl. congruence. }
        simpl in Hw, Hp. rewrite Hw, Hp, Hp1, Hmp, <- !app_assoc.
        rewrite length_app. simpl.
        rewrite Nat.add_1_r. split; reflexivity.
      * exfalso. subst r. revert Hret.
        unfold bind, communicate, bind, next_call, print, emit.
        cbn [fst snd]. discriminate.
    + exfalso. subst r. revert Hret.
      unfold bind, communicate, bind, next_call, print, emit.
      cbn [fst snd]. discriminate.
Qed.

Lemma nth_app_repeat_true (p : list bool) (k h : nat) :
  (List.length p <= h < List.length p + k)%nat ->
  nth h (p ++ repeat true k) false = true.
Proof.
  intros Hh. rewrite app_nth2 by lia.
  apply nth_repeat_lt. lia.
Qed.

(** X1.  When [start_worker] returns [True], [self.worker_processes]
    is exactly the four handles it has just spawned, in the order of
    their start, whatever the list held before: four processes were
    spawned, none of them was in the list before, and each was found
    running at its probe.  No process that existed before is started
    again.  (What the pattern kill at the beginning of [start_worker]
    does to workers that existed before is not stated: a worker counts
    as running until the tester itself sees or causes its exit.) *)
Theorem started_pool_is_four_fresh_workers (s : State) :
  fst (start_worker env s) = Ret true ->
  worker_processes (snd (start_worker env s))
  = Some (seq (List.length (procs s)) 4)
  /\ List.length (procs (snd (start_worker env s)))
     = (List.length (procs s) + 4)%nat
  /\ (forall h, In h (pool (snd (start_worker env s))) ->
                (List.length (procs s) <= h)%nat
                /\ running h (snd (start_worker env s)) = true)
  /\ (forall h, (h < List.length (procs s))%nat ->
                running h (snd (start_worker env s)) = true ->
                running h s = true).
Proof.
  intros Hret.
  assert (H : worker_processes (snd (start_worker env s))
              = Some (seq (List.length (procs s)) 4)
              /\ procs (snd (start_worker env s))
                 = procs s ++ repeat true 4).
  { revert Hret. rewrite start_worker_eq.
    pose proof (same_workers_pkill s) as (Hp1 & _).
    destruct (pkill_workers env s) as [[[] | e |] s1]; try discriminate.
    pose proof (same_workers_time_sleep 1 s1) as (Hp2 & _).
    destruct (time_sleep env 1 s1) as [[[] | e |] s2]; try discriminate.
    cbn [fst snd] in *. intros Hret.
    match type of Hret with
    | fst (start_worker_loop env (range 4) ?s3) = _ =>
        pose proof (@start_worker_loop_fresh (range 4) s3 [] _ eq_refl
                      eq_refl Hret) as H0
    end.
    change (List.length (range 4)) with 4%nat in H0. cbn [app] in H0.
    change (procs (set_worker_processes (Some [])
                     (said (MsgText "Starting 4 worker nodes...") s2)))
      with (procs s2) in H0.
    rewrite Hp2, Hp1 in H0. exact H0. }
  destruct H as (Hw & Hp). splits; auto.
  - rewrite Hp, length_app, repeat_length. reflexivity.
  - intros h Hin. unfold pool in Hin. rewrite Hw in Hin.
    apply in_seq in Hin. split; [lia |]. unfold running. rewrite Hp.
    apply nth_app_repeat_true. lia.
  - intros h Hh. unfold running. rewrite Hp, app_nth1 by exact Hh. auto.
Qed.

(** The teardown loop leaves the pool list alone. *)
Lemma stop_worker_ret s :
  fst (stop_worker env s) = Ret tt ->
  no_workers (worker_processes (snd (stop_worker env s))) = true
  /\ (forall h, In h (pool s) -> running h (snd (stop_worker env s)) = false)
  /\ (forall h, running h (snd (stop_worker env s)) = true ->
                running h s = true).
Proof.
  rewrite stop_worker_eq. unfold pool.
  destruct (worker_processes s) as [[| w ws] |] eqn:Hw.
  - pose proof (calmer_pkill_workers env s) as (Hw' & _ & Hmono).
    intros _. rewrite Hw', Hw. splits; auto. intros h [].
  - set (s0 := said (MsgText "Stopping all 4 worker nodes...") s).
    pose proof (calmer_stop_worker_loop env (w :: ws) s0) as (_ & _ & Hm1).
    pose proof (stop_worker_loop_done env (w :: ws) s0) as Hdone.
    destruct (stop_worker_loop env (w :: ws) s0) as [[[] | e |] s1];
      cbn [fst snd] in *; try discriminate.
    pose proof (calmer_pkill_workers env (set_worker_processes (Some []) s1))
      as (Hw' & _ & Hmono).
    intros _. rewrite Hw'. splits; auto.
    + intros h Hin.
      destruct (running h (snd (pkill_workers env
                                  (set_worker_processes (Some []) s1)))) eqn:E;
        auto.
      apply Hmono in E. change (running h s1 = true) in E.
      rewrite (Hdone eq_refl h Hin) in E. discriminate.
    + intros h E. apply Hmono in E. change (running h s1 = true) in E.
      apply Hm1 in E. exact E.
  - pose proof (calmer_pkill_workers env s) as (Hw' & _ & Hmono).
    intros _. rewrite Hw', Hw. splits; auto. intros h [].
Qed.

(** X2.  When [stop_worker] returns, the pool list is empty, no handle
    that was in it is running any more, no other process has been
    started, and calling [stop_worker] again does nothing but the
    pattern kill: no handle is signalled twice. *)
Theorem stop_worker_empties_the_pool (s : State) :
  fst (stop_worker env s) = Ret tt ->
  no_workers (worker_processes (snd (stop_worker env s))) = true
  /\ (forall h, In h (pool s) -> running h (snd (stop_worker env s)) = false)
  /\ (forall h, running h (snd (stop_worker env s)) = true ->
                running h s = true)
  /\ stop_worker env (snd (stop_worker env s))
     = pkill_workers env (snd (stop_worker env s)).
Proof.
  intros Hret. destruct (stop_worker_ret s Hret) as (Hnone & Hstop & Hmono).
  splits; auto.
  apply stop_worker_never_started. exact Hnone.
Qed.

Lemma sweep_modes_distributed fuel cfg s :
  sweep_modes env fuel cfg ["distributed"] s
  = match sweep_loop env fuel cfg "distributed" (starting cfg) s with
    | (Ret _, s1) =>
        match stop_worker env s1 with
        | (Ret _, s2) => time_sleep env 2 s2
        | (Raise e, s2) => (Raise e, s2)
        | (OutOfFuel, s2) => (OutOfFuel, s2)
        end
    | (Raise e, s1) => (Raise e, s1)
    | (OutOfFuel, s1) => (OutOfFuel, s1)
    end.
Proof.
  cbn [sweep_modes]. change (is_distributed "distributed") with true.
  cbv iota. unfold bind at 1.
  destruct (sweep_loop env fuel cfg "distributed" (starting cfg) s)
    as [[[] | e |] s1]; try reflexivity.
  unfold bind at 1. unfold bind at 1.
  destruct (stop_worker env s1) as [[[] | e |] s2]; try reflexivity.
  destruct (time_sleep env 2 s2) as [[[] | e |] s3]; reflexivity.
Qed.

(** X11.  A test that returns has torn its pool down: starting with
    every running worker held in the pool, when [fixed_particles_test]
    or [fixed_cycles_test] (the sweep of the distributed mode followed
    by [stop_worker]) returns, nothing is running and the pool list is
    empty, so the next test starts a pool of its own. *)
Theorem finished_test_leaves_no_pool (fuel : nat) (cfg : config) (s : State) :
  tracked s ->
  fst (sweep_modes env fuel cfg ["distributed"] s) = Ret tt ->
  all_stopped (snd (sweep_modes env fuel cfg ["distributed"] s))
  /\ no_workers
       (worker_processes (snd (sweep_modes env fuel cfg ["distributed"] s)))
     = true.
Proof.
  intros Htr. rewrite sweep_modes_distributed.
  pose proof (track_sweep_loop env cfg "distributed" fuel (starting cfg) s)
    as (Hkeep & _).
  destruct (sweep_loop env fuel cfg "distributed" (starting cfg) s)
    as [[[] | e |] s1]; try discriminate.
  cbn [snd] in Hkeep. specialize (Hkeep Htr).
  pose proof (stop_worker_ret s1) as Hstop.
  destruct (stop_worker env s1) as [[[] | e |] s2]; try discriminate.
  cbn [fst snd] in Hstop.
  destruct (Hstop eq_refl) as (Hnone & Hpool & Hmono).
  pose proof (calmer_time_sleep env 2 s2) as (Hw & _ & Hm).
  intros _. split.
  - intros h.
    destruct (running h (snd (time_sleep env 2 s2))) eqn:E; auto.
    apply Hm in E. pose proof (Hmono h E) as E1.
    rewrite (Hpool h (Hkeep h E1)) in E. discriminate.
  - rewrite Hw. exact Hnone.
Qed.


End PoolLife.

(* ================================================================= *)
(** ** How often the driver is launched *)

Section LaunchCount.

Context {PF : PyFloat}.
Variable env : Env.

(** A step that extends the trace, with at most [k] driver launches. *)
Definition launches_within (k : nat) (s s' : State) : Prop :=
  exists l, trace s' = trace s ++ l /\ (List.length (launches l) <= k)%nat.

Lemma launches_within_trans j k s1 s2 s3 :
  launches_within j s1 s2 -> launches_within k s2 s3 ->
  launches_within (j + k) s1 s3.
Proof.
  intros (l1 & H1 & Hk1) (l2 & H2 & Hk2). exists (l1 ++ l2). split.
  - rewrite H2, H1. symmetry. apply app_assoc.
  - rewrite launches_app, length_app. lia.
Qed.

Lemma launches_within_more j k s s' :
  (j <= k)%nat -> launches_within j s s' -> launches_within k s s'.
Proof. intros Hjk (l & Hl & Hj). exists l. split; auto. lia. Qed.

Lemma launches_within_refl k s : launches_within k s s.
Proof. exists []. split; [symmetry; apply app_nil_r | simpl; lia]. Qed.

Lemma launches_within_said k m s : launches_within k s (said m s).
Proof. exists [EvPrint m]. split; [reflexivity | simpl; lia]. Qed.

Lemma prints_launch_nothing l : Forall print_event l -> launches l = [].
Proof.
  induction 1 as [| e l He _ IH]; simpl; auto.
  destruct e; simpl in *; try contradiction. exact IH.
Qed.

Lemma no_launch_of_two cmd cmd' s s' :
  cmd <> cmd' ->
  adds (trial_event cmd) s s' -> adds (trial_event cmd') s s' ->
  launches_within 0 s s'.
Proof.
  intros Hne (_ & _ & l & Hl & Ha) (_ & _ & l' & Hl' & Ha').
  assert (l' = l) by (eapply app_inv_head; rewrite <- Hl, <- Hl'; reflexivity).
  subst l'. exists l. split; auto.
  apply trial_events_launches in Ha, Ha'.
  destruct (launches l) as [| c t]; simpl; [lia |].
  inversion Ha; inversion Ha'; subst. congruence.
Qed.

(** Starting the pool launches no driver. *)
Lemma start_worker_launches s :
  launches_within 0 s (snd (start_worker env s)).
Proof.
  apply (@no_launch_of_two [] ["-"]); [discriminate | |];
    apply start_worker_adds.
Qed.

Lemma run_driver_launches md p c s :
  launches_within 1 s (snd (run_driver env md p c s)).
Proof.
  destruct (run_driver_after_launch env md p c s)
    as (_ & _ & _ & _ & _ & l & Hl & Ha).
  simpl in Hl. exists (EvRun (driver_cmd md p c) 300 :: l). split.
  - rewrite Hl, <- app_assoc. reflexivity.
  - simpl. rewrite (prints_launch_nothing Ha). simpl. lia.
Qed.

(** One trial launches the driver at most once. *)
Lemma run_simulation_launches md p c s :
  launches_within 1 s (snd (run_simulation env md p c s)).
Proof.
  unfold run_simulation.
  destruct (is_distributed md); [| apply run_driver_launches].
  unfold bind at 1, get_worker_processes. cbn [fst snd].
  destruct (no_workers (worker_processes s)); [| apply run_driver_launches].
  unfold bind at 1.
  pose proof (start_worker_launches s) as H0.
  destruct (start_worker env s) as [[[|] | e |] s1]; cbn [fst snd] in *.
  - apply (launches_within_trans H0 (run_driver_launches md p c s1)).
  - apply (launches_within_trans H0
             (launches_within_said 1 MsgFailedToStartWorkers s1)).
  - apply (launches_within_more (j := 0)); [lia | exact H0].
  - apply (launches_within_more (j := 0)); [lia | exact H0].
Qed.

Lemma run_repetitions_launches md p c rs :
  forall times s,
    launches_within (List.length rs) s
      (snd (run_repetitions env md p c rs times s)).
Proof.
  induction rs as [| run rest IH]; intros times s; cbn [run_repetitions].
  - apply launches_within_refl.
  - unfold bind at 1. pose proof (run_simulation_launches md p c s) as H0.
    destruct (run_simulation env md p c s) as [[[t |] | e |] s1];
      cbn [fst snd List.length] in *.
    + apply (launches_within_trans H0 (IH _ s1)).
    + apply (launches_within_trans H0
               (launches_within_trans
                  (launches_within_said 0 (MsgFailedRun (run + 1)) s1)
                  (IH times _))).
    + apply (launches_within_more (j := 1)); [lia | exact H0].
    + apply (launches_within_more (j := 1)); [lia | exact H0].
Qed.

Variable cfg : config.
Variable md : string.

(** What the announcement of a point and its repetitions add to the
    trace: the point, and at most one launch per repetition. *)
Lemma measure_cost v s :
  exists l,
    trace (snd (measure env cfg md v s)) = trace s ++ l
    /\ visited l = [point cfg v]
    /\ (List.length (launches l) <= Z.to_nat (runs_per_config cfg))%nat.
Proof.
  pose proof (measure_spec env cfg md v s) as (_ & _ & l & Hl & Hv & _).
  exists l. splits; auto.
  unfold measure, bind, print, emit in Hl |- *. cbn [fst snd] in Hl |- *.
  match type of Hl with
  | context [run_repetitions ?e ?m ?p ?c ?r ?t ?s0] =>
      destruct (run_repetitions_launches m p c r t s0) as (l' & Hl' & Hk)
  end.
  rewrite Hl in Hl'. cbn [trace set_trace] in Hl'.
  rewrite <- app_assoc in Hl'. apply app_inv_head in Hl'. subst l.
  simpl. rewrite range_length in Hk. exact Hk.
Qed.

(** The trace a sweep adds holds at most [runs_per_config] launches per
    announced point. *)
Definition sweep_cost (s s' : State) : Prop :=
  exists l,
    trace s' = trace s ++ l
    /\ (List.length (launches l)
        <= List.length (visited l) * Z.to_nat (runs_per_config cfg))%nat.

Lemma sweep_cost_refl s : sweep_cost s s.
Proof. exists []. split; [symmetry; apply app_nil_r | simpl; lia]. Qed.

Lemma sweep_loop_cost fuel :
  forall v s, sweep_cost s (snd (sweep_loop env fuel cfg md v s)).
Proof.
  induction fuel as [| fuel IH]; intros v s.
  - destruct (Z.le_gt_cases v (max_value cfg)) as [Hv | Hv].
    + rewrite sweep_loop_dry by assumption. apply sweep_cost_refl.
    + rewrite sweep_loop_past by assumption. apply sweep_cost_refl.
  - destruct (Z.le_gt_cases v (max_value cfg)) as [Hv | Hv].
    2:{ rewrite sweep_loop_past by assumption. apply sweep_cost_refl. }
    rewrite sweep_loop_step by assumption.
    destruct (measure_cost v s) as (l & Hl & Hvis & Hk).
    destruct (measure env cfg md v s) as [[times | e |] s1];
      cbn [fst snd] in *.
    + destruct (0 <? len times).
      * destruct (std_dev_of times) as [e | sd].
        { exists l. split; auto. rewrite Hvis. simpl. lia. }
        cbv zeta.
        destruct (over_budget cfg (point_summary cfg md v times sd)).
        -- cbn [snd]. eexists (l ++ [_; _]). split.
           ++ simpl. rewrite Hl, <- !app_assoc. reflexivity.
           ++ rewrite launches_app, visited_app, !length_app, Hvis.
              simpl. lia.
        -- match goal with
           | |- sweep_cost _ (snd (sweep_loop _ _ _ _ _ ?s2)) =>
               destruct (IH (v + increment cfg) s2) as (l2 & Hl2 & Hk2)
           end.
           eexists (l ++ [_] ++ l2). split.
           ++ rewrite Hl2. simpl. rewrite Hl, <- !app_assoc. reflexivity.
           ++ rewrite !launches_app, !visited_app, !length_app, Hvis.
              simpl. lia.
      * cbn [snd]. eexists (l ++ [_]). split.
        -- simpl. rewrite Hl, <- app_assoc. reflexivity.
        -- rewrite launches_app, visited_app, !length_app, Hvis. simpl. lia.
    + exists l. split; auto. rewrite Hvis. simpl. lia.
    + exists l. split; auto. rewrite Hvis. simpl. lia.
Qed.

(** How far a sweep from [v] can get. *)
Lemma sweep_run_count v o rs vs :
  0 < increment cfg ->
  sweep_run cfg md v o rs vs ->
  (List.length rs <= List.length vs)%nat
  /\ (vs <> [] ->
      v + (Z.of_nat (List.length vs) - 1) * increment cfg <= max_value cfg).
Proof.
  intros Hi.
  induction 1 as [v Hv | v Hv | v e Hv | v Hv | v times sd Hv Ht Hk Hsd Hb
                 | v times sd o rs vs Hv Ht Hk Hsd Hb Hrun (IHl & IHv)];
    cbn [List.length]; try (split; [lia | intros _; simpl; lia]).
  - split; [lia | congruence].
  - split; [lia | congruence].
  - split; [lia | intros _].
    destruct vs as [| pc vs]; [simpl; lia |].
    assert (Hne : pc :: vs <> []) by discriminate.
    specialize (IHv Hne). cbn [List.length] in *.
    rewrite !Nat2Z.inj_succ in *. lia.
Qed.

(** X10.  With a positive increment a sweep from [v] is bounded by its
    plan: the last point it announces is the [n]-th of the grid with
    [v + (n - 1) * increment <= max_value]; it appends at most one
    result per announced point and launches the driver at most
    [runs_per_config] times per announced point, whatever the outcomes
    of the launches. *)
Theorem sweep_cost_is_bounded (fuel : nat) (v : Z) (s : State) :
  0 < increment cfg ->
  exists rs l,
    results (snd (sweep_loop env fuel cfg md v s)) = results s ++ rs
    /\ trace (snd (sweep_loop env fuel cfg md v s)) = trace s ++ l
    /\ (visited l <> [] ->
        v + (Z.of_nat (List.length (visited l)) - 1) * increment cfg
        <= max_value cfg)
    /\ (List.length rs <= List.length (visited l))%nat
    /\ (List.length (launches l)
        <= List.length (visited l) * Z.to_nat (runs_per_config cfg))%nat.
Proof.
  intros Hi.
  destruct (sweep_loop_spec env cfg md fuel v s)
    as (_ & rs & l & Hr & Hl & Hrun & _).
  destruct (sweep_loop_cost fuel v s) as (l' & Hl' & Hk).
  rewrite Hl in Hl'. apply app_inv_head in Hl'. subst l'.
  destruct (sweep_run_count Hi Hrun) as (Hlen & Hlast).
  exists rs, l. splits; auto.
Qed.

End LaunchCount.

(* ================================================================= *)
(** ** A test series *)

Lemma subseq_app (A : Type) (l1 l2 l1' l2' : list A) :
  subseq l1 l2 -> subseq l1' l2' -> subseq (l1 ++ l1') (l2 ++ l2').
Proof.
  intros H H'. induction H; simpl; auto.
  - apply subseq_skip. exact IHsubseq.
  - apply subseq_keep. exact IHsubseq.
Qed.

Lemma subseq_refl (A : Type) (l : list A) : subseq l l.
Proof. induction l; [apply subseq_nil | apply subseq_keep; auto]. Qed.

Section Series.

Context {PF : PyFloat}.
Variable env : Env.
Variables name md : string.
Variable n : Z.

Definition point_of (r : result) : Z * Z := (particles r, cycles r).

(** What a part of the series that was to visit [pts] leaves behind:
    the files are untouched; the points announced are a prefix of
    [pts], all of it when the part returns; the results appended belong
    to announced points, in their order, and carry the name of the test
    and the mode. *)
Definition series_post (pts : list (Z * Z)) (s : State)
  (r : outcome unit * State) : Prop :=
  files (snd r) = files s /\
  exists rs l rest,
    results (snd r) = results s ++ rs
    /\ trace (snd r) = trace s ++ l
    /\ pts = visited l ++ rest
    /\ (fst r = Ret tt -> rest = [])
    /\ subseq (map point_of rs) (visited l)
    /\ Forall (fun x => test_type x = name /\ mode x = md) rs.

Lemma run_test_point_series p c s :
  series_post [(p, c)] s (run_test_point env name md n p c s).
Proof.
  unfold run_test_point, bind, print, emit. cbn [fst snd].
  match goal with
  | |- context [run_repetitions ?e ?m ?p' ?c' ?r ?t ?s0] =>
      pose proof (run_repetitions_post e m p' c' r t s0)
        as (Hr & Hf & l & Hl & Hv & _);
      destruct (run_repetitions e m p' c' r t s0) as [[times | e' |] s1]
  end; cbn [fst snd results files trace set_trace] in *.
  - destruct (0 <? len times); cbv zeta;
      [destruct (std_dev_of times) as [e | sd] |]; cbn [fst snd];
      (split; [exact Hf |]).
    + exists [], (EvPrint (MsgTesting p c) :: l), [].
      unfold raise. cbn [fst snd]. splits; auto.
      * rewrite Hr, app_nil_r. reflexivity.
      * rewrite Hl, <- app_assoc. reflexivity.
      * simpl. rewrite Hv. reflexivity.
      * apply subseq_nil_l.
    + eexists [_], (EvPrint (MsgTesting p c) :: l ++ [_]), [].
      splits; auto.
      * simpl. rewrite Hr. reflexivity.
      * simpl. rewrite Hl, <- !app_assoc. reflexivity.
      * simpl. rewrite visited_app, Hv. reflexivity.
      * simpl. rewrite visited_app, Hv. simpl. apply subseq_refl.
      * repeat constructor.
    + eexists [], (EvPrint (MsgTesting p c) :: l ++ [_]), [].
      splits; auto.
      * simpl. rewrite Hr, app_nil_r. reflexivity.
      * simpl. rewrite Hl, <- !app_assoc. reflexivity.
      * simpl. rewrite visited_app, Hv. reflexivity.
      * apply subseq_nil_l.
  - split; [exact Hf |].
    exists [], (EvPrint (MsgTesting p c) :: l), []. cbn [fst snd].
    splits; auto.
    + rewrite Hr, app_nil_r. reflexivity.
    + rewrite Hl, <- app_assoc. reflexivity.
    + simpl. rewrite Hv. reflexivity.
    + apply subseq_nil_l.
  - split; [exact Hf |].
    exists [], (EvPrint (MsgTesting p c) :: l), []. cbn [fst snd].
    splits; auto.
    + rewrite Hr, app_nil_r. reflexivity.
    + rewrite Hl, <- app_assoc. reflexivity.
    + simpl. rewrite Hv. reflexivity.
    + apply subseq_nil_l.
Qed.

Lemma for_each_series (A : Type) (g : A -> list (Z * Z)) (body : A -> M unit) :
  (forall x s, series_post (g x) s (body x s)) ->
  forall xs s, series_post (flat_map g xs) s (for_each xs body s).
Proof.
  intros Hb. induction xs as [| x xs IH]; intros s; cbn [for_each flat_map].
  - split; auto. exists [], [], []. simpl. rewrite !app_nil_r.
    splits; auto. apply subseq_nil.
  - unfold bind.
    destruct (Hb x s) as (Hf & rs & l & rest & Hr & Hl & Hp & Hret & Hs & Ha).
    destruct (body x s) as [[[] | e |] s1]; cbn [fst snd] in *.
    + specialize (Hret eq_refl). subst rest. rewrite app_nil_r in Hp.
      destruct (IH s1)
        as (Hf2 & rs2 & l2 & rest2 & Hr2 & Hl2 & Hp2 & Hret2 & Hs2 & Ha2).
      split; [congruence |].
      exists (rs ++ rs2), (l ++ l2), rest2. splits; auto.
      * rewrite Hr2, Hr. symmetry. apply app_assoc.
      * rewrite Hl2, Hl. symmetry. apply app_assoc.
      * rewrite visited_app, Hp, Hp2, <- app_assoc. reflexivity.
      * rewrite map_app, visited_app. apply subseq_app; auto.
      * apply Forall_app. split; auto.
    + split; [exact Hf |].
      exists rs, l, (rest ++ flat_map g xs). splits; auto.
      * rewrite Hp, <- app_assoc. reflexivity.
      * discriminate.
    + split; [exact Hf |].
      exists rs, l, (rest ++ flat_map g xs). splits; auto.
      * rewrite Hp, <- app_assoc. reflexivity.
      * discriminate.
Qed.

Lemma flat_map_single (A B : Type) (f : A -> B) (l : list A) :
  flat_map (fun x => [f x]) l = map f l.
Proof. induction l; simpl; congruence. Qed.

Lemma flat_map_rows (pl cl : list Z) :
  flat_map (fun p => map (fun c => (p, c)) cl) pl = list_prod pl cl.
Proof. induction pl; simpl; congruence. Qed.

(** X4.  [run_test_series] walks the whole grid: the points it
    announces are the pairs of [particles_list] and [cycles_list] in
    row-major order, with no early stop (neither a point over a time
    budget nor a point whose repetitions all failed ends the series);
    only an exception cuts the walk short, and then the points
    announced are a prefix of the grid.  The results appended belong
    to announced points, in their order and at most one per point, and
    carry the given test name and mode; the files are not touched. *)
Theorem series_walks_the_grid (particles_list cycles_list : list Z)
  (s : State) :
  files (snd (run_test_series env name md particles_list cycles_list n s))
  = files s
  /\ exists rs l rest,
       results
         (snd (run_test_series env name md particles_list cycles_list n s))
       = results s ++ rs
       /\ trace
            (snd (run_test_series env name md particles_list cycles_list n s))
          = trace s ++ l
       /\ list_prod particles_list cycles_list = visited l ++ rest
       /\ (fst (run_test_series env name md particles_list cycles_list n s)
           = Ret tt -> rest = [])
       /\ subseq (map point_of rs) (visited l)
       /\ Forall (fun x => test_type x = name /\ mode x = md) rs.
Proof.
  rewrite <- flat_map_rows. unfold run_test_series.
  apply (for_each_series
           (fun p => map (fun c => (p, c)) cycles_list)
           (fun p => for_each cycles_list
                       (fun c => run_test_point env name md n p c))).
  intros p s0. rewrite <- flat_map_single.
  apply (for_each_series (fun c => [(p, c)])
           (fun c => run_test_point env name md n p c)).
  intros c s1. apply run_test_point_series.
Qed.

End Series.

(* ================================================================= *)
(** ** A sweep over a started pool *)

Section SweepOverPool.

Context {PF : PyFloat}.
Variable env : Env.

Definition launch_or_print (e : event) : Prop :=
  match e with
  | EvPrint _ | EvRun _ _ => True
  | _ => False
  end.

(** A step whose only calls to the operating system are launches of
    the driver. *)
Definition only_launches (s s' : State) : Prop :=
  procs s' = procs s /\ worker_processes s' = worker_processes s /\
  files s' = files s /\
  exists l, trace s' = trace s ++ l /\ Forall launch_or_print l /\
            tick s' = (tick s + List.length (launches l))%nat.

Lemma only_launches_refl s : only_launches s s.
Proof.
  unfold only_launches. splits; auto.
  exists []. simpl. rewrite app_nil_r. splits; auto.
Qed.

Lemma only_launches_trans s1 s2 s3 :
  only_launches s1 s2 -> only_launches s2 s3 -> only_launches s1 s3.
Proof.
  intros (Hp1 & Hw1 & Hf1 & l1 & Hl1 & Ha1 & Ht1)
    (Hp2 & Hw2 & Hf2 & l2 & Hl2 & Ha2 & Ht2).
  unfold only_launches. splits; try congruence.
  exists (l1 ++ l2). splits.
  - rewrite Hl2, Hl1. symmetry. apply app_assoc.
  - apply Forall_app. split; assumption.
  - rewrite launches_app, length_app. lia.
Qed.

Lemma only_launches_said m s : only_launches s (said m s).
Proof.
  unfold only_launches, said. simpl. splits; auto.
  exists [EvPrint m]. simpl. splits; auto. repeat constructor.
Qed.

Lemma only_launches_recorded r s : only_launches s (recorded r s).
Proof.
  unfold only_launches, recorded. simpl. splits; auto.
  exists [EvPrint (MsgAvg (average_time r) (std_dev r))]. simpl.
  splits; auto. repeat constructor.
Qed.

Lemma only_prints_only_launches s s' : only_prints s s' -> only_launches s s'.
Proof.
  intros (Ht & Hp & Hw & _ & Hf & l & Hl & Ha).
  unfold only_launches. splits; auto.
  exists l. splits; auto.
  - eapply Forall_impl; [| exact Ha]. intros [] H; simpl in *; auto.
  - rewrite (prints_launch_nothing Ha). simpl. lia.
Qed.

(** Over a pool that is not empty, and in every mode but the
    distributed one, a trial is the launch of the driver. *)
Lemma run_simulation_with_pool md p c s :
  is_distributed md && no_workers (worker_processes s) = false ->
  only_launches s (snd (run_simulation env md p c s)).
Proof.
  intros Hpool. rewrite (run_simulation_driver env md p c s Hpool).
  apply only_launches_trans
    with (s2 := set_tick (S (tick s))
                  (set_trace (trace s ++ [EvRun (driver_cmd md p c) 300]) s)).
  - unfold only_launches. simpl. splits; auto.
    exists [EvRun (driver_cmd md p c) 300]. simpl.
    splits; auto; first [lia | repeat constructor].
  - apply only_prints_only_launches, run_driver_after_launch.
Qed.

Lemma run_repetitions_with_pool md p c rs :
  forall times s,
    is_distributed md && no_workers (worker_processes s) = false ->
    only_launches s (snd (run_repetitions env md p c rs times s)).
Proof.
  induction rs as [| run rest IH]; intros times s Hpool;
    cbn [run_repetitions].
  - apply only_launches_refl.
  - unfold bind at 1.
    pose proof (run_simulation_with_pool md p c s Hpool) as H0.
    assert (Hw : worker_processes (snd (run_simulation env md p c s))
                 = worker_processes s) by apply H0.
    destruct (run_simulation env md p c s) as [[[t |] | e |] s1];
      cbn [fst snd] in *; auto.
    + eapply only_launches_trans; [exact H0 |].
      apply IH. rewrite Hw. exact Hpool.
    + eapply only_launches_trans; [exact H0 |].
      unfold bind, print, emit. cbn [fst snd].
      eapply only_launches_trans;
        [apply (only_launches_said (MsgFailedRun (run + 1)) s1) |].
      apply IH. simpl. rewrite Hw. exact Hpool.
Qed.

Variable cfg : config.
Variable md : string.

Lemma measure_with_pool v s :
  is_distributed md && no_workers (worker_processes s) = false ->
  only_launches s (snd (measure env cfg md v s)).
Proof.
  intros Hpool. unfold measure, bind, print, emit. cbn [fst snd].
  eapply only_launches_trans; [apply only_launches_said |].
  apply run_repetitions_with_pool. exact Hpool.
Qed.

(** X14.  A sweep that finds the pool started (or runs a mode that
    needs none) never looks at the workers again: its only calls to the
    operating system are launches of the driver, one tick each.  It
    starts, probes, signals and stops no process, so a worker that died
    in the meantime is neither noticed nor replaced, and the pool list
    is the same at every later point of the sweep. *)
Theorem sweep_over_pool_only_launches_driver (fuel : nat) (v : Z)
  (s : State) :
  is_distributed md && no_workers (worker_processes s) = false ->
  procs (snd (sweep_loop env fuel cfg md v s)) = procs s
  /\ worker_processes (snd (sweep_loop env fuel cfg md v s))
     = worker_processes s
  /\ files (snd (sweep_loop env fuel cfg md v s)) = files s
  /\ exists l,
       trace (snd (sweep_loop env fuel cfg md v s)) = trace s ++ l
       /\ Forall launch_or_print l
       /\ tick (snd (sweep_loop env fuel cfg md v s))
          = (tick s + List.length (launches l))%nat.
Proof.
  change (is_distributed md && no_workers (worker_processes s) = false ->
          only_launches s (snd (sweep_loop env fuel cfg md v s))).
  revert v s. induction fuel as [| fuel IH]; intros v s Hpool.
  - destruct (Z.le_gt_cases v (max_value cfg)) as [Hv | Hv].
    + rewrite sweep_loop_dry by assumption. apply only_launches_refl.
    + rewrite sweep_loop_past by assumption. apply only_launches_refl.
  - destruct (Z.le_gt_cases v (max_value cfg)) as [Hv | Hv].
    2:{ rewrite sweep_loop_past by assumption. apply only_launches_refl. }
    rewrite sweep_loop_step by assumption.
    pose proof (measure_with_pool v s Hpool) as H0.
    assert (Hw : worker_processes (snd (measure env cfg md v s))
                 = worker_processes s) by apply H0.
    destruct (measure env cfg md v s) as [[times | e |] s1];
      cbn [fst snd] in *; auto.
    destruct (0 <? len times).
    + destruct (std_dev_of times) as [e | sd]; [exact H0 |].
      cbv zeta. destruct (over_budget cfg (point_summary cfg md v times sd)).
      * cbn [snd]. eapply only_launches_trans; [exact H0 |].
        eapply only_launches_trans;
          [apply only_launches_recorded | apply only_launches_said].
      * eapply only_launches_trans; [exact H0 |].
        eapply only_launches_trans; [apply only_launches_recorded |].
        apply IH. simpl. rewrite Hw. exact Hpool.
    + cbn [snd]. eapply only_launches_trans; [exact H0 |].
      apply only_launches_said.
Qed.

End SweepOverPool.

(* ================================================================= *)
(** ** Writing the results: edge cases *)

Section SaveEdge.

Context {PF : PyFloat}.
Variable env : Env.

Lemma write_rows_ret path rs :
  forall s,
    fst (for_each rs (fun r => writerow path (csv_row r)) s) = Ret tt
    /\ tick (snd (for_each rs (fun r => writerow path (csv_row r)) s))
       = tick s
    /\ trace (snd (for_each rs (fun r => writerow path (csv_row r)) s))
       = trace s.
Proof.
  induction rs as [| x rs IH]; intros s; cbn [for_each].
  - splits; reflexivity.
  - unfold bind, writerow at 1.
    match goal with
    | |- context [for_each _ _ ?s1] => destruct (IH s1) as (H1 & H2 & H3)
    end.
    simpl in H2, H3. splits; auto.
Qed.

Lemma append_csv_eq path rs s :
  append_csv env path rs s
  = match rs with
    | [] => (Ret tt, s)
    | _ :: _ =>
        match on_open env (tick s) with
        | Some e => (Raise e, set_tick (S (tick s)) s)
        | None =>
            for_each rs (fun r => writerow path (csv_row r))
              (set_tick (S (tick s)) s)
        end
    end.
Proof.
  unfold append_csv. destruct rs as [| x rs]; [reflexivity |].
  unfold bind at 1, open_file, bind, next_call, answer.
  destruct (on_open env (tick s)); reflexivity.
Qed.

(** X5.  With no result of either test type in [self.results] (none at
    all, or only results that [run_test_series] recorded under another
    name), [save_results] opens no file: it cannot fail, creates and
    changes no file, keeps the results, and reports zero records for
    both files. *)
Theorem nothing_to_save_opens_no_file (s : State) :
  of_type "Fixed_Particles" (results s) = [] ->
  of_type "Fixed_Cycles" (results s) = [] ->
  fst (save_results env s) = Ret tt
  /\ tick (snd (save_results env s)) = tick s
  /\ files (snd (save_results env s)) = files s
  /\ results (snd (save_results env s)) = results s
  /\ trace (snd (save_results env s))
     = trace s
       ++ [EvPrint (MsgText "New distributed results appended to:");
           EvPrint (MsgSaved "fixed_particles_results.csv" 0);
           EvPrint (MsgSaved "fixed_cycles_results.csv" 0)].
Proof.
  intros H1 H2. rewrite save_results_eq, H1, H2.
  cbn [append_csv]. unfold ret, said. simpl.
  rewrite <- !app_assoc. splits; reflexivity.
Qed.

(** The rows a completed [save_results] adds to a file. *)
Definition new_rows (rs : list result) (path : string) : list row :=
  (if String.eqb path "fixed_particles_results.csv"
   then map csv_row (of_type "Fixed_Particles" rs) else [])
  ++ (if String.eqb path "fixed_cycles_results.csv"
      then map csv_row (of_type "Fixed_Cycles" rs) else []).

Lemma save_results_done s :
  fst (save_results env s) = Ret tt ->
  results (snd (save_results env s)) = results s
  /\ forall p, files (snd (save_results env s)) p
               = files s p ++ new_rows (results s) p.
Proof.
  rewrite save_results_eq.
  pose proof (append_csv_appends env "fixed_particles_results.csv"
                (of_type "Fixed_Particles" (results s)) s)
    as (Hr1 & _ & Hd1).
  destruct (append_csv env "fixed_particles_results.csv"
              (of_type "Fixed_Particles" (results s)) s)
    as [[[] | e |] s1]; cbn [fst snd] in *; try discriminate.
  pose proof (append_csv_appends env "fixed_cycles_results.csv"
                (of_type "Fixed_Cycles" (results s)) s1)
    as (Hr2 & _ & Hd2).
  destruct (append_csv env "fixed_cycles_results.csv"
              (of_type "Fixed_Cycles" (results s)) s1)
    as [[[] | e |] s2]; cbn [fst snd] in *; try discriminate.
  intros _. split.
  - simpl. congruence.
  - intros p. simpl. rewrite (Hd2 eq_refl p), (Hd1 eq_refl p).
    unfold new_rows. rewrite <- app_assoc. reflexivity.
Qed.

(** X6.  [save_results] does not clear [self.results]: a second call
    that completes writes the same rows once more, so each result file
    ends with two copies of them. *)
Theorem saving_twice_writes_rows_twice (s : State) :
  fst (save_results env s) = Ret tt ->
  fst (save_results env (snd (save_results env s))) = Ret tt ->
  results (snd (save_results env (snd (save_results env s)))) = results s
  /\ files (snd (save_results env (snd (save_results env s))))
       "fixed_particles_results.csv"
     = files s "fixed_particles_results.csv"
       ++ map csv_row (of_type "Fixed_Particles" (results s))
       ++ map csv_row (of_type "Fixed_Particles" (results s))
  /\ files (snd (save_results env (snd (save_results env s))))
       "fixed_cycles_results.csv"
     = files s "fixed_cycles_results.csv"
       ++ map csv_row (of_type "Fixed_Cycles" (results s))
       ++ map csv_row (of_type "Fixed_Cycles" (results s)).
Proof.
  intros H1 H2.
  destruct (save_results_done s H1) as (Hr1 & Hf1).
  destruct (save_results_done _ H2) as (Hr2 & Hf2).
  splits.
  - congruence.
  - rewrite Hf2, Hf1, Hr1. unfold new_rows.
    change ("fixed_particles_results.csv" =? "fixed_particles_results.csv")%string
      with true.
    change ("fixed_particles_results.csv" =? "fixed_cycles_results.csv")%string
      with false.
    cbv iota. rewrite !app_nil_r, <- app_assoc. reflexivity.
  - rewrite Hf2, Hf1, Hr1. unfold new_rows.
    change ("fixed_cycles_results.csv" =? "fixed_cycles_results.csv")%string
      with true.
    change ("fixed_cycles_results.csv" =? "fixed_particles_results.csv")%string
      with false.
    cbv iota. cbn [app]. rewrite <- app_assoc. reflexivity.
Qed.

(** X7.  The two files are written one after the other, with nothing
    to undo the first: when both groups have results and the second
    file cannot be opened, [save_results] raises the error of that
    [open] after the first file has received all its rows; no other
    file has changed and the closing report is not printed. *)
Theorem second_open_failure_keeps_first_rows (s : State) (e : exn) :
  of_type "Fixed_Particles" (results s) <> [] ->
  of_type "Fixed_Cycles" (results s) <> [] ->
  on_open env (tick s) = None ->
  on_open env (S (tick s)) = Some e ->
  fst (save_results env s) = Raise e
  /\ files (snd (save_results env s)) "fixed_particles_results.csv"
     = files s "fixed_particles_results.csv"
       ++ map csv_row (of_type "Fixed_Particles" (results s))
  /\ (forall p, p <> "fixed_particles_results.csv" ->
                files (snd (save_results env s)) p = files s p)
  /\ trace (snd (save_results env s)) = trace s.
Proof.
  intros Hfp Hfc Ho1 Ho2. rewrite save_results_eq.
  pose proof (append_csv_appends env "fixed_particles_results.csv"
                (of_type "Fixed_Particles" (results s)) s)
    as (_ & _ & Hd1).
  rewrite (append_csv_eq "fixed_particles_results.csv") in *.
  destruct (of_type "Fixed_Particles" (results s)) as [| x xs];
    [congruence |].
  rewrite Ho1 in *.
  destruct (write_rows_ret "fixed_particles_results.csv" (x :: xs)
              (set_tick (S (tick s)) s)) as (Hret & Htick & Htrace).
  destruct (for_each (x :: xs)
              (fun r => writerow "fixed_particles_results.csv" (csv_row r))
              (set_tick (S (tick s)) s)) as [[[] | e' |] s1];
    cbn [fst snd] in *; try discriminate.
  specialize (Hd1 eq_refl).
  rewrite (append_csv_eq "fixed_cycles_results.csv").
  destruct (of_type "Fixed_Cycles" (results s)) as [| y ys];
    [congruence |].
  simpl in Htick, Htrace. rewrite Htick, Ho2. cbn [fst snd].
  change (files (set_tick (S (S (tick s))) s1)) with (files s1).
  change (trace (set_tick (S (S (tick s))) s1)) with (trace s1).
  splits; auto.
  intros p Hp. rewrite Hd1.
  apply String.eqb_neq in Hp. rewrite Hp. apply app_nil_r.
Qed.

End SaveEdge.

(* ================================================================= *)
(** ** The whole run: what the caller sees *)

Section CallerView.

Context {PF : PyFloat}.
Variable env : Env.

Definition keeps_files (s s' : State) : Prop := files s' = files s.

Lemma keeps_files_preorder : preorder keeps_files.
Proof.
  split.
  - intros s. reflexivity.
  - intros s1 s2 s3 H1 H2. unfold keeps_files in *. congruence.
Qed.

Hint Resolve keeps_files_preorder : core.

Lemma adds_keeps_files ok s s' : adds ok s s' -> keeps_files s s'.
Proof. intros (_ & Hf & _). exact Hf. Qed.

Lemma keeps_files_print m : preserves keeps_files (print m).
Proof. intros s. reflexivity. Qed.

Hint Resolve keeps_files_print : core.

Lemma keeps_files_stop_worker : preserves keeps_files (stop_worker env).
Proof.
  eapply preserves_weaken; [apply adds_keeps_files |].
  apply (stop_worker_adds env []).
Qed.

Lemma keeps_files_time_sleep q : preserves keeps_files (time_sleep env q).
Proof. unfold time_sleep. intros s. unfold bind, next_call, answer.
  simpl. destruct (on_sleep env (tick s)); reflexivity.
Qed.

Hint Resolve keeps_files_stop_worker keeps_files_time_sleep : core.

Lemma keeps_files_sweep_modes fuel cfg modes :
  preserves keeps_files (sweep_modes env fuel cfg modes).
Proof.
  induction modes as [| md rest IH]; cbn [sweep_modes].
  - apply preserves_ret; auto.
  - apply preserves_bind; auto.
    + intros s. apply (sweep_loop_spec env cfg md fuel (starting cfg) s).
    + intros _. apply preserves_bind; auto.
      destruct (is_distributed md); repeat preserves_step.
Qed.

Lemma keeps_files_setup_environment :
  preserves keeps_files (setup_environment env).
Proof. unfold setup_environment. repeat preserves_step. Qed.

(** The tests of a run, before anything is written. *)
Definition tests (fuel : nat) : M unit :=
  bind (setup_environment env)
    (fun _ => bind (fixed_particles_test env fuel)
                (fun _ => fixed_cycles_test env fuel)).

Lemma keeps_files_tests fuel : preserves keeps_files (tests fuel).
Proof.
  unfold tests, fixed_particles_test, fixed_cycles_test.
  apply preserves_bind; auto using keeps_files_setup_environment.
  intros _. apply preserves_bind; auto using keeps_files_sweep_modes.
Qed.

Lemma guarded_body_eq fuel s :
  bind (setup_environment env)
    (fun _ => bind (fixed_particles_test env fuel)
       (fun _ => bind (fixed_cycles_test env fuel)
          (fun _ => bind (save_results env)
             (fun _ => print
                (MsgText "Performance testing completed successfully!")))))
    s
  = match tests fuel s with
    | (Ret _, s3) =>
        bind (save_results env)
          (fun _ => print
             (MsgText "Performance testing completed successfully!")) s3
    | (Raise e, s3) => (Raise e, s3)
    | (OutOfFuel, s3) => (OutOfFuel, s3)
    end.
Proof.
  unfold tests, bind.
  destruct (setup_environment env s) as [[[] | e |] s1]; try reflexivity.
  destruct (fixed_particles_test env fuel s1) as [[[] | e |] s2];
    reflexivity.
Qed.

(** X8.  When the JAR file is missing, a fresh run ends with
    [SystemExit(1)], which neither [except] clause catches: the two
    error lines are printed, no test is started (no worker, no driver,
    no file, no result), and the only call of the final [cleanup] is
    the pattern kill. *)
Theorem missing_jar_exits_before_any_test (fuel : nat) (s : State) :
  on_chdir env = None ->
  jar_exists env = false ->
  no_workers (worker_processes s) = true ->
  on_pkill env (tick s) = None ->
  fst (run_all_tests env fuel s) = Raise (SystemExit 1)
  /\ trace (snd (run_all_tests env fuel s))
     = trace s
       ++ [EvPrint (MsgText ("ERROR: JAR file not found: " ++ JAR_FILE));
           EvPrint (MsgText
             "Please run 'mvn clean package' first to build the project.");
           EvPkill]
  /\ procs (snd (run_all_tests env fuel s)) = procs s
  /\ files (snd (run_all_tests env fuel s)) = files s
  /\ results (snd (run_all_tests env fuel s)) = results s.
Proof.
  intros Hdir Hjar Hpool Hkill.
  unfold run_all_tests, try_finally, run_all_tests_guarded.
  rewrite try_except_bind.
  assert (Hsetup : setup_environment env s
                   = (Raise (SystemExit 1),
                      said (MsgText
                        "Please run 'mvn clean package' first to build the project.")
                        (said (MsgText
                           ("ERROR: JAR file not found: " ++ JAR_FILE)) s))).
  { unfold setup_environment. rewrite Hdir, Hjar. reflexivity. }
  rewrite Hsetup. cbn [is_Exception]. cbv iota.
  unfold cleanup. rewrite stop_worker_never_started by exact Hpool.
  unfold pkill_workers, bind, emit, next_call, answer. cbn [fst snd].
  change (tick (said _ (said _ s))) with (tick s).
  cbn [tick set_trace set_tick said]. rewrite Hkill.
  cbn [fst snd]. unfold said. simpl. rewrite <- !app_assoc.
  splits; reflexivity.
Qed.

(** The body of the [try] statement of [run_all_tests]. *)
Definition try_body (fuel : nat) : M unit :=
  bind (setup_environment env)
    (fun _ => bind (fixed_particles_test env fuel)
       (fun _ => bind (fixed_cycles_test env fuel)
          (fun _ => bind (save_results env)
             (fun _ => print
                (MsgText "Performance testing completed successfully!"))))).

Lemma run_all_tests_guarded_eq fuel s :
  run_all_tests_guarded env fuel s
  = match try_body fuel s with
    | (Raise KeyboardInterrupt, s1) =>
        (Ret tt,
         set_trace
           (trace s1 ++ [EvPrint (MsgText "Testing interrupted by user")]) s1)
    | (Raise (SystemExit code), s1) => (Raise (SystemExit code), s1)
    | (Raise _, s1) =>
        (Ret tt,
         set_trace (trace s1 ++ [EvPrint (MsgText "Error during testing")])
           s1)
    | r => r
    end.
Proof.
  unfold run_all_tests_guarded, try_except.
  change (bind (setup_environment env) _ s) with (try_body fuel s).
  destruct (try_body fuel s) as [[[] | e |] s1]; try reflexivity.
  destruct e; reflexivity.
Qed.

(** X9.  [run_all_tests] hides every failure of the tests from its
    caller.  When the body of its [try] statement raises
    [KeyboardInterrupt], the statement prints that the testing was
    interrupted and completes; when the body raises an exception
    derived from [Exception], it prints the error line and completes;
    only a [SystemExit] passes through.  Hence [run_all_tests] returns
    normally after an interrupt or an error, provided its final
    [cleanup] returns, and an exception that leaves [run_all_tests] is
    a [SystemExit] or was raised by that [cleanup]. *)
Theorem run_all_tests_swallows_errors (fuel : nat) (s : State) :
  (forall s1,
      try_body fuel s = (Raise KeyboardInterrupt, s1) ->
      run_all_tests_guarded env fuel s
      = (Ret tt,
         set_trace
           (trace s1 ++ [EvPrint (MsgText "Testing interrupted by user")])
           s1))
  /\
  (forall e s1,
      try_body fuel s = (Raise e, s1) ->
      is_Exception e = true ->
      run_all_tests_guarded env fuel s
      = (Ret tt,
         set_trace (trace s1 ++ [EvPrint (MsgText "Error during testing")])
           s1))
  /\
  (forall code s1,
      try_body fuel s = (Raise (SystemExit code), s1) ->
      run_all_tests_guarded env fuel s = (Raise (SystemExit code), s1))
  /\
  (forall s1,
      try_body fuel s = (Ret tt, s1) ->
      run_all_tests_guarded env fuel s = (Ret tt, s1))
  /\
  (forall e,
      fst (try_body fuel s) = Raise e ->
      e = KeyboardInterrupt \/ is_Exception e = true ->
      fst (cleanup env (snd (run_all_tests_guarded env fuel s))) = Ret tt ->
      fst (run_all_tests env fuel s) = Ret tt)
  /\
  (forall e,
      fst (run_all_tests env fuel s) = Raise e ->
      (exists code, e = SystemExit code)
      \/ fst (cleanup env (snd (run_all_tests_guarded env fuel s)))
         = Raise e).
Proof.
  splits.
  - intros s1 H. rewrite run_all_tests_guarded_eq, H. reflexivity.
  - intros e s1 H He. rewrite run_all_tests_guarded_eq, H.
    destruct e; try discriminate; reflexivity.
  - intros code s1 H. rewrite run_all_tests_guarded_eq, H. reflexivity.
  - intros s1 H. rewrite run_all_tests_guarded_eq, H. reflexivity.
  - intros e He Hkind.
    assert (Hg : fst (run_all_tests_guarded env fuel s) = Ret tt).
    { rewrite run_all_tests_guarded_eq.
      destruct (try_body fuel s) as [[[] | e0 |] s1]; cbn [fst] in He;
        try discriminate.
      injection He as ->.
      destruct Hkind as [-> | Hk]; [reflexivity |].
      destruct e; try discriminate; reflexivity. }
    unfold run_all_tests, try_finally.
    destruct (run_all_tests_guarded env fuel s) as [[[] | e0 |] s1];
      cbn [fst snd] in *; try discriminate.
    destruct (cleanup env s1) as [[[] | e1 |] s2]; cbn [fst];
      try discriminate. reflexivity.
  - intros e. unfold run_all_tests, try_finally.
    assert (Hg : forall e', fst (run_all_tests_guarded env fuel s) = Raise e' ->
                            exists code, e' = SystemExit code).
    { intros e'. rewrite run_all_tests_guarded_eq.
      destruct (try_body fuel s) as [[[] | e0 |] s1]; try discriminate.
      destruct e0; simpl; try discriminate.
      intros [= <-]. eauto. }
    destruct (run_all_tests_guarded env fuel s) as [[[] | e0 |] s1];
      cbn [fst snd] in *.
    + destruct (cleanup env s1) as [[[] | e1 |] s2]; cbn [fst];
        try discriminate. auto.
    + destruct (cleanup env s1) as [[[] | e1 |] s2]; cbn [fst];
        try discriminate; auto.
    + discriminate.
Qed.

(** X13.  The results reach the files only at the very end: when the
    tests do not all return (the JAR file is missing, a worker cannot
    be launched, the run is interrupted), [run_all_tests] leaves every
    file as it was, whatever had been measured until then. *)
Theorem failed_tests_write_no_file (fuel : nat) (s : State) :
  fst (tests fuel s) <> Ret tt ->
  files (snd (run_all_tests env fuel s)) = files s.
Proof.
  intros Hfail.
  assert (Hg : keeps_files s (snd (run_all_tests_guarded env fuel s))).
  { unfold run_all_tests_guarded, try_except. rewrite guarded_body_eq.
    pose proof (keeps_files_tests fuel s) as HT.
    destruct (tests fuel s) as [[[] | e |] s1]; cbn [fst snd] in *.
    - congruence.
    - destruct e; simpl; exact HT.
    - exact HT. }
  unfold run_all_tests, try_finally, cleanup.
  destruct (run_all_tests_guarded env fuel s) as [[[] | e |] s1];
    cbn [fst snd] in *; auto;
    pose proof (keeps_files_stop_worker s1) as Hc;
    destruct (stop_worker env s1) as [[[] | e' |] s2]; cbn [fst snd] in *;
    unfold keeps_files in *; congruence.
Qed.

End CallerView.

(* ================================================================= *)
(** ** From the sweeps to the files *)

Section EndToEnd.

Context {PF : PyFloat}.
Variable env : Env.

(** The coordinate a test holds fixed. *)
Definition fixed_of (cfg : config) (r : result) : Z :=
  match swept cfg with
  | Cycles => particles r
  | Particles => cycles r
  end.

Lemma sweep_run_fixed cfg md v o rs vs :
  sweep_run cfg md v o rs vs ->
  Forall (fun r => fixed_of cfg r = fixed_value cfg) rs.
Proof.
  induction 1; constructor; auto;
    unfold fixed_of, point_summary, summary, point;
    destruct (swept cfg); reflexivity.
Qed.

Lemma of_type_all name rs :
  Forall (fun r => test_type r = name) rs -> of_type name rs = rs.
Proof.
  induction 1 as [| r rs Hr _ IH]; simpl; auto.
  rewrite Hr, String.eqb_refl. f_equal. exact IH.
Qed.

Lemma of_type_none name name' rs :
  name' <> name ->
  Forall (fun r => test_type r = name') rs -> of_type name rs = [].
Proof.
  intros Hne. induction 1 as [| r rs Hr _ IH]; simpl; auto.
  rewrite Hr. apply String.eqb_neq in Hne. rewrite Hne. exact IH.
Qed.

(** What one test appends to the results. *)
Definition test_rows (cfg : config) (rs : list result) : Prop :=
  Forall (fun r => test_type r = test_name cfg /\ mode r = "distributed"
                   /\ fixed_of cfg r = fixed_value cfg) rs
  /\ StronglySorted Z.lt (map (swept_value cfg) rs).

Lemma test_appends cfg fuel s :
  0 < increment cfg ->
  exists rs,
    results (snd (sweep_modes env fuel cfg ["distributed"] s))
    = results s ++ rs
    /\ test_rows cfg rs.
Proof.
  intros Hi. rewrite sweep_modes_distributed.
  destruct (sweep_loop_spec env cfg "distributed" fuel (starting cfg) s)
    as (_ & rs & l & Hr & _ & Hrun & _).
  exists rs. split.
  - destruct (sweep_loop env fuel cfg "distributed" (starting cfg) s)
      as [[[] | e |] s1]; cbn [fst snd] in *; auto.
    pose proof (stop_worker_adds env [] s1) as (Hr1 & _).
    destruct (stop_worker env s1) as [[[] | e |] s2]; cbn [fst snd] in *;
      try congruence.
    unfold time_sleep, bind, next_call, answer. cbn [fst snd].
    destruct (on_sleep env (tick s2)); cbn [snd]; simpl; congruence.
  - split.
    + pose proof (sweep_run_summaries Hrun) as H1.
      pose proof (sweep_run_fixed Hrun) as H2.
      rewrite Forall_forall in *. intros r Hin.
      destruct (H1 r Hin) as (_ & _ & Ht & Hm). splits; auto.
    + apply (sweep_run_grid Hi Hrun).
Qed.

Lemma tests_append fuel s :
  fst (tests env fuel s) = Ret tt ->
  files (snd (tests env fuel s)) = files s
  /\ exists rs1 rs2,
       results (snd (tests env fuel s)) = results s ++ rs1 ++ rs2
       /\ test_rows FIXED_PARTICLES_TEST rs1
       /\ test_rows FIXED_CYCLES_TEST rs2.
Proof.
  intros Hret. split; [apply (keeps_files_tests env fuel s) |].
  revert Hret. unfold tests, bind.
  assert (Hs : results (snd (setup_environment env s)) = results s).
  { unfold setup_environment, bind, answer, print, emit.
    destruct (on_chdir env); [reflexivity |].
    destruct (jar_exists env); reflexivity. }
  destruct (setup_environment env s) as [[[] | e |] s1]; try discriminate.
  unfold fixed_particles_test, fixed_cycles_test.
  destruct (@test_appends FIXED_PARTICLES_TEST fuel s1 eq_refl)
    as (rs1 & Hr1 & Hrows1).
  destruct (sweep_modes env fuel FIXED_PARTICLES_TEST ["distributed"] s1)
    as [[[] | e |] s2]; try discriminate.
  destruct (@test_appends FIXED_CYCLES_TEST fuel s2 eq_refl)
    as (rs2 & Hr2 & Hrows2).
  intros _. exists rs1, rs2. cbn [fst snd] in *. splits; auto.
  rewrite Hr2, Hr1, Hs, <- app_assoc. reflexivity.
Qed.

Lemma run_all_tests_completed fuel s s3 s4 :
  tests env fuel s = (Ret tt, s3) ->
  save_results env s3 = (Ret tt, s4) ->
  run_all_tests env fuel s
  = match stop_worker env
            (said (MsgText "Performance testing completed successfully!") s4)
    with
    | (Ret _, s6) => (Ret tt, s6)
    | (Raise e, s6) => (Raise e, s6)
    | (OutOfFuel, s6) => (OutOfFuel, s6)
    end.
Proof.
  intros Ht Hs.
  unfold run_all_tests, try_finally, run_all_tests_guarded, try_except,
    cleanup.
  rewrite guarded_body_eq, Ht. unfold bind. rewrite Hs.
  unfold print, emit, said. reflexivity.
Qed.

(** X15.  A run of a fresh tester whose tests all return and whose
    results can be written puts each test into its own file and
    nothing else: [fixed_particles_results.csv] gains one row per
    result of the first test (mode distributed, 3000 particles,
    strictly increasing cycles) and [fixed_cycles_results.csv] one row
    per result of the second (mode distributed, 10000 cycles, strictly
    increasing particles), in the order of the sweeps; the final
    [cleanup] changes neither the results nor the files. *)
Theorem completed_run_writes_each_test_to_its_file (fuel : nat)
  (s : State) :
  results s = [] ->
  fst (tests env fuel s) = Ret tt ->
  fst (save_results env (snd (tests env fuel s))) = Ret tt ->
  exists rs1 rs2,
    results (snd (run_all_tests env fuel s)) = rs1 ++ rs2
    /\ Forall (fun r => mode r = "distributed" /\ particles r = 3000) rs1
    /\ StronglySorted Z.lt (map cycles rs1)
    /\ Forall (fun r => mode r = "distributed" /\ cycles r = 10000) rs2
    /\ StronglySorted Z.lt (map particles rs2)
    /\ files (snd (run_all_tests env fuel s)) "fixed_particles_results.csv"
       = files s "fixed_particles_results.csv" ++ map csv_row rs1
    /\ files (snd (run_all_tests env fuel s)) "fixed_cycles_results.csv"
       = files s "fixed_cycles_results.csv" ++ map csv_row rs2
    /\ forall p, p <> "fixed_particles_results.csv" ->
                 p <> "fixed_cycles_results.csv" ->
                 files (snd (run_all_tests env fuel s)) p = files s p.
Proof.
  intros Hfresh Htests Hsave.
  destruct (tests_append fuel s Htests)
    as (Hf & rs1 & rs2 & Hr & (Hall1 & Hsort1) & (Hall2 & Hsort2)).
  rewrite Hfresh in Hr. cbn [app] in Hr.
  destruct (save_results_done env _ Hsave) as (Hrs & Hfs).
  assert (Hend : results (snd (run_all_tests env fuel s))
                 = results (snd (tests env fuel s))
                 /\ files (snd (run_all_tests env fuel s))
                    = files (snd (save_results env (snd (tests env fuel s))))).
  { clear Hf Hr Hfs. revert Htests Hsave Hrs.
    destruct (tests env fuel s) as [o3 s3] eqn:ET. cbn [fst snd].
    intros ->.
    destruct (save_results env s3) as [o4 s4] eqn:ES. cbn [fst snd].
    intros -> Hrs.
    rewrite (@run_all_tests_completed fuel s s3 s4 ET ES).
    match goal with
    | |- context [stop_worker env ?s5] =>
        pose proof (stop_worker_adds env [] s5) as (Hr5 & Hf5 & _);
        destruct (stop_worker env s5) as [[[] | e |] s6]
    end; cbn [fst snd] in *; simpl in Hr5, Hf5.
    all: split; congruence. }
  destruct Hend as (Hres & Hfiles).
  assert (H1 : of_type "Fixed_Particles" (rs1 ++ rs2) = rs1).
  { unfold of_type. rewrite filter_app.
    change (filter _ rs1) with (of_type "Fixed_Particles" rs1).
    change (filter _ rs2) with (of_type "Fixed_Particles" rs2).
    rewrite (@of_type_all "Fixed_Particles" rs1),
      (@of_type_none "Fixed_Particles" "Fixed_Cycles" rs2).
    - apply app_nil_r.
    - discriminate.
    - eapply Forall_impl; [| exact Hall2]. intros r (Ht & _). exact Ht.
    - eapply Forall_impl; [| exact Hall1]. intros r (Ht & _). exact Ht. }
  assert (H2 : of_type "Fixed_Cycles" (rs1 ++ rs2) = rs2).
  { unfold of_type. rewrite filter_app.
    change (filter _ rs1) with (of_type "Fixed_Cycles" rs1).
    change (filter _ rs2) with (of_type "Fixed_Cycles" rs2).
    rewrite (@of_type_all "Fixed_Cycles" rs2),
      (@of_type_none "Fixed_Cycles" "Fixed_Particles" rs1).
    - reflexivity.
    - discriminate.
    - eapply Forall_impl; [| exact Hall1]. intros r (Ht & _). exact Ht.
    - eapply Forall_impl; [| exact Hall2]. intros r (Ht & _). exact Ht. }
  exists rs1, rs2. splits.
  - rewrite Hres. exact Hr.
  - eapply Forall_impl; [| exact Hall1]. intros r (_ & Hm & Hx). auto.
  - exact Hsort1.
  - eapply Forall_impl; [| exact Hall2]. intros r (_ & Hm & Hx). auto.
  - exact Hsort2.
  - rewrite Hfiles, Hfs, Hf, Hr. unfold new_rows. rewrite H1.
    change ("fixed_particles_results.csv" =? "fixed_particles_results.csv")%string
      with true.
    change ("fixed_particles_results.csv" =? "fixed_cycles_results.csv")%string
      with false.
    cbv iota. rewrite app_nil_r. reflexivity.
  - rewrite Hfiles, Hfs, Hf, Hr. unfold new_rows. rewrite H2.
    change ("fixed_cycles_results.csv" =? "fixed_cycles_results.csv")%string
      with true.
    change ("fixed_cycles_results.csv" =? "fixed_particles_results.csv")%string
      with false.
    cbv iota. reflexivity.
  - intros p Hp1 Hp2. rewrite Hfiles, Hfs, Hf. unfold new_rows.
    apply String.eqb_neq in Hp1, Hp2. rewrite Hp1, Hp2. apply app_nil_r.
Qed.

End EndToEnd.

(* ================================================================= *)
(** ** Concrete runs *)

(** C3.  The first worker is dead at its liveness probe.  The first
    distributed trial gives up with [None] and leaves the dead handle
    in the pool; the second trial finds the pool non-empty, starts no
    worker, launches the driver and returns its measurement. *)
Theorem failed_pool_is_used_by_next_trial :
  fst (run_simulation Scenario.dead_first_worker "distributed" 3000 500
         (initial Scenario.no_files)) = Ret None
  /\ worker_processes
       (snd (run_simulation Scenario.dead_first_worker "distributed" 3000 500
               (initial Scenario.no_files))) = Some [0%nat]
  /\ running 0
       (snd (run_simulation Scenario.dead_first_worker "distributed" 3000 500
               (initial Scenario.no_files))) = false
  /\ fst (run_simulation Scenario.dead_first_worker "distributed" 3000 500
            (snd (run_simulation Scenario.dead_first_worker "distributed"
                    3000 500 (initial Scenario.no_files))))
     = Ret (Some (Exact.Fin 3))
  /\ launches
       (trace
          (snd (run_simulation Scenario.dead_first_worker "distributed"
                  3000 500
                  (snd (run_simulation Scenario.dead_first_worker
                          "distributed" 3000 500
                          (initial Scenario.no_files))))))
     = [driver_cmd "distributed" 3000 500]
  /\ procs
       (snd (run_simulation Scenario.dead_first_worker "distributed" 3000 500
               (snd (run_simulation Scenario.dead_first_worker "distributed"
                       3000 500 (initial Scenario.no_files)))))
     = [false].
Proof. repeat split; reflexivity. Qed.

(** C2, as stated, fails: every repetition at 500 cycles fails, the
    sweep stops, and no result at all is appended for the point. *)
Lemma all_failed_appends_nothing :
  fst (sweep_loop Scenario.always_failing 5 Scenario.small_plan "sequential"
         500 (initial Scenario.no_files)) = Ret tt
  /\ visited
       (trace (snd (sweep_loop Scenario.always_failing 5 Scenario.small_plan
                      "sequential" 500 (initial Scenario.no_files))))
     = [(3000, 500)]
  /\ failed_runs
       (trace (snd (sweep_loop Scenario.always_failing 5 Scenario.small_plan
                      "sequential" 500 (initial Scenario.no_files))))
     = [1; 2; 3]
  /\ results (snd (sweep_loop Scenario.always_failing 5 Scenario.small_plan
                     "sequential" 500 (initial Scenario.no_files)))
     = [].
Proof. repeat split; reflexivity. Qed.

(** C1, as stated, fails: the driver reports [inf] three times, the
    mean of the times ([inf]) exceeds the budget of 180 seconds, and
    [statistics.stdev] raises on the times; the sweep ends with that
    exception and no record of the point is appended. *)
Lemma non_finite_times_raise_before_record :
  fst (measure Scenario.non_finite Scenario.small_plan "sequential" 500
         (initial Scenario.no_files))
  = Ret [Exact.PInf; Exact.PInf; Exact.PInf]
  /\ @float_gt_int Exact.exact_float
       (@statistics_mean Exact.exact_float
          [Exact.PInf; Exact.PInf; Exact.PInf])
       (max_runtime_seconds Scenario.small_plan) = true
  /\ @statistics_stdev Exact.exact_float
       [Exact.PInf; Exact.PInf; Exact.PInf]
     = inl AttributeError
  /\ fst (sweep_loop Scenario.non_finite 5 Scenario.small_plan "sequential"
            500 (initial Scenario.no_files))
     = Raise AttributeError
  /\ visited
       (trace (snd (sweep_loop Scenario.non_finite 5 Scenario.small_plan
                      "sequential" 500 (initial Scenario.no_files))))
     = [(3000, 500)]
  /\ results (snd (sweep_loop Scenario.non_finite 5 Scenario.small_plan
                     "sequential" 500 (initial Scenario.no_files)))
     = [].
Proof. repeat split; reflexivity. Qed.

(** C8, as stated, fails: a driver that exits with status 0 and prints
    [Elapsed time: -1.5 s] yields the measurement -1.5. *)
Lemma negative_measurement_returned :
  fst (run_simulation Scenario.negative_time "sequential" 3000 500
         (initial Scenario.no_files))
  = Ret (Some (Exact.Fin (-15 # 10)))
  /\ (-15 # 10 < 0)%Q.
Proof. split; reflexivity. Qed.

(** C10, as stated, fails: in distributed mode with an empty pool the
    launch of the first worker raises and the exception leaves
    [run_simulation]. *)
Lemma worker_launch_error_escapes :
  fst (run_simulation Scenario.no_java "distributed" 3000 500
         (initial Scenario.no_files))
  = Raise (OSError "No such file or directory")
  /\ is_Exception (OSError "No such file or directory") = true.
Proof. split; reflexivity. Qed.

(* ================================================================= *)
(** ** The theorems at work *)

#[local] Existing Instance Exact.exact_float.

Lemma pair_of_fst (A B : Type) (p : A * B) (a : A) :
  fst p = a -> p = (a, snd p).
Proof. intros <-. apply surjective_pairing. Qed.

(** C4 on the plan 500, 1000, 1500 with a slow second point. *)
Lemma sweep_values_increasing_witness :
  0 < increment Scenario.small_plan
  /\
  ((let r := sweep_loop Scenario.slow_at_1000 5 Scenario.small_plan
               "sequential" (starting Scenario.small_plan)
               (initial Scenario.no_files) in
    exists rs l,
      results (snd r) = results (initial Scenario.no_files) ++ rs /\
      trace (snd r) = trace (initial Scenario.no_files) ++ l /\
      StronglySorted Z.lt (map (swept_value Scenario.small_plan) rs) /\
      Forall (fun x => x <= max_value Scenario.small_plan /\
                       exists k, 0 <= k /\
                         x = starting Scenario.small_plan
                             + k * increment Scenario.small_plan)
        (map (swept_value Scenario.small_plan) rs) /\
      StronglySorted Z.lt (map (control Scenario.small_plan) (visited l)) /\
      Forall (fun x => x <= max_value Scenario.small_plan /\
                       exists k, 0 <= k /\
                         x = starting Scenario.small_plan
                             + k * increment Scenario.small_plan)
        (map (control Scenario.small_plan) (visited l)) /\
      (max_value Scenario.small_plan
       < starting Scenario.small_plan
         + Z.of_nat 5 * increment Scenario.small_plan ->
       fst r <> OutOfFuel))
   /\
   (let r := run_repetitions Scenario.slow_at_1000 "sequential" 3000 500
               (range (runs_per_config Scenario.small_plan)) []
               (initial Scenario.no_files) in
    exists l,
      trace (snd r) = trace (initial Scenario.no_files) ++ l /\
      StronglySorted Z.lt (failed_runs l) /\
      Forall (fun n => 1 <= n <= runs_per_config Scenario.small_plan)
        (failed_runs l) /\
      forall ts, fst r = Ret ts ->
        (List.length ts + List.length (failed_runs l)
         = Z.to_nat (runs_per_config Scenario.small_plan))%nat)).
Proof.
  split; [reflexivity |].
  exact (@sweep_values_increasing Exact.exact_float Scenario.slow_at_1000
           Scenario.small_plan "sequential" 5 (initial Scenario.no_files)
           3000 500 eq_refl).
Defined.

(** C1 (amended) when every run takes 200 seconds: the sweep stops at
    500. *)
Lemma over_budget_stops_sweep_witness :
  0 < increment Scenario.small_plan
  /\ 500 <= max_value Scenario.small_plan
  /\ measure Scenario.always_slow Scenario.small_plan "sequential" 500
       (initial Scenario.no_files)
     = (Ret [Exact.Fin 200; Exact.Fin 200; Exact.Fin 200],
        snd (measure Scenario.always_slow Scenario.small_plan "sequential"
               500 (initial Scenario.no_files)))
  /\ float_gt_int
       (statistics_mean [Exact.Fin 200; Exact.Fin 200; Exact.Fin 200])
       (max_runtime_seconds Scenario.small_plan) = true
  /\ statistics_stdev [Exact.Fin 200; Exact.Fin 200; Exact.Fin 200]
     = inr (Exact.Fin 0)
  /\ exists s2,
       sweep_loop Scenario.always_slow 4 Scenario.small_plan "sequential"
         500 (initial Scenario.no_files) = (Ret tt, s2)
       /\ results s2
          = [{| test_type := "Fixed_Particles"; mode := "sequential";
                particles := 3000; cycles := 500;
                run_times := [Exact.Fin 200; Exact.Fin 200; Exact.Fin 200];
                average_time := Exact.Fin 200;
                std_dev := NFloat (Exact.Fin 0) |}]
       /\ visited (trace s2) = [(3000, 500)]
       /\ tick s2 = 3%nat.
Proof.
  assert (Hm : measure Scenario.always_slow Scenario.small_plan "sequential"
                 500 (initial Scenario.no_files)
               = (Ret [Exact.Fin 200; Exact.Fin 200; Exact.Fin 200],
                  snd (measure Scenario.always_slow Scenario.small_plan
                         "sequential" 500 (initial Scenario.no_files)))).
  { apply pair_of_fst. reflexivity. }
  split; [reflexivity |].
  split; [discriminate |].
  split; [exact Hm |].
  split; [reflexivity |].
  split; [reflexivity |].
  destruct (@over_budget_stops_sweep Exact.exact_float Scenario.always_slow
              Scenario.small_plan "sequential" 3 500
              (initial Scenario.no_files) eq_refl) as (Hlocal & _).
  destruct (Hlocal [Exact.Fin 200; Exact.Fin 200; Exact.Fin 200]
              (snd (measure Scenario.always_slow Scenario.small_plan
                      "sequential" 500 (initial Scenario.no_files)))
              (@NFloat Exact.exact_float (Exact.Fin 0)))
    as (s2 & Hloop & Hres & _ & Hvis & _ & Htick);
    [discriminate | exact Hm | discriminate | reflexivity
    | cbv iota; eexists; split; reflexivity |].
  exists s2. split; [exact Hloop |]. split; [exact Hres |].
  split; [rewrite Hvis; reflexivity | rewrite Htick; reflexivity].
Defined.

(** C2 (amended) when every launch of the driver exits with status 1. *)
Lemma all_failed_stops_sweep_witness :
  500 <= max_value Scenario.small_plan
  /\ measure Scenario.always_failing Scenario.small_plan "sequential" 500
       (initial Scenario.no_files)
     = (Ret [],
        snd (measure Scenario.always_failing Scenario.small_plan "sequential"
               500 (initial Scenario.no_files)))
  /\ exists s2 l,
       sweep_loop Scenario.always_failing 1 Scenario.small_plan "sequential"
         500 (initial Scenario.no_files) = (Ret tt, s2)
       /\ results s2 = results (initial Scenario.no_files)
       /\ visited l = [point Scenario.small_plan 500]
       /\ failed_runs l
          = map (fun run => run + 1)
              (range (runs_per_config Scenario.small_plan)).
Proof.
  assert (Hm : measure Scenario.always_failing Scenario.small_plan
                 "sequential" 500 (initial Scenario.no_files)
               = (Ret [],
                  snd (measure Scenario.always_failing Scenario.small_plan
                         "sequential" 500 (initial Scenario.no_files)))).
  { apply pair_of_fst. reflexivity. }
  split; [discriminate |].
  split; [exact Hm |].
  destruct (@all_failed_stops_sweep Exact.exact_float Scenario.always_failing
              Scenario.small_plan "sequential" 0 500
              (initial Scenario.no_files)
              (snd (measure Scenario.always_failing Scenario.small_plan
                      "sequential" 500 (initial Scenario.no_files))))
    as (s2 & l & Hloop & Hres & _ & Hvis & Hfail & _);
    [discriminate | exact Hm |].
  exists s2, l. auto.
Defined.

(** C5 on a point whose three repetitions take 10, 11 and 9 seconds:
    the record holds the three times, the mean 10 and the deviation
    1. *)
Lemma summary_mean_and_std_dev_witness :
  500 <= max_value Scenario.small_plan
  /\ measure Scenario.slow_at_1000 Scenario.small_plan "sequential" 500
       (initial Scenario.no_files)
     = (Ret [Exact.Fin 10; Exact.Fin 11; Exact.Fin 9],
        snd (measure Scenario.slow_at_1000 Scenario.small_plan "sequential"
               500 (initial Scenario.no_files)))
  /\ statistics_stdev [Exact.Fin 10; Exact.Fin 11; Exact.Fin 9]
     = inr (Exact.Fin 1)
  /\ exists more,
       results (snd (sweep_loop Scenario.slow_at_1000 5 Scenario.small_plan
                       "sequential" 500 (initial Scenario.no_files)))
       = {| test_type := "Fixed_Particles"; mode := "sequential";
            particles := 3000; cycles := 500;
            run_times := [Exact.Fin 10; Exact.Fin 11; Exact.Fin 9];
            average_time := Exact.Fin 10;
            std_dev := NFloat (Exact.Fin 1) |} :: more.
Proof.
  assert (Hv : 500 <= max_value Scenario.small_plan) by discriminate.
  assert (Hm : measure Scenario.slow_at_1000 Scenario.small_plan
                 "sequential" 500 (initial Scenario.no_files)
               = (Ret [Exact.Fin 10; Exact.Fin 11; Exact.Fin 9],
                  snd (measure Scenario.slow_at_1000 Scenario.small_plan
                         "sequential" 500 (initial Scenario.no_files)))).
  { apply pair_of_fst. reflexivity. }
  split; [exact Hv |]. split; [exact Hm |]. split; [reflexivity |].
  destruct (@summary_mean_and_std_dev Exact.exact_float
              Scenario.slow_at_1000 Scenario.small_plan "sequential" 4 500
              (initial Scenario.no_files) "" [] [] 0 0 0)
    as (Hpoint & _).
  destruct (Hpoint _ _ Hv Hm ltac:(discriminate)) as (_ & Hrecord & _).
  apply (Hrecord (@NFloat Exact.exact_float (Exact.Fin 1))).
  cbv iota. eexists. split; reflexivity.
Defined.


(** C8 (amended) on a driver that reports 12.5 seconds. *)
Lemma zero_exit_measurement_witness :
  is_distributed "sequential"
  && no_workers (worker_processes (initial Scenario.no_files)) = false
  /\ on_run Scenario.steady (tick (initial Scenario.no_files))
     = inr (0, Scenario.report_text "12.5", "")
  /\ fst (run_simulation Scenario.steady "sequential" 3000 500
            (initial Scenario.no_files))
     = Ret (measurement (PF := Exact.exact_float) "Elapsed time: 12.5 s")
  /\ measurement (PF := Exact.exact_float) "Elapsed time: 12.5 s" = Some (Exact.Fin (125 # 10)).
Proof.
  split; [reflexivity |]. split; [reflexivity |].
  split; [| reflexivity].
  destruct (@zero_exit_measurement Exact.exact_float Scenario.steady
              "sequential" 3000 500 (initial Scenario.no_files)
              (Scenario.report_text "12.5") "" eq_refl eq_refl)
    as (_ & Hfound).
  apply (Hfound ["Initialized"] "Elapsed time: 12.5 s" [""]).
  - reflexivity.
  - repeat constructor.
  - reflexivity.
Defined.

(** C10 (amended) on a distributed trial of a fresh tester: the pool is
    started, then the driver exits with status 0 without printing a
    time. *)
Lemma run_simulation_exceptions_witness :
  start_worker Scenario.silent (initial Scenario.no_files)
  = (Ret true, snd (start_worker Scenario.silent (initial Scenario.no_files)))
  /\ on_run Scenario.silent
       (tick (snd (start_worker Scenario.silent (initial Scenario.no_files))))
     = inr (0, "done", "")
  /\ Forall (fun line => PyStr.contains marker line = false)
       (PyStr.split PyStr.newline "done")
  /\ fst (run_simulation Scenario.silent "distributed" 3000 500
            (initial Scenario.no_files)) <> OutOfFuel
  /\ fst (run_simulation Scenario.silent "distributed" 3000 500
            (initial Scenario.no_files)) = Ret None.
Proof.
  assert (Hstart : start_worker Scenario.silent (initial Scenario.no_files)
                   = (Ret true,
                      snd (start_worker Scenario.silent
                             (initial Scenario.no_files)))).
  { apply pair_of_fst. reflexivity. }
  assert (Hlines : Forall (fun line => PyStr.contains marker line = false)
                     (PyStr.split PyStr.newline "done")).
  { repeat constructor. }
  destruct (@run_simulation_exceptions Exact.exact_float Scenario.silent
              "distributed" 3000 500 (initial Scenario.no_files))
    as (Htotal & _ & _ & Hdriver).
  split; [exact Hstart |]. split; [reflexivity |]. split; [exact Hlines |].
  split; [exact Htotal |].
  destruct (Hdriver (snd (start_worker Scenario.silent
                            (initial Scenario.no_files))))
    as (_ & _ & Hzero).
  { right. split; [reflexivity |]. split; [reflexivity | exact Hstart]. }
  destruct (Hzero "done" "" eq_refl) as (Hnone & _).
  apply Hnone. exact Hlines.
Defined.


(* ================================================================= *)
(** ** Further scenarios *)

Module Cases.

(** The JAR file has not been built. *)
Definition no_jar : Env :=
{| on_chdir := None; jar_exists := false;
   on_pkill := fun _ => None; on_sleep := fun _ => None;
   on_popen := fun _ => None; on_poll := fun _ => true;
   on_communicate := fun _ => ("", "");
   on_run := fun _ => Scenario.report "3";
   on_wait := fun _ => None; on_open := fun _ => None |}.

(** The second [open] of the run is refused. *)
Definition second_open_refused : Env :=
{| on_chdir := None; jar_exists := true;
   on_pkill := fun _ => None; on_sleep := fun _ => None;
   on_popen := fun _ => None; on_poll := fun _ => true;
   on_communicate := fun _ => ("", "");
   on_run := fun _ => Scenario.report "3";
   on_wait := fun _ => None;
   on_open := fun t => if Nat.eqb t 1
                       then Some (OSError "Permission denied") else None |}.

(** The user interrupts the first sleep of the run. *)
Definition interrupted : Env :=
{| on_chdir := None; jar_exists := true;
   on_pkill := fun _ => None;
   on_sleep := fun t => if Nat.eqb t 1 then Some KeyboardInterrupt else None;
   on_popen := fun _ => None; on_poll := fun _ => true;
   on_communicate := fun _ => ("", "");
   on_run := fun _ => Scenario.report "3";
   on_wait := fun _ => None; on_open := fun _ => None |}.

(** A fresh tester whose pool has just been started. *)
Definition started : State :=
snd (start_worker Scenario.steady (initial Scenario.no_files)).

Definition particles_result : result :=
summary "Fixed_Particles" "distributed" 3000 500 [Exact.Fin 10]
  (Exact.Fin 10) (NInt 0).

Definition cycles_result : result :=
summary "Fixed_Cycles" "distributed" 500 10000 [Exact.Fin 20]
  (Exact.Fin 20) (NInt 0).

(** A tester that holds one result of each test. *)
Definition one_of_each : State :=
mk_state 0 [] [] Scenario.no_files None [particles_result; cycles_result].

(** A tester that holds a single result, recorded by [run_test_series]
    under a name of its caller's. *)
Definition warmup_only : State :=
mk_state 0 [] [] Scenario.no_files None
  [summary "Warmup" "sequential" 100 100 [Exact.Fin 1] (Exact.Fin 1)
     (NInt 0)].

End Cases.

Lemma initial_tracked : tracked (initial Scenario.no_files).
Proof. intros h Hh. destruct h; discriminate. Defined.

(** X1 on a fresh tester in a calm operating system. *)
Lemma started_pool_is_four_fresh_workers_witness :
  fst (start_worker Scenario.steady (initial Scenario.no_files)) = Ret true
  /\ worker_processes Cases.started = Some [0; 1; 2; 3]%nat
  /\ List.length (procs Cases.started) = 4%nat
  /\ (forall h, In h [0; 1; 2; 3]%nat ->
                (0 <= h)%nat /\ running h Cases.started = true).
Proof.
  split; [reflexivity |].
  destruct (@started_pool_is_four_fresh_workers Exact.exact_float
              Scenario.steady (initial Scenario.no_files) eq_refl)
    as (Hpool & Hlen & Hrun & _).
  split; [exact Hpool |]. split; [exact Hlen | exact Hrun].
Defined.

(** X2 on the pool of four workers that was just started. *)
Lemma stop_worker_empties_the_pool_witness :
  fst (stop_worker Scenario.steady Cases.started) = Ret tt
  /\ no_workers
       (worker_processes (snd (stop_worker Scenario.steady Cases.started)))
     = true
  /\ (forall h, In h [0; 1; 2; 3]%nat ->
                running h (snd (stop_worker Scenario.steady Cases.started))
                = false)
  /\ (forall h, running h (snd (stop_worker Scenario.steady Cases.started))
                = true ->
                running h Cases.started = true)
  /\ stop_worker Scenario.steady
       (snd (stop_worker Scenario.steady Cases.started))
     = pkill_workers Scenario.steady
         (snd (stop_worker Scenario.steady Cases.started)).
Proof.
  split; [reflexivity |].
  exact (@stop_worker_empties_the_pool Exact.exact_float Scenario.steady
           Cases.started eq_refl).
Defined.

(** X3 on a sequential trial of a fresh tester. *)
Lemma trial_only_launches_driver_witness :
  is_distributed "sequential"
  && no_workers (worker_processes (initial Scenario.no_files)) = false
  /\ tick (snd (run_simulation Scenario.steady "sequential" 3000 500
                  (initial Scenario.no_files))) = 1%nat
  /\ procs (snd (run_simulation Scenario.steady "sequential" 3000 500
                   (initial Scenario.no_files))) = []
  /\ worker_processes
       (snd (run_simulation Scenario.steady "sequential" 3000 500
               (initial Scenario.no_files))) = None
  /\ results (snd (run_simulation Scenario.steady "sequential" 3000 500
                     (initial Scenario.no_files))) = []
  /\ files (snd (run_simulation Scenario.steady "sequential" 3000 500
                   (initial Scenario.no_files))) = Scenario.no_files
  /\ exists l,
       trace (snd (run_simulation Scenario.steady "sequential" 3000 500
                     (initial Scenario.no_files)))
       = [] ++ EvRun (driver_cmd "sequential" 3000 500) 300 :: l
       /\ Forall print_event l.
Proof.
  split; [reflexivity |].
  exact (@trial_only_launches_driver Exact.exact_float Scenario.steady
           "sequential" 3000 500 (initial Scenario.no_files) eq_refl).
Defined.

(** X5 on a tester that holds only a result of another name. *)
Lemma nothing_to_save_opens_no_file_witness :
  of_type "Fixed_Particles" (results Cases.warmup_only) = []
  /\ of_type "Fixed_Cycles" (results Cases.warmup_only) = []
  /\ fst (save_results Cases.second_open_refused Cases.warmup_only) = Ret tt
  /\ files (snd (save_results Cases.second_open_refused Cases.warmup_only))
     = files Cases.warmup_only.
Proof.
  split; [reflexivity |]. split; [reflexivity |].
  destruct (@nothing_to_save_opens_no_file Exact.exact_float
              Cases.second_open_refused Cases.warmup_only eq_refl eq_refl)
    as (Hret & _ & Hfiles & _).
  split; [exact Hret | exact Hfiles].
Defined.

(** X6 on a tester that holds one result of each test. *)
Lemma saving_twice_writes_rows_twice_witness :
  fst (save_results Scenario.steady Cases.one_of_each) = Ret tt
  /\ fst (save_results Scenario.steady
            (snd (save_results Scenario.steady Cases.one_of_each))) = Ret tt
  /\ files (snd (save_results Scenario.steady
                   (snd (save_results Scenario.steady Cases.one_of_each))))
       "fixed_particles_results.csv"
     = [csv_row Cases.particles_result; csv_row Cases.particles_result].
Proof.
  split; [reflexivity |]. split; [reflexivity |].
  destruct (@saving_twice_writes_rows_twice Exact.exact_float Scenario.steady
              Cases.one_of_each eq_refl eq_refl) as (_ & Hfp & _).
  exact Hfp.
Defined.

(** X7 on a tester that holds one result of each test, when the second
    file cannot be opened. *)
Lemma second_open_failure_keeps_first_rows_witness :
  of_type "Fixed_Particles" (results Cases.one_of_each) <> []
  /\ of_type "Fixed_Cycles" (results Cases.one_of_each) <> []
  /\ on_open Cases.second_open_refused (tick Cases.one_of_each) = None
  /\ on_open Cases.second_open_refused (S (tick Cases.one_of_each))
     = Some (OSError "Permission denied")
  /\ fst (save_results Cases.second_open_refused Cases.one_of_each)
     = Raise (OSError "Permission denied")
  /\ files (snd (save_results Cases.second_open_refused Cases.one_of_each))
       "fixed_particles_results.csv"
     = [csv_row Cases.particles_result].
Proof.
  assert (H1 : of_type "Fixed_Particles" (results Cases.one_of_each) <> [])
    by discriminate.
  assert (H2 : of_type "Fixed_Cycles" (results Cases.one_of_each) <> [])
    by discriminate.
  split; [exact H1 |]. split; [exact H2 |].
  split; [reflexivity |]. split; [reflexivity |].
  destruct (@second_open_failure_keeps_first_rows Exact.exact_float
              Cases.second_open_refused Cases.one_of_each
              (OSError "Permission denied") H1 H2 eq_refl eq_refl)
    as (Hret & Hfp & _).
  split; [exact Hret | exact Hfp].
Defined.

(** X8 on a fresh tester when the JAR file was not built. *)
Lemma missing_jar_exits_before_any_test_witness :
  on_chdir Cases.no_jar = None
  /\ jar_exists Cases.no_jar = false
  /\ no_workers (worker_processes (initial Scenario.no_files)) = true
  /\ on_pkill Cases.no_jar (tick (initial Scenario.no_files)) = None
  /\ fst (run_all_tests Cases.no_jar 20 (initial Scenario.no_files))
     = Raise (SystemExit 1)
  /\ procs (snd (run_all_tests Cases.no_jar 20 (initial Scenario.no_files)))
     = [].
Proof.
  do 4 (split; [reflexivity |]).
  destruct (@missing_jar_exits_before_any_test Exact.exact_float Cases.no_jar
              20 (initial Scenario.no_files) eq_refl eq_refl eq_refl eq_refl)
    as (Hret & _ & Hprocs & _).
  split; [exact Hret | exact Hprocs].
Defined.

(** X9 on a run the user interrupts during the start of the first
    pool: [run_all_tests] returns normally. *)
Lemma run_all_tests_swallows_errors_witness :
  fst (try_body Cases.interrupted 20 (initial Scenario.no_files))
  = Raise KeyboardInterrupt
  /\ fst (cleanup Cases.interrupted
            (snd (run_all_tests_guarded Cases.interrupted 20
                    (initial Scenario.no_files)))) = Ret tt
  /\ fst (run_all_tests Cases.interrupted 20 (initial Scenario.no_files))
     = Ret tt.
Proof.
  assert (H1 : fst (try_body Cases.interrupted 20 (initial Scenario.no_files))
               = Raise KeyboardInterrupt) by reflexivity.
  assert (H2 : fst (cleanup Cases.interrupted
                      (snd (run_all_tests_guarded Cases.interrupted 20
                              (initial Scenario.no_files)))) = Ret tt)
    by reflexivity.
  split; [exact H1 |]. split; [exact H2 |].
  destruct (@run_all_tests_swallows_errors Exact.exact_float
              Cases.interrupted 20 (initial Scenario.no_files))
    as (_ & _ & _ & _ & Hreturn & _).
  exact (Hreturn KeyboardInterrupt H1 (or_introl eq_refl) H2).
Defined.

(** X10 on the first test of the script: at most 20 points, hence at
    most 60 launches. *)
Lemma sweep_cost_is_bounded_witness :
  0 < increment FIXED_PARTICLES_TEST
  /\ exists rs l,
       results (snd (sweep_loop Scenario.steady 20 FIXED_PARTICLES_TEST
                       "sequential" 500 (initial Scenario.no_files)))
       = results (initial Scenario.no_files) ++ rs
       /\ trace (snd (sweep_loop Scenario.steady 20 FIXED_PARTICLES_TEST
                        "sequential" 500 (initial Scenario.no_files)))
          = trace (initial Scenario.no_files) ++ l
       /\ (visited l <> [] ->
           500 + (Z.of_nat (List.length (visited l)) - 1) * 500 <= 10000)
       /\ (List.length rs <= List.length (visited l))%nat
       /\ (List.length (launches l) <= List.length (visited l) * 3)%nat.
Proof.
  split; [reflexivity |].
  exact (@sweep_cost_is_bounded Exact.exact_float Scenario.steady
           FIXED_PARTICLES_TEST "sequential" 20 500
           (initial Scenario.no_files) eq_refl).
Defined.

(** X11 on a distributed test over the plan 500, 1000, 1500. *)
Lemma finished_test_leaves_no_pool_witness :
  tracked (initial Scenario.no_files)
  /\ fst (sweep_modes Scenario.steady 5 Scenario.small_plan ["distributed"]
            (initial Scenario.no_files)) = Ret tt
  /\ all_stopped
       (snd (sweep_modes Scenario.steady 5 Scenario.small_plan
               ["distributed"] (initial Scenario.no_files)))
  /\ no_workers
       (worker_processes
          (snd (sweep_modes Scenario.steady 5 Scenario.small_plan
                  ["distributed"] (initial Scenario.no_files))))
     = true.
Proof.
  split; [exact initial_tracked |]. split; [reflexivity |].
  exact (@finished_test_leaves_no_pool Exact.exact_float Scenario.steady 5
           Scenario.small_plan (initial Scenario.no_files) initial_tracked
           eq_refl).
Defined.


(** X13 when the JAR file was not built. *)
Lemma failed_tests_write_no_file_witness :
  fst (tests Cases.no_jar 20 (initial Scenario.no_files)) <> Ret tt
  /\ files (snd (run_all_tests Cases.no_jar 20 (initial Scenario.no_files)))
     = Scenario.no_files.
Proof.
  assert (H : fst (tests Cases.no_jar 20 (initial Scenario.no_files))
              <> Ret tt) by discriminate.
  split; [exact H |].
  exact (@failed_tests_write_no_file Exact.exact_float Cases.no_jar 20
           (initial Scenario.no_files) H).
Defined.

(** X14 on a distributed sweep over the pool that was just started. *)
Lemma sweep_over_pool_only_launches_driver_witness :
  is_distributed "distributed"
  && no_workers (worker_processes Cases.started) = false
  /\ procs (snd (sweep_loop Scenario.steady 5 Scenario.small_plan
                   "distributed" 500 Cases.started))
     = procs Cases.started
  /\ worker_processes
       (snd (sweep_loop Scenario.steady 5 Scenario.small_plan
               "distributed" 500 Cases.started))
     = worker_processes Cases.started.
Proof.
  split; [reflexivity |].
  destruct (@sweep_over_pool_only_launches_driver Exact.exact_float
              Scenario.steady Scenario.small_plan "distributed" 5 500
              Cases.started eq_refl) as (Hprocs & Hpool & _).
  split; [exact Hprocs | exact Hpool].
Defined.

(** X15 on a fresh tester when every run takes 200 seconds: each test
    stops after its first point. *)
Lemma completed_run_writes_each_test_to_its_file_witness :
  results (initial Scenario.no_files) = []
  /\ fst (tests Scenario.always_slow 20 (initial Scenario.no_files)) = Ret tt
  /\ fst (save_results Scenario.always_slow
            (snd (tests Scenario.always_slow 20 (initial Scenario.no_files))))
     = Ret tt
  /\ exists rs1 rs2,
       results (snd (run_all_tests Scenario.always_slow 20
                       (initial Scenario.no_files)))
       = rs1 ++ rs2
       /\ files (snd (run_all_tests Scenario.always_slow 20
                        (initial Scenario.no_files)))
            "fixed_particles_results.csv"
          = map csv_row rs1
       /\ files (snd (run_all_tests Scenario.always_slow 20
                        (initial Scenario.no_files)))
            "fixed_cycles_results.csv"
          = map csv_row rs2.
Proof.
  do 3 (split; [reflexivity |]).
  destruct (@completed_run_writes_each_test_to_its_file Exact.exact_float
              Scenario.always_slow 20 (initial Scenario.no_files)
              eq_refl eq_refl eq_refl)
    as (rs1 & rs2 & Hr & _ & _ & _ & _ & Hfp & Hfc & _).
  exists rs1, rs2. split; [exact Hr |]. split; [exact Hfp | exact Hfc].
Defined.
